(** * IoT device registry chaincode: a shallow embedding and its properties

    Source: [chaincode/chaincode/smartcontract.go], a Hyperledger Fabric
    contract with six transactions ([RegisterDevice], [DeviceExists],
    [SubmitData], [VerifyData], [GetDevice], [GetDataRecord]) over two
    structs, [Device] and [DataRecord].

    The contract calls two libraries, and what it stores and returns is
    decided by them, so both are modelled here as they behave:
    - Go's [unicode/utf8] and [encoding/json], for structs whose fields
      are strings ([json.Marshal], [json.Unmarshal]);
    - the Fabric chaincode stub ([GetState], [PutState],
      [CreateCompositeKey]) over an in-memory world state.

    A Go [string] is a Rocq [string] (a sequence of 8-bit characters, not
    necessarily UTF-8) and a Go [[]byte] is a [list ascii].

    What is assumed of the environment:
    - the ledger is available: [GetState] never fails and [PutState] fails
      only on the empty key, which the stub itself refuses; the state
      database accepts every other key (as LevelDB does);
    - invocations are committed one after the other, each on the state the
      one before left. *)

From Stdlib Require Import ZArith Ascii String List Lia Bool.
From stdpp Require Import gmap strings list.

Local Open Scope Z_scope.

(** ** Bytes *)

Abbreviation bytes := (list ascii).

(** The numeric value of a byte, and Go's conversion [byte(x)], which keeps
    the low eight bits. *)
Definition b2z (b : ascii) : Z := Z.of_N (N_of_ascii b).
Definition z2b (z : Z) : ascii := ascii_of_N (Z.to_N (Z.land z 0xFF)).

(** [[]byte(s)] and [string(b)]. *)
Definition bytes_of_string (s : string) : bytes := list_ascii_of_string s.
Definition string_of_bytes (b : bytes) : string := string_of_list_ascii b.

(** Go's loop [for i := 0; i < len(s); { ...; i += size }]: at every
    position where a step starts, [step] sees the rest of the input and
    yields a result and the number of bytes it consumed; [skip] counts the
    bytes of the current step that are still to be passed over. *)
Fixpoint chunks {A : Type} (step : bytes -> A * nat) (skip : nat) (s : bytes)
  : list A :=
  match s with
  | [] => []
  | _ :: t =>
      match skip with
      | S k => chunks step k t
      | O => let '(a, n) := step s in a :: chunks step (Nat.pred n) t
      end
  end.

(** ** unicode/utf8 *)

Module utf8.

Definition RuneError : Z := 0xFFFD.
Definition RuneSelf : Z := 0x80.
Definition MaxRune : Z := 0x10FFFF.
Definition UTFMax : nat := 4.

Definition surrogateMin : Z := 0xD800.
Definition surrogateMax : Z := 0xDFFF.

Definition tx : Z := 0x80.
Definition t2 : Z := 0xC0.
Definition t3 : Z := 0xE0.
Definition t4 : Z := 0xF0.

Definition maskx : Z := 0x3F.
Definition mask2 : Z := 0x1F.
Definition mask3 : Z := 0x0F.
Definition mask4 : Z := 0x07.

Definition rune1Max : Z := 0x7F.
Definition rune2Max : Z := 0x7FF.
Definition rune3Max : Z := 0xFFFF.

Definition locb : Z := 0x80.
Definition hicb : Z := 0xBF.

(** Information about the first byte of an encoding: the low three bits
    are the size, the high four bits index [acceptRanges]. *)
Definition xx : Z := 0xF1.
Definition as_ : Z := 0xF0.
Definition s1 : Z := 0x02.
Definition s2 : Z := 0x13.
Definition s3 : Z := 0x03.
Definition s4 : Z := 0x23.
Definition s5 : Z := 0x34.
Definition s6 : Z := 0x04.
Definition s7 : Z := 0x44.

(** The table [first[256]]. *)
Definition first (c : Z) : Z :=
  if c <? 0x80 then as_
  else if c <? 0xC2 then xx
  else if c <? 0xE0 then s1
  else if c =? 0xE0 then s2
  else if c <? 0xED then s3
  else if c =? 0xED then s4
  else if c <? 0xF0 then s3
  else if c =? 0xF0 then s5
  else if c <? 0xF4 then s6
  else if c =? 0xF4 then s7
  else xx.

(** The table [acceptRanges]: bounds of the second byte. *)
Definition acceptRanges (i : Z) : Z * Z :=
  match i with
  | 0 => (locb, hicb)
  | 1 => (0xA0, hicb)
  | 2 => (locb, 0x9F)
  | 3 => (0x90, hicb)
  | 4 => (locb, 0x8F)
  | _ => (0, 0)
  end.

(** [DecodeRuneInString] (and [DecodeRune]): the first rune of [s] and its
    width in bytes; [(RuneError, 1)] when the encoding is invalid,
    [(RuneError, 0)] when [s] is empty. *)
Definition DecodeRune (s : bytes) : Z * nat :=
  match s with
  | [] => (RuneError, 0%nat)
  | c0 :: r0 =>
      let x := first (b2z c0) in
      if as_ <=? x then
        ((if x =? as_ then b2z c0 else RuneError), 1%nat)
      else
        let sz := Z.to_nat (Z.land x 7) in
        let accept := acceptRanges (Z.shiftr x 4) in
        if (length s <? sz)%nat then (RuneError, 1%nat)
        else
          match r0 with
          | [] => (RuneError, 1%nat)
          | c1 :: r1 =>
              if (b2z c1 <? fst accept) || (snd accept <? b2z c1)
              then (RuneError, 1%nat)
              else if (sz <=? 2)%nat then
                (Z.lor (Z.shiftl (Z.land (b2z c0) mask2) 6)
                       (Z.land (b2z c1) maskx), 2%nat)
              else
                match r1 with
                | [] => (RuneError, 1%nat)
                | c2 :: r2 =>
                    if (b2z c2 <? locb) || (hicb <? b2z c2)
                    then (RuneError, 1%nat)
                    else if (sz <=? 3)%nat then
                      (Z.lor (Z.lor (Z.shiftl (Z.land (b2z c0) mask3) 12)
                                    (Z.shiftl (Z.land (b2z c1) maskx) 6))
                             (Z.land (b2z c2) maskx), 3%nat)
                    else
                      match r2 with
                      | [] => (RuneError, 1%nat)
                      | c3 :: _ =>
                          if (b2z c3 <? locb) || (hicb <? b2z c3)
                          then (RuneError, 1%nat)
                          else
                            (Z.lor (Z.lor (Z.lor
                               (Z.shiftl (Z.land (b2z c0) mask4) 18)
                               (Z.shiftl (Z.land (b2z c1) maskx) 12))
                               (Z.shiftl (Z.land (b2z c2) maskx) 6))
                               (Z.land (b2z c3) maskx), 4%nat)
                      end
                end
          end
  end.

(** [EncodeRune] / [AppendRune]: the UTF-8 encoding of a rune; surrogates
    and values above [MaxRune] are encoded as [RuneError]. Runes are never
    negative in this development. *)
Definition encode3 (r : Z) : bytes :=
  [ z2b (Z.lor t3 (Z.shiftr r 12));
    z2b (Z.lor tx (Z.land (Z.shiftr r 6) maskx));
    z2b (Z.lor tx (Z.land r maskx)) ].

Definition EncodeRune (r : Z) : bytes :=
  if r <=? rune1Max then [ z2b r ]
  else if r <=? rune2Max then
    [ z2b (Z.lor t2 (Z.shiftr r 6));
      z2b (Z.lor tx (Z.land r maskx)) ]
  else if (MaxRune <? r) || ((surrogateMin <=? r) && (r <=? surrogateMax))
  then encode3 RuneError
  else if r <=? rune3Max then encode3 r
  else
    [ z2b (Z.lor t4 (Z.shiftr r 18));
      z2b (Z.lor tx (Z.land (Z.shiftr r 12) maskx));
      z2b (Z.lor tx (Z.land (Z.shiftr r 6) maskx));
      z2b (Z.lor tx (Z.land r maskx)) ].

(** A step of a [for ... range s] loop or of a manual decoding loop. *)
Definition invalidAt (s : bytes) : bool :=
  let '(r, size) := DecodeRune s in (r =? RuneError) && (size =? 1)%nat.

(** [ValidString]: [s] consists entirely of valid UTF-8-encoded runes. *)
Definition ValidString (s : string) : bool :=
  forallb negb
    (chunks (fun r => (invalidAt r, snd (DecodeRune r))) 0 (bytes_of_string s)).

(** Validity of a byte sequence, stated as [ValidString] computes it. *)
Definition validBytes (s : bytes) : Prop :=
  forallb negb (chunks (fun r => (invalidAt r, snd (DecodeRune r))) 0 s) = true.

(** The runes a [for _, runeValue := range s] loop visits. *)
Definition runes (s : string) : list Z :=
  chunks DecodeRune 0 (bytes_of_string s).

(** *** Well-formed encodings (specification)

    [Encoding w c]: the bytes [w] are the UTF-8 encoding of the scalar
    value [c], in the arithmetic reading of the bit operations above.
    The bounds of the second byte exclude overlong forms, surrogates and
    values above [MaxRune]. *)
Definition secondLo (c0 : Z) : Z :=
  if c0 =? 0xE0 then 0xA0 else if c0 =? 0xF0 then 0x90 else 0x80.
Definition secondHi (c0 : Z) : Z :=
  if c0 =? 0xED then 0x9F else if c0 =? 0xF4 then 0x8F else 0xBF.

Inductive Encoding : bytes -> Z -> Prop :=
  | Encoding1 c0 :
      b2z c0 < 0x80 -> Encoding [c0] (b2z c0)
  | Encoding2 c0 c1 :
      0xC2 <= b2z c0 < 0xE0 -> 0x80 <= b2z c1 <= 0xBF ->
      Encoding [c0; c1] ((b2z c0 - 0xC0) * 64 + (b2z c1 - 0x80))
  | Encoding3 c0 c1 c2 :
      0xE0 <= b2z c0 < 0xF0 ->
      secondLo (b2z c0) <= b2z c1 <= secondHi (b2z c0) ->
      0x80 <= b2z c2 <= 0xBF ->
      Encoding [c0; c1; c2]
        ((b2z c0 - 0xE0) * 4096 + (b2z c1 - 0x80) * 64 + (b2z c2 - 0x80))
  | Encoding4 c0 c1 c2 c3 :
      0xF0 <= b2z c0 < 0xF5 ->
      secondLo (b2z c0) <= b2z c1 <= secondHi (b2z c0) ->
      0x80 <= b2z c2 <= 0xBF -> 0x80 <= b2z c3 <= 0xBF ->
      Encoding [c0; c1; c2; c3]
        ((b2z c0 - 0xF0) * 262144 + (b2z c1 - 0x80) * 4096 +
         (b2z c2 - 0x80) * 64 + (b2z c3 - 0x80)).

End utf8.

(** ** Errors

    A Go [error] is a message; each constructor below is one place where the
    chaincode or a library it calls creates one, with the values formatted
    into the message. [%v] of a wrapped error is the wrapped error. *)

Inductive error : Type :=
  (* fabric-chaincode-go/shim *)
  | KeyMustNotBeEmpty                    (* key must not be an empty string *)
  | NotValidUTF8 (str : string)          (* not a valid utf8 string: [%x] *)
  | ForbiddenRune (str : string)         (* input contains unicode U+0000 / U+10FFFF *)
  (* encoding/json *)
  | SyntaxError
  | UnmarshalTypeError
  (* smartcontract.go *)
  | FailedToCheckDeviceExistence (err : error)
  | DeviceAlreadyRegistered (deviceID : string)
  | FailedToReadFromWorldState (err : error)
  | DeviceNotRegistered (deviceID : string)
  | FailedToCreateCompositeKey (err : error)
  | FailedToGetDataRecord (err : error)
  | DataRecordDoesNotExist (deviceID timestamp : string)
  | FailedToUnmarshalDataRecord (err : error)
  | FailedToReadDevice (err : error)
  | DeviceDoesNotExist (deviceID : string)
  | FailedToUnmarshalDeviceJSON (err : error)
  | DataRecordNotFound.

(** A Go result [(value, error)]. *)
Inductive Result (A : Type) : Type :=
  | Ok (a : A)
  | Err (e : error).
Arguments Ok {A} a.
Arguments Err {A} e.

(** ** encoding/json, for structs whose fields are strings *)

Module json.

Abbreviation dquote := ("034"%char).
Abbreviation backslash := ("\"%char).

(** What the encoder and the decoder know of a struct type by reflection:
    the JSON name and the [omitempty] option of each field, in the order
    of declaration, and access to the fields by index. *)
Record fieldInfo := { name : string; omitEmpty : bool }.

Class Struct (T : Type) := {
  fields : list fieldInfo;
  getField : nat -> T -> string;
  setField : nat -> string -> T -> T
}.
Arguments fields T {_}.

(** *** Encoding *)

Definition hex : bytes := bytes_of_string "0123456789abcdef".
Definition hexDigit (n : Z) : ascii := nth (Z.to_nat n) hex "0"%char.

(** [htmlSafeSet[b]]: the ASCII characters that [Marshal] writes as they
    are: all from the space on, but the double quote, the backslash and,
    with HTML escaping (which [Marshal] has on), [<], [>] and [&]. *)
Definition htmlSafeSet (b : Z) : bool :=
  (0x20 <=? b) && (b <? 0x80) &&
  negb ((b =? 0x22) || (b =? 0x5C) || (b =? 0x3C) || (b =? 0x3E) || (b =? 0x26)).

(** The [switch b] of [appendString] for an ASCII byte outside
    [htmlSafeSet]. *)
Definition escapeByte (b : ascii) : bytes :=
  if (b =? backslash)%char || (b =? dquote)%char then [backslash; b]
  else if b2z b =? 0x08 then [backslash; "b"%char]
  else if b2z b =? 0x0C then [backslash; "f"%char]
  else if b2z b =? 0x0A then [backslash; "n"%char]
  else if b2z b =? 0x0D then [backslash; "r"%char]
  else if b2z b =? 0x09 then [backslash; "t"%char]
  else [backslash; "u"%char; "0"%char; "0"%char;
        hexDigit (Z.shiftr (b2z b) 4); hexDigit (Z.land (b2z b) 0xF)].

(** One round of the loop of [appendString]: what is written for the
    character at the head of [s], and its width. Invalid UTF-8 is written
    as the escape of U+FFFD, one byte at a time. *)
Definition appendStringStep (s : bytes) : bytes * nat :=
  match s with
  | [] => ([], 0%nat)
  | b :: _ =>
      if b2z b <? utf8.RuneSelf then
        if htmlSafeSet (b2z b) then ([b], 1%nat) else (escapeByte b, 1%nat)
      else
        let '(c, size) := utf8.DecodeRune (take utf8.UTFMax s) in
        if (c =? utf8.RuneError) && (size =? 1)%nat then
          (backslash :: bytes_of_string "ufffd", 1%nat)
        else if (c =? 0x2028) || (c =? 0x2029) then
          (backslash :: bytes_of_string "u202" ++ [hexDigit (Z.land c 0xF)], size)
        else (take size s, size)
  end.

Definition quoted (s : bytes) : bytes := concat (chunks appendStringStep 0 s).

Definition appendString (src : string) : bytes :=
  dquote :: quoted (bytes_of_string src) ++ [dquote].

(** The field loop of [structEncoder.encode]; [next] is the byte to write
    before the next field that is not omitted. *)
Fixpoint encodeFields {T} `{Struct T} (next : ascii) (i : nat)
    (fs : list fieldInfo) (v : T) : bytes :=
  match fs with
  | [] => if (next =? "{")%char then bytes_of_string "{}" else ["}"%char]
  | f :: fs' =>
      if omitEmpty f && String.eqb (getField i v) EmptyString
      then encodeFields next (S i) fs' v
      else next :: appendString (name f) ++ ":"%char ::
           appendString (getField i v) ++ encodeFields ","%char (S i) fs' v
  end.

(** [json.Marshal(v)]. No value of a struct of strings makes it fail. *)
Definition Marshal {T} `{Struct T} (v : T) : Result bytes :=
  Ok (encodeFields "{"%char 0 (fields T) v).

(** *** Decoding *)

#[warnings="-register-all"] Inductive Value : Type :=
  | Null
  | Bool (b : bool)
  | Number
  | String (s : string)
  | Array (elems : list Value)
  | Object (members : list (string * Value)).

Definition maxNestingDepth : Z := 10000.

Definition isSpace (c : ascii) : bool :=
  (c =? " ")%char || (b2z c =? 0x09) || (b2z c =? 0x0D) || (b2z c =? 0x0A).

Fixpoint skipSpace (s : bytes) : bytes :=
  match s with
  | c :: t => if isSpace c then skipSpace t else s
  | [] => []
  end.

Definition isDigit (c : ascii) : bool := (0x30 <=? b2z c) && (b2z c <=? 0x39).

Definition hexValue (c : ascii) : option Z :=
  let n := b2z c in
  if (0x30 <=? n) && (n <=? 0x39) then Some (n - 0x30)
  else if (0x61 <=? n) && (n <=? 0x66) then Some (n - 0x61 + 10)
  else if (0x41 <=? n) && (n <=? 0x46) then Some (n - 0x41 + 10)
  else None.

(** The scanner inside a string literal, from after the opening quote:
    the body of the literal and what follows the closing quote. Control
    characters and escapes other than the nine of JSON are errors. *)
Fixpoint scanString (s : bytes) : option (bytes * bytes) :=
  match s with
  | [] => None
  | c :: t =>
      if (c =? dquote)%char then Some ([], t)
      else if (c =? backslash)%char then
        match t with
        | [] => None
        | e :: t' =>
            if existsb (Ascii.eqb e) (dquote :: backslash :: bytes_of_string "/bfnrt") then
              '(body, rest) ← scanString t'; Some (c :: e :: body, rest)
            else if (e =? "u")%char then
              match t' with
              | h1 :: h2 :: h3 :: h4 :: t'' =>
                  if forallb (fun h => bool_decide (is_Some (hexValue h)))
                             [h1; h2; h3; h4]
                  then '(body, rest) ← scanString t'';
                       Some (c :: e :: h1 :: h2 :: h3 :: h4 :: body, rest)
                  else None
              | _ => None
              end
            else None
        end
      else if b2z c <? 0x20 then None
      else '(body, rest) ← scanString t; Some (c :: body, rest)
  end.

(** [getu4]: the value of a [\uXXXX] at the head of [s], or -1. *)
Definition getu4 (s : bytes) : Z :=
  match s with
  | c0 :: c1 :: h1 :: h2 :: h3 :: h4 :: _ =>
      if (c0 =? backslash)%char && (c1 =? "u")%char then
        fold_left (fun r h =>
                     match hexValue h with
                     | Some d => if r <? 0 then -1 else r * 16 + d
                     | None => -1
                     end) [h1; h2; h3; h4] 0
      else -1
  | _ => -1
  end.

(** [utf16.IsSurrogate] and [utf16.DecodeRune]. *)
Definition IsSurrogate (r : Z) : bool := (0xD800 <=? r) && (r <? 0xE000).
Definition utf16DecodeRune (r1 r2 : Z) : Z :=
  if (0xD800 <=? r1) && (r1 <? 0xDC00) && (0xDC00 <=? r2) && (r2 <? 0xE000)
  then Z.lor (Z.shiftl (r1 - 0xD800) 10) (r2 - 0xDC00) + 0x10000
  else utf8.RuneError.

(** One round of the loop of [unquoteBytes]: the bytes written for the
    character or escape at the head of [s] and its width, or [None] where
    the Go function gives up. *)
Definition unquoteStep (s : bytes) : option bytes * nat :=
  match s with
  | [] => (None, 0%nat)
  | c :: t =>
      if (c =? backslash)%char then
        match t with
        | [] => (None, 1%nat)
        | e :: _ =>
            if existsb (Ascii.eqb e) [dquote; backslash; "/"%char; "'"%char]
            then (Some [e], 2%nat)
            else if (e =? "b")%char then (Some [z2b 0x08], 2%nat)
            else if (e =? "f")%char then (Some [z2b 0x0C], 2%nat)
            else if (e =? "n")%char then (Some [z2b 0x0A], 2%nat)
            else if (e =? "r")%char then (Some [z2b 0x0D], 2%nat)
            else if (e =? "t")%char then (Some [z2b 0x09], 2%nat)
            else if (e =? "u")%char then
              let rr := getu4 s in
              if rr <? 0 then (None, 1%nat)
              else if IsSurrogate rr then
                let dec := utf16DecodeRune rr (getu4 (drop 6 s)) in
                if negb (dec =? utf8.RuneError)
                then (Some (utf8.EncodeRune dec), 12%nat)
                else (Some (utf8.EncodeRune utf8.RuneError), 6%nat)
              else (Some (utf8.EncodeRune rr), 6%nat)
            else (None, 1%nat)
        end
      else if (c =? dquote)%char || (b2z c <? 0x20) then (None, 1%nat)
      else if b2z c <? utf8.RuneSelf then (Some [c], 1%nat)
      else
        let '(rr, size) := utf8.DecodeRune s in
        (Some (utf8.EncodeRune rr), size)
  end.

(** [unquote]: the Go string a literal body stands for, coerced to
    well-formed UTF-8. *)
Definition unquote (body : bytes) : option string :=
  (fun out => string_of_bytes (concat out)) <$> mapM id (chunks unquoteStep 0 body).

Definition parseString (s : bytes) : option (string * bytes) :=
  '(body, rest) ← scanString s;
  str ← unquote body;
  Some (str, rest).

Fixpoint skipDigits (s : bytes) : bytes :=
  match s with
  | c :: t => if isDigit c then skipDigits t else s
  | [] => []
  end.

(** A number literal (an optional minus sign; a zero, or a digit from 1 to
    9 and then any digits; an optional point with digits; an optional
    exponent with an optional sign and digits): what follows it. *)
Definition scanDigits1 (s : bytes) : option bytes :=
  match s with
  | c :: t => if isDigit c then Some (skipDigits t) else None
  | [] => None
  end.

Definition scanNumber (s : bytes) : option bytes :=
  let s0 := match s with
            | c :: t => if (c =? "-")%char then t else s
            | [] => s
            end in
  s1 ← match s0 with
       | c :: t => if (c =? "0")%char then Some t else scanDigits1 s0
       | [] => None
       end;
  s2 ← match s1 with
       | c :: t => if (c =? ".")%char then scanDigits1 t else Some s1
       | [] => Some s1
       end;
  match s2 with
  | c :: t =>
      if (c =? "e")%char || (c =? "E")%char then
        match t with
        | c' :: t' =>
            if (c' =? "+")%char || (c' =? "-")%char then scanDigits1 t'
            else scanDigits1 t
        | [] => None
        end
      else Some s2
  | [] => Some s2
  end.

Definition scanLiteral (lit : string) (s : bytes) : option bytes :=
  let l := bytes_of_string lit in
  if bool_decide (take (length l) s = l) then Some (drop (length l) s) else None.

(** The value at the head of [s] (after white space) and what follows
    it. [depth] is the number of arrays and objects that are open. *)
Fixpoint parseValue (fuel : nat) (depth : Z) (s : bytes) {struct fuel}
  : option (Value * bytes) :=
  match fuel with
  | O => None
  | S fuel' =>
      match skipSpace s with
      | [] => None
      | c :: t =>
          if (c =? "{")%char then
            if maxNestingDepth <? depth + 1 then None
            else
              match skipSpace t with
              | [] => None
              | c' :: t' =>
                  if (c' =? "}")%char then Some (Object [], t')
                  else '(ms, rest) ← parseMembers fuel' (depth + 1) (c' :: t');
                       Some (Object ms, rest)
              end
          else if (c =? "[")%char then
            if maxNestingDepth <? depth + 1 then None
            else
              match skipSpace t with
              | [] => None
              | c' :: t' =>
                  if (c' =? "]")%char then Some (Array [], t')
                  else '(vs, rest) ← parseElements fuel' (depth + 1) (c' :: t');
                       Some (Array vs, rest)
              end
          else if (c =? dquote)%char then
            '(str, rest) ← parseString t; Some (String str, rest)
          else if (c =? "t")%char then
            rest ← scanLiteral "rue" t; Some (Bool true, rest)
          else if (c =? "f")%char then
            rest ← scanLiteral "alse" t; Some (Bool false, rest)
          else if (c =? "n")%char then
            rest ← scanLiteral "ull" t; Some (Null, rest)
          else if (c =? "-")%char || isDigit c then
            rest ← scanNumber (c :: t); Some (Number, rest)
          else None
      end
  end
with parseMembers (fuel : nat) (depth : Z) (s : bytes) {struct fuel}
  : option (list (string * Value) * bytes) :=
  match fuel with
  | O => None
  | S fuel' =>
      match skipSpace s with
      | [] => None
      | c :: t =>
          if (c =? dquote)%char then
            '(key, t1) ← parseString t;
            match skipSpace t1 with
            | [] => None
            | c1 :: t2 =>
                if (c1 =? ":")%char then
                  '(v, t3) ← parseValue fuel' depth t2;
                  match skipSpace t3 with
                  | [] => None
                  | c3 :: t4 =>
                      if (c3 =? ",")%char then
                        '(ms, rest) ← parseMembers fuel' depth t4;
                        Some ((key, v) :: ms, rest)
                      else if (c3 =? "}")%char then Some ([(key, v)], t4)
                      else None
                  end
                else None
            end
          else None
      end
  end
with parseElements (fuel : nat) (depth : Z) (s : bytes) {struct fuel}
  : option (list Value * bytes) :=
  match fuel with
  | O => None
  | S fuel' =>
      '(v, t1) ← parseValue fuel' depth s;
      match skipSpace t1 with
      | [] => None
      | c :: t2 =>
          if (c =? ",")%char then
            '(vs, rest) ← parseElements fuel' depth t2; Some (v :: vs, rest)
          else if (c =? "]")%char then Some ([v], t2)
          else None
      end
  end.

(** [checkValid] and the scan of the decoder: [data] is one JSON value
    with nothing but white space around it. Of two nested calls of the
    parser the inner one has a shorter input, so twice the length of the
    input is fuel enough ([parse_fuel] below: more fuel changes nothing). *)
Definition parse (data : bytes) : option Value :=
  '(v, rest) ← parseValue (S (2 * length data)) 0 data;
  match skipSpace rest with
  | [] => Some v
  | _ :: _ => None
  end.

(** [foldName]: the key of the case-insensitive match of object keys
    with field names. ASCII letters fold to upper case; of the other
    runes only U+017F and U+212A fold to an ASCII letter (S and K). *)
Definition foldRune (r : Z) : Z :=
  if r =? 0x17F then 0x53 else if r =? 0x212A then 0x4B else r.

Definition foldNameStep (s : bytes) : bytes * nat :=
  match s with
  | [] => ([], 0%nat)
  | c :: _ =>
      if b2z c <? utf8.RuneSelf then
        ([if (0x61 <=? b2z c) && (b2z c <=? 0x7A) then z2b (b2z c - 0x20) else c],
         1%nat)
      else
        let '(r, n) := utf8.DecodeRune s in (utf8.EncodeRune (foldRune r), n)
  end.

Definition foldName (key : string) : string :=
  string_of_bytes (concat (chunks foldNameStep 0 (bytes_of_string key))).

Fixpoint indexWhere (p : string -> bool) (i : nat) (fs : list fieldInfo)
  : option nat :=
  match fs with
  | [] => None
  | f :: fs' => if p (name f) then Some i else indexWhere p (S i) fs'
  end.

(** The field an object key stands for: the one of that very name, else
    the first whose name matches it without regard to case. *)
Definition findField (fs : list fieldInfo) (key : string) : option nat :=
  match indexWhere (String.eqb key) 0 fs with
  | Some i => Some i
  | None => indexWhere (fun n => String.eqb (foldName n) (foldName key)) 0 fs
  end.

(** [decodeState.object] for a struct of strings: members are stored in
    order; a [null] leaves the field as it is, a value that is not a
    string is a type error (recorded, the decoding goes on), a key that
    is no field is skipped. *)
Fixpoint object {T} `{Struct T} (ms : list (string * Value)) (v : T)
  : T * bool :=
  match ms with
  | [] => (v, true)
  | (key, val) :: ms' =>
      match findField (fields T) key with
      | None => object ms' v
      | Some i =>
          match val with
          | String s => object ms' (setField i s v)
          | Null => object ms' v
          | _ => let '(v', _) := object ms' v in (v', false)
          end
      end
  end.

(** [json.Unmarshal(data, &v)], where [v] holds the value the variable
    has before the call. *)
Definition Unmarshal {T} `{Struct T} (data : bytes) (v : T) : Result T :=
  match parse data with
  | None => Err SyntaxError
  | Some Null => Ok v
  | Some (Object ms) =>
      let '(v', ok) := object ms v in
      if ok then Ok v' else Err UnmarshalTypeError
  | Some _ => Err UnmarshalTypeError
  end.

(** *** What a string becomes on the way through [Marshal] and
    [Unmarshal] (specification)

    [Marshal] coerces a string to valid UTF-8: every byte that does not
    begin a well-formed encoding is replaced by U+FFFD (three bytes). *)
Definition coerceStep (s : bytes) : bytes * nat :=
  let '(c, size) := utf8.DecodeRune s in
  if (c =? utf8.RuneError) && (size =? 1)%nat
  then (utf8.EncodeRune utf8.RuneError, 1%nat)
  else (take size s, size).

Definition coerced (s : bytes) : bytes := concat (chunks coerceStep 0 s).

Definition toValidUTF8 (s : string) : string :=
  string_of_bytes (coerced (bytes_of_string s)).

(** The scanner passes over [a] and goes on. *)
Definition scanned (a : bytes) (r : option (bytes * bytes))
  : option (bytes * bytes) :=
  '(body, rest) ← r; Some (a ++ body, rest).

(** What one round of [appendString] writes is read back by one round of
    [unquoteBytes], and passed over by the scanner, as the coerced
    character. *)
Definition StepRoundTrip (s : bytes) : Prop :=
  (appendStringStep s).2 = (coerceStep s).2 /\
  (1 <= (appendStringStep s).2 <= length s)%nat /\
  (appendStringStep s).1 <> [] /\
  (forall rest, unquoteStep ((appendStringStep s).1 ++ rest) =
                (Some (coerceStep s).1, length (appendStringStep s).1)) /\
  (forall rest, scanString ((appendStringStep s).1 ++ rest) =
                scanned (appendStringStep s).1 (scanString rest)).

(** The members the decoder finds in what [Marshal] writes. *)
Fixpoint encodedMembers {T} `{Struct T} (i : nat) (fs : list fieldInfo) (v : T)
  : list (string * Value) :=
  match fs with
  | [] => []
  | f :: fs' =>
      if omitEmpty f && String.eqb (getField i v) EmptyString
      then encodedMembers (S i) fs' v
      else (toValidUTF8 (name f), String (toValidUTF8 (getField i v)))
           :: encodedMembers (S i) fs' v
  end.

(** All the strings a decoded value holds at its top are valid UTF-8. *)
Definition validMember (kv : string * Value) : Prop :=
  match kv.2 with
  | String s => utf8.ValidString s = true
  | _ => True
  end.

Definition validValue (v : Value) : Prop :=
  match v with
  | String s => utf8.ValidString s = true
  | Object ms => Forall validMember ms
  | _ => True
  end.

End json.

(** ** The chaincode stub (fabric-chaincode-go/shim)

    The world state is a finite map from keys to payloads. A transaction is
    a function of the world state that returns its result, the world state
    it leaves and the calls it made to the ledger, in order. The ledger is
    taken to be available: [GetState] and [PutState] fail only where the
    stub itself refuses the call. [PutState] takes effect at once, so that
    a transaction that fails after a write would be seen to have written. *)

Abbreviation WorldState := (gmap string bytes).

Inductive Call : Type :=
  | GetStateCall (key : string)
  | PutStateCall (key : string) (value : bytes).

Definition Tx (A : Type) : Type :=
  WorldState -> Result A * WorldState * list Call.

#[global] Instance Tx_ret : MRet Tx := fun A a w => (Ok a, w, []).

#[global] Instance Tx_bind : MBind Tx := fun A B f m w =>
  match m w with
  | (Ok a, w', calls) =>
      let '(r, w'', calls') := f a w' in (r, w'', calls ++ calls')
  | (Err e, w', calls) => (Err e, w', calls)
  end.

(** [return err]. *)
Definition raise {A} (e : error) : Tx A := fun w => (Err e, w, []).

(** A call of a function that has no access to the ledger. *)
Definition lift {A} (r : Result A) : Tx A := fun w => (r, w, []).

(** [x, err := m; if err != nil { return fmt.Errorf("...: %v", err) }]. *)
Definition wrapError {A} (m : Tx A) (wrap : error -> error) : Tx A := fun w =>
  match m w with
  | (Err e, w', calls) => (Err (wrap e), w', calls)
  | r => r
  end.

Definition result {A} (m : Tx A) (w : WorldState) : Result A := (m w).1.1.
Definition state {A} (m : Tx A) (w : WorldState) : WorldState := (m w).1.2.
Definition calls {A} (m : Tx A) (w : WorldState) : list Call := (m w).2.

Module shim.

Definition minUnicodeRuneValue : Z := 0.
Definition maxUnicodeRuneValue : Z := utf8.MaxRune.
Definition compositeKeyNamespace : string := String.String (z2b 0) EmptyString.

(** [string(rune)] of the one rune the stub converts, U+0000. *)
Definition string_of_rune (r : Z) : string := string_of_bytes (utf8.EncodeRune r).

(** [GetState]: the payload under [key], [None] (Go's [nil]) when there
    is none. *)
Definition GetState (key : string) : Tx (option bytes) := fun w =>
  (Ok (w !! key), w, [GetStateCall key]).

(** [PutState]: refuses the empty key. *)
Definition PutState (key : string) (value : bytes) : Tx unit := fun w =>
  if String.eqb key EmptyString then (Err KeyMustNotBeEmpty, w, [])
  else (Ok tt, <[key := value]> w, [PutStateCall key value]).

Definition validateCompositeKeyAttribute (str : string) : Result unit :=
  if negb (utf8.ValidString str) then Err (NotValidUTF8 str)
  else if existsb (fun runeValue =>
                     (runeValue =? minUnicodeRuneValue) ||
                     (runeValue =? maxUnicodeRuneValue)) (utf8.runes str)
  then Err (ForbiddenRune str)
  else Ok tt.

Fixpoint appendAttributes (ck : string) (attributes : list string)
  : Result string :=
  match attributes with
  | [] => Ok ck
  | att :: atts =>
      match validateCompositeKeyAttribute att with
      | Err e => Err e
      | Ok _ =>
          appendAttributes (ck +:+ att +:+ string_of_rune minUnicodeRuneValue) atts
      end
  end.

(** [CreateCompositeKey]: the namespace byte, the object type and each
    attribute, each followed by U+0000. *)
Definition CreateCompositeKey (objectType : string) (attributes : list string)
  : Result string :=
  match validateCompositeKeyAttribute objectType with
  | Err e => Err e
  | Ok _ =>
      appendAttributes
        (compositeKeyNamespace +:+ objectType +:+ string_of_rune minUnicodeRuneValue)
        attributes
  end.

End shim.

(** ** smartcontract.go *)

(** [Device] represents an IoT device. *)
Module Device.
Record t : Type := {
  ID : string;        (* json:"id" *)
  Owner : string;     (* json:"owner" *)
  Location : string;  (* json:"location" *)
  Status : string     (* json:"status"; e.g., active, inactive *)
}.

Definition zero : t :=
  {| ID := EmptyString; Owner := EmptyString; Location := EmptyString;
     Status := EmptyString |}.

#[global] Instance struct : json.Struct t := {|
  json.fields :=
    [ {| json.name := "id"; json.omitEmpty := false |};
      {| json.name := "owner"; json.omitEmpty := false |};
      {| json.name := "location"; json.omitEmpty := false |};
      {| json.name := "status"; json.omitEmpty := false |} ];
  json.getField i d :=
    match i with
    | 0 => ID d | 1 => Owner d | 2 => Location d | _ => Status d
    end%nat;
  json.setField i s d :=
    match i with
    | 0 => {| ID := s; Owner := Owner d; Location := Location d; Status := Status d |}
    | 1 => {| ID := ID d; Owner := s; Location := Location d; Status := Status d |}
    | 2 => {| ID := ID d; Owner := Owner d; Location := s; Status := Status d |}
    | _ => {| ID := ID d; Owner := Owner d; Location := Location d; Status := s |}
    end%nat
|}.
End Device.

(** [DataRecord] represents IoT data from a device. *)
Module DataRecord.
Record t : Type := {
  DeviceID : string;    (* json:"deviceID" *)
  Timestamp : string;   (* json:"timestamp" *)
  Data : string;        (* json:"data" *)
  Status : string;      (* json:"status"; e.g., pending, verified, rejected *)
  VerifierID : string   (* json:"verifierID,omitempty" *)
}.

Definition zero : t :=
  {| DeviceID := EmptyString; Timestamp := EmptyString; Data := EmptyString;
     Status := EmptyString; VerifierID := EmptyString |}.

Definition setStatus (s : string) (r : t) : t :=
  {| DeviceID := DeviceID r; Timestamp := Timestamp r; Data := Data r;
     Status := s; VerifierID := VerifierID r |}.

Definition setVerifierID (s : string) (r : t) : t :=
  {| DeviceID := DeviceID r; Timestamp := Timestamp r; Data := Data r;
     Status := Status r; VerifierID := s |}.

#[global] Instance struct : json.Struct t := {|
  json.fields :=
    [ {| json.name := "deviceID"; json.omitEmpty := false |};
      {| json.name := "timestamp"; json.omitEmpty := false |};
      {| json.name := "data"; json.omitEmpty := false |};
      {| json.name := "status"; json.omitEmpty := false |};
      {| json.name := "verifierID"; json.omitEmpty := true |} ];
  json.getField i r :=
    match i with
    | 0 => DeviceID r | 1 => Timestamp r | 2 => Data r | 3 => Status r
    | _ => VerifierID r
    end%nat;
  json.setField i s r :=
    match i with
    | 0 => {| DeviceID := s; Timestamp := Timestamp r; Data := Data r;
              Status := Status r; VerifierID := VerifierID r |}
    | 1 => {| DeviceID := DeviceID r; Timestamp := s; Data := Data r;
              Status := Status r; VerifierID := VerifierID r |}
    | 2 => {| DeviceID := DeviceID r; Timestamp := Timestamp r; Data := s;
              Status := Status r; VerifierID := VerifierID r |}
    | 3 => setStatus s r
    | _ => setVerifierID s r
    end%nat
|}.
End DataRecord.

(** [DeviceExists] checks if a device exists on the ledger. *)
Definition DeviceExists (deviceID : string) : Tx bool :=
  deviceJSON ← wrapError (shim.GetState deviceID) FailedToReadFromWorldState;
  mret (bool_decide (deviceJSON ≠ None)).

(** [RegisterDevice] registers a new IoT device on the ledger. *)
Definition RegisterDevice (deviceID owner location : string) : Tx unit :=
  (* Check if device already exists *)
  exists_ ← wrapError (DeviceExists deviceID) FailedToCheckDeviceExistence;
  if exists_ : bool then raise (DeviceAlreadyRegistered deviceID)
  else
    (* Create new device *)
    let device := {| Device.ID := deviceID; Device.Owner := owner;
                     Device.Location := location; Device.Status := "active" |} in
    (* Marshal device data and save to ledger *)
    deviceJSON ← lift (json.Marshal device);
    shim.PutState deviceID deviceJSON.

(** [SubmitData] allows an IoT device to submit data to the ledger. *)
Definition SubmitData (deviceID timestamp data : string) : Tx unit :=
  (* Ensure device is registered *)
  exists_ ← wrapError (DeviceExists deviceID) FailedToCheckDeviceExistence;
  if negb exists_ then raise (DeviceNotRegistered deviceID)
  else
    (* Create data record *)
    let dataRecord := {| DataRecord.DeviceID := deviceID;
                         DataRecord.Timestamp := timestamp;
                         DataRecord.Data := data;
                         DataRecord.Status := "pending";
                         DataRecord.VerifierID := EmptyString |} in
    (* Create composite key for data record *)
    dataKey ← wrapError
      (lift (shim.CreateCompositeKey "DataRecord" [deviceID; timestamp]))
      FailedToCreateCompositeKey;
    (* Marshal data record and save to ledger *)
    dataJSON ← lift (json.Marshal dataRecord);
    shim.PutState dataKey dataJSON.

(** [VerifyData] verifies a submitted data record and updates its status. *)
Definition VerifyData (deviceID timestamp verifierID : string) (isValid : bool)
  : Tx unit :=
  (* Retrieve data record from ledger *)
  dataKey ← wrapError
    (lift (shim.CreateCompositeKey "DataRecord" [deviceID; timestamp]))
    FailedToCreateCompositeKey;
  dataJSON ← wrapError (shim.GetState dataKey) FailedToGetDataRecord;
  match dataJSON with
  | None => raise (DataRecordDoesNotExist deviceID timestamp)
  | Some dataJSON =>
      (* Unmarshal data record *)
      dataRecord ← wrapError (lift (json.Unmarshal dataJSON DataRecord.zero))
                             FailedToUnmarshalDataRecord;
      (* Update verification status and verifierID *)
      let dataRecord :=
        if isValid then DataRecord.setStatus "verified" dataRecord
        else DataRecord.setStatus "rejected" dataRecord in
      let dataRecord := DataRecord.setVerifierID verifierID dataRecord in
      (* Marshal updated data record and save to ledger *)
      updatedDataJSON ← lift (json.Marshal dataRecord);
      shim.PutState dataKey updatedDataJSON
  end.

(** [GetDevice] retrieves a device by its ID. *)
Definition GetDevice (deviceID : string) : Tx Device.t :=
  deviceJSON ← wrapError (shim.GetState deviceID) FailedToReadDevice;
  match deviceJSON with
  | None => raise (DeviceDoesNotExist deviceID)
  | Some deviceJSON =>
      wrapError (lift (json.Unmarshal deviceJSON Device.zero))
                FailedToUnmarshalDeviceJSON
  end.

(** [GetDataRecord] retrieves a data record by deviceID and timestamp. *)
Definition GetDataRecord (deviceID timestamp : string) : Tx DataRecord.t :=
  dataKey ← wrapError
    (lift (shim.CreateCompositeKey "DataRecord" [deviceID; timestamp]))
    FailedToCreateCompositeKey;
  dataJSON ← wrapError (shim.GetState dataKey) FailedToGetDataRecord;
  match dataJSON with
  | None => raise DataRecordNotFound
  | Some dataJSON =>
      wrapError (lift (json.Unmarshal dataJSON DataRecord.zero))
                FailedToUnmarshalDataRecord
  end.

(** ** Specification-level definitions *)

(** The error taxonomy of the specification, and the kind of each error
    the chaincode returns. What the stub and [json.Marshal] report is
    passed on as it is, or wrapped, and counts as a ledger error. *)
Module ErrorKind.
Inductive t : Type :=
  | AlreadyExists
  | NotFound
  | DeviceNotRegistered
  | DeserializationError
  | LedgerIOError.
End ErrorKind.

Definition errorKind (e : error) : ErrorKind.t :=
  match e with
  | DeviceAlreadyRegistered _ => ErrorKind.AlreadyExists
  | DeviceNotRegistered _ => ErrorKind.DeviceNotRegistered
  | DataRecordDoesNotExist _ _ | DeviceDoesNotExist _ | DataRecordNotFound =>
      ErrorKind.NotFound
  | FailedToUnmarshalDataRecord _ | FailedToUnmarshalDeviceJSON _ =>
      ErrorKind.DeserializationError
  | _ => ErrorKind.LedgerIOError
  end.

(** The six transactions a client can invoke, and what they return. *)
Inductive Invocation : Type :=
  | InvokeRegisterDevice (deviceID owner location : string)
  | InvokeDeviceExists (deviceID : string)
  | InvokeSubmitData (deviceID timestamp data : string)
  | InvokeVerifyData (deviceID timestamp verifierID : string) (isValid : bool)
  | InvokeGetDevice (deviceID : string)
  | InvokeGetDataRecord (deviceID timestamp : string).

Inductive Response : Type :=
  | NoValue
  | BoolValue (b : bool)
  | DeviceValue (d : Device.t)
  | DataRecordValue (r : DataRecord.t).

Definition perform (i : Invocation) : Tx Response :=
  match i with
  | InvokeRegisterDevice deviceID owner location =>
      _ ← RegisterDevice deviceID owner location; mret NoValue
  | InvokeDeviceExists deviceID =>
      b ← DeviceExists deviceID; mret (BoolValue b)
  | InvokeSubmitData deviceID timestamp data =>
      _ ← SubmitData deviceID timestamp data; mret NoValue
  | InvokeVerifyData deviceID timestamp verifierID isValid =>
      _ ← VerifyData deviceID timestamp verifierID isValid; mret NoValue
  | InvokeGetDevice deviceID =>
      d ← GetDevice deviceID; mret (DeviceValue d)
  | InvokeGetDataRecord deviceID timestamp =>
      r ← GetDataRecord deviceID timestamp; mret (DataRecordValue r)
  end.

(** The world state after an invocation, and after a sequence of them. *)
Definition invoke (w : WorldState) (i : Invocation) : WorldState :=
  state (perform i) w.

Definition run (invs : list Invocation) (w : WorldState) : WorldState :=
  fold_left invoke invs w.

Definition reachable (w : WorldState) : Prop :=
  exists invs, w = run invs ∅.

(** A device is registered when its key holds a value ([DeviceExists]). *)
Definition registered (w : WorldState) (deviceID : string) : Prop :=
  is_Some (w !! deviceID).

Definition isGetState (c : Call) : bool :=
  match c with GetStateCall _ => true | PutStateCall _ _ => false end.

Definition isPutState (c : Call) : bool := negb (isGetState c).

(** The bytes [json.Marshal] returns, and the values the transactions
    marshal. *)
Definition marshalled {T} `{json.Struct T} (v : T) : bytes :=
  json.encodeFields "{"%char 0 (json.fields T) v.

Definition newDevice (deviceID owner location : string) : Device.t :=
  {| Device.ID := deviceID; Device.Owner := owner;
     Device.Location := location; Device.Status := "active" |}.

Definition newDataRecord (deviceID timestamp data : string) : DataRecord.t :=
  {| DataRecord.DeviceID := deviceID; DataRecord.Timestamp := timestamp;
     DataRecord.Data := data; DataRecord.Status := "pending";
     DataRecord.VerifierID := EmptyString |}.

Definition verdict (verifierID : string) (isValid : bool) (r : DataRecord.t)
  : DataRecord.t :=
  DataRecord.setVerifierID verifierID
    (DataRecord.setStatus (if isValid then "verified" else "rejected") r).

(** The structs with every field coerced to valid UTF-8. *)
Definition coerceDevice (d : Device.t) : Device.t :=
  {| Device.ID := json.toValidUTF8 (Device.ID d);
     Device.Owner := json.toValidUTF8 (Device.Owner d);
     Device.Location := json.toValidUTF8 (Device.Location d);
     Device.Status := json.toValidUTF8 (Device.Status d) |}.

Definition coerceDataRecord (r : DataRecord.t) : DataRecord.t :=
  {| DataRecord.DeviceID := json.toValidUTF8 (DataRecord.DeviceID r);
     DataRecord.Timestamp := json.toValidUTF8 (DataRecord.Timestamp r);
     DataRecord.Data := json.toValidUTF8 (DataRecord.Data r);
     DataRecord.Status := json.toValidUTF8 (DataRecord.Status r);
     DataRecord.VerifierID := json.toValidUTF8 (DataRecord.VerifierID r) |}.

Definition validDevice (d : Device.t) : Prop :=
  utf8.ValidString (Device.ID d) = true /\
  utf8.ValidString (Device.Owner d) = true /\
  utf8.ValidString (Device.Location d) = true /\
  utf8.ValidString (Device.Status d) = true.

Definition validDataRecord (r : DataRecord.t) : Prop :=
  utf8.ValidString (DataRecord.DeviceID r) = true /\
  utf8.ValidString (DataRecord.Timestamp r) = true /\
  utf8.ValidString (DataRecord.Data r) = true /\
  utf8.ValidString (DataRecord.Status r) = true /\
  utf8.ValidString (DataRecord.VerifierID r) = true.

(** The key of the data record of a device at a time. *)
Definition dataKey (deviceID timestamp : string) : Result string :=
  shim.CreateCompositeKey "DataRecord" [deviceID; timestamp].

(** The same key written out: the namespace byte U+0000, the object type
    and the two attributes, each followed by U+0000. *)
Definition NUL : ascii := z2b 0.

Definition keyOf (deviceID timestamp : string) : string :=
  String.String NUL ("DataRecord" +:+
    String.String NUL (deviceID +:+ String.String NUL (timestamp +:+
      String.String NUL EmptyString))).

(** The terminal states of a data record. *)
Definition terminal (r : DataRecord.t) : Prop :=
  DataRecord.Status r = "verified" \/ DataRecord.Status r = "rejected".

(** No invocation of the sequence, run from [w], is a [SubmitData] for the
    pair [(deviceID, timestamp)] that succeeds. *)
Fixpoint notResubmitted (deviceID timestamp : string) (invs : list Invocation)
    (w : WorldState) : Prop :=
  match invs with
  | [] => True
  | i :: invs' =>
      (forall data, i = InvokeSubmitData deviceID timestamp data ->
                    result (SubmitData deviceID timestamp data) w <> Ok tt) /\
      notResubmitted deviceID timestamp invs' (invoke w i)
  end.

(** A key that does not begin with the namespace byte of composite keys,
    and a sequence of invocations that registers devices under such keys
    only. *)
Definition plainKey (key : string) : Prop :=
  match key with
  | String.String c _ => c <> NUL
  | EmptyString => True
  end.

Definition registersPlainKeys (invs : list Invocation) : Prop :=
  forall deviceID owner location,
    In (InvokeRegisterDevice deviceID owner location) invs -> plainKey deviceID.

(** Every value under a composite key is a record of a registered device
    and of the pair the key is made of. *)
Definition recordsRefer (w : WorldState) : Prop :=
  forall k raw, w !! k = Some raw -> ~ plainKey k ->
    exists deviceID timestamp r,
      dataKey deviceID timestamp = Ok k /\
      json.Unmarshal raw DataRecord.zero = Ok r /\
      DataRecord.DeviceID r = deviceID /\
      DataRecord.Timestamp r = timestamp /\
      registered w deviceID.

(** A string with a byte that is no UTF-8 at all, for the examples. *)
Definition xFF : string := String.String (z2b 0xFF) EmptyString.

(** ** Definitions for the further properties *)

(** The invocations that only read: [DeviceExists], [GetDevice] and
    [GetDataRecord]. *)
Definition isQuery (i : Invocation) : bool :=
  match i with
  | InvokeDeviceExists _ | InvokeGetDevice _ | InvokeGetDataRecord _ _ => true
  | _ => false
  end.

(** The status and the verifier of a record as [SubmitData] and
    [VerifyData] write them: pending with no verifier, or terminal. *)
Definition wellFormedStatus (r : DataRecord.t) : Prop :=
  DataRecord.Status r = "pending" /\ DataRecord.VerifierID r = EmptyString \/
  terminal r.

(** Every value under a composite key reads as a record of such a status. *)
Definition recordsWellFormed (w : WorldState) : Prop :=
  forall k raw, w !! k = Some raw -> ~ plainKey k ->
    exists r, json.Unmarshal raw DataRecord.zero = Ok r /\ wellFormedStatus r.

(** Every value under a plain key is the device [RegisterDevice] wrote
    for that key. *)
Definition devicesWellFormed (w : WorldState) : Prop :=
  forall k raw, w !! k = Some raw -> plainKey k ->
    exists owner location, raw = marshalled (newDevice k owner location).

(** * Proofs *)

(** ** Bytes and loops *)

Lemma b2z_range (c : ascii) : 0 <= b2z c < 256.
Proof.
  unfold b2z. pose proof (N_ascii_bounded c). lia.
Qed.

Lemma z2b_b2z (c : ascii) : z2b (b2z c) = c.
Proof.
  unfold z2b. pose proof (b2z_range c) as Hc.
  change 0xFF with (Z.ones 8). rewrite Z.land_ones by lia.
  rewrite Z.mod_small by (change (2 ^ 8) with 256; lia).
  unfold b2z. rewrite N2Z.id. apply ascii_N_embedding.
Qed.

Lemma b2z_z2b (z : Z) : 0 <= z < 256 -> b2z (z2b z) = z.
Proof.
  intros Hz. unfold z2b, b2z.
  change 0xFF with (Z.ones 8). rewrite Z.land_ones by lia.
  rewrite Z.mod_small by (change (2 ^ 8) with 256; lia).
  rewrite N_ascii_embedding by lia. lia.
Qed.

Lemma z2b_eq (z : Z) (c : ascii) : z = b2z c -> z2b z = c.
Proof. intros ->. apply z2b_b2z. Qed.

Lemma lor_shiftl_add (a n b : Z) :
  0 <= n -> 0 <= b < 2 ^ n -> Z.lor (Z.shiftl a n) b = a * 2 ^ n + b.
Proof.
  intros Hn Hb. rewrite <- Z.shiftl_mul_pow2 by lia.
  symmetry. apply Z.add_nocarry_lor.
  apply Z.bits_inj'. intros i Hi. rewrite Z.land_spec, Z.bits_0.
  destruct (Z.lt_ge_cases i n).
  - rewrite Z.shiftl_spec_low by lia. done.
  - rewrite <- (Z.mod_small b (2 ^ n)) by lia.
    rewrite Z.mod_pow2_bits_high by lia. apply andb_false_r.
Qed.

Lemma chunks_skip {A} (step : bytes -> A * nat) k s :
  chunks step k s = chunks step 0 (drop k s).
Proof.
  revert k. induction s as [|c s IH]; intros [|k]; simpl; done.
Qed.

Lemma chunks_cons {A} (step : bytes -> A * nat) c s :
  chunks step 0 (c :: s) =
  (step (c :: s)).1 :: chunks step 0 (drop (Nat.pred (step (c :: s)).2) s).
Proof.
  simpl. destruct (step (c :: s)) as [a n]. simpl. by rewrite chunks_skip.
Qed.

Lemma chunks_app_step {A} (step : bytes -> A * nat) (a rest : bytes) x :
  a <> [] -> step (a ++ rest) = (x, length a) ->
  chunks step 0 (a ++ rest) = x :: chunks step 0 rest.
Proof.
  intros Ha Hstep. destruct a as [|c a]; [done|].
  simpl app in *. rewrite chunks_cons, Hstep. simpl.
  by rewrite drop_app_length.
Qed.


(** ** unicode/utf8 *)

Module utf8_facts.
Import utf8.

Ltac zcases :=
  repeat match goal with
  | |- context [ (?a <? ?b) ] => destruct (Z.ltb_spec a b)
  | |- context [ (?a =? ?b) ] => destruct (Z.eqb_spec a b)
  | |- context [ (?a <=? ?b) ] => destruct (Z.leb_spec a b)
  end.

Lemma DecodeRune_ascii c0 t : b2z c0 < 0x80 -> DecodeRune (c0 :: t) = (b2z c0, 1%nat).
Proof.
  intros H. unfold DecodeRune, first.
  destruct (Z.ltb_spec (b2z c0) 0x80); [|lia]. reflexivity.
Qed.

(* first-byte classification *)
Lemma first_cases c :
  0 <= c < 256 ->
  (c < 0x80 /\ first c = as_) \/
  ((0x80 <= c < 0xC2 \/ 0xF5 <= c) /\ first c = xx) \/
  (0xC2 <= c < 0xE0 /\ first c = s1) \/
  (c = 0xE0 /\ first c = s2) \/
  ((0xE1 <= c < 0xED \/ 0xEE <= c < 0xF0) /\ first c = s3) \/
  (c = 0xED /\ first c = s4) \/
  (c = 0xF0 /\ first c = s5) \/
  (0xF1 <= c < 0xF4 /\ first c = s6) \/
  (c = 0xF4 /\ first c = s7).
Proof.
  intros Hc. unfold first. zcases; intuition lia.
Qed.

Lemma lor_add (n a b : Z) :
  0 <= n -> a mod 2 ^ n = 0 -> 0 <= b < 2 ^ n -> Z.lor a b = a + b.
Proof.
  intros Hn Ha Hb.
  assert (a = Z.shiftl (a / 2 ^ n) n) as ->.
  { rewrite Z.shiftl_mul_pow2 by lia.
    pose proof (Z.div_mod a (2 ^ n)). lia. }
  rewrite lor_shiftl_add by lia. rewrite Z.shiftl_mul_pow2 by lia. lia.
Qed.

Ltac arith := Z.to_euclidean_division_equations; lia.

Ltac unmask :=
  change maskx with (Z.ones 6); change mask2 with (Z.ones 5);
  change mask3 with (Z.ones 4); change mask4 with (Z.ones 3);
  rewrite ?Z.land_ones by lia;
  rewrite ?Z.shiftl_mul_pow2, ?Z.shiftr_div_pow2 by lia;
  change (2 ^ 3) with 8; change (2 ^ 4) with 16; change (2 ^ 5) with 32;
  change (2 ^ 6) with 64; change (2 ^ 12) with 4096;
  change (2 ^ 18) with 262144.

Lemma decode2 (a b : Z) :
  0xC0 <= a < 0xE0 -> 0x80 <= b <= 0xBF ->
  Z.lor (Z.shiftl (Z.land a mask2) 6) (Z.land b maskx) = (a - 0xC0) * 64 + (b - 0x80).
Proof.
  intros Ha Hb. unmask.
  rewrite (lor_add 6) by (change (2 ^ 6) with 64; arith). arith.
Qed.

Lemma decode3 (a b c : Z) :
  0xE0 <= a < 0xF0 -> 0x80 <= b <= 0xBF -> 0x80 <= c <= 0xBF ->
  Z.lor (Z.lor (Z.shiftl (Z.land a mask3) 12) (Z.shiftl (Z.land b maskx) 6))
        (Z.land c maskx) = (a - 0xE0) * 4096 + (b - 0x80) * 64 + (c - 0x80).
Proof.
  intros Ha Hb Hc. unmask.
  rewrite (lor_add 12 (_ * 4096)) by (change (2 ^ 12) with 4096; arith).
  rewrite (lor_add 6) by (change (2 ^ 6) with 64; arith). arith.
Qed.

Lemma decode4 (a b c d : Z) :
  0xF0 <= a < 0xF8 -> 0x80 <= b <= 0xBF -> 0x80 <= c <= 0xBF ->
  0x80 <= d <= 0xBF ->
  Z.lor (Z.lor (Z.lor (Z.shiftl (Z.land a mask4) 18)
                      (Z.shiftl (Z.land b maskx) 12))
               (Z.shiftl (Z.land c maskx) 6))
        (Z.land d maskx) =
  (a - 0xF0) * 262144 + (b - 0x80) * 4096 + (c - 0x80) * 64 + (d - 0x80).
Proof.
  intros Ha Hb Hc Hd. unmask.
  rewrite (lor_add 18 (_ * 262144)) by (change (2 ^ 18) with 262144; arith).
  rewrite (lor_add 12 (_ + _)) by (change (2 ^ 12) with 4096; arith).
  rewrite (lor_add 6) by (change (2 ^ 6) with 64; arith). arith.
Qed.


Ltac zcases_all :=
  repeat match goal with
  | |- context [ (?a <? ?b) ] => destruct (Z.ltb_spec a b)
  | |- context [ (?a =? ?b) ] => destruct (Z.eqb_spec a b)
  | |- context [ (?a <=? ?b) ] => destruct (Z.leb_spec a b)
  | H : context [ (?a <? ?b) ] |- _ => destruct (Z.ltb_spec a b)
  | H : context [ (?a =? ?b) ] |- _ => destruct (Z.eqb_spec a b)
  | H : context [ (?a <=? ?b) ] |- _ => destruct (Z.leb_spec a b)
  end.

(* unfold DecodeRune at a first byte whose class is known *)
Ltac decode_first c0 :=
  let Hr := fresh "Hr" in let Hf := fresh "Hf" in
  destruct (first_cases (b2z c0) (b2z_range c0))
    as [[Hr Hf]|[[Hr Hf]|[[Hr Hf]|[[Hr Hf]|[[Hr Hf]|[[Hr Hf]|[[Hr Hf]|[[Hr Hf]|[Hr Hf]]]]]]]]];
  unfold DecodeRune; rewrite Hf; cbv zeta;
  cbv [as_ xx s1 s2 s3 s4 s5 s6 s7];
  match goal with
  | |- context [ Z.leb ?a ?b ] =>
      let v := eval vm_compute in (Z.leb a b) in change (Z.leb a b) with v
  end;
  cbv iota;
  repeat match goal with
  | |- context [ Z.to_nat (Z.land ?x 7) ] =>
      let v := eval vm_compute in (Z.to_nat (Z.land x 7)) in
      change (Z.to_nat (Z.land x 7)) with v
  | |- context [ acceptRanges (Z.shiftr ?x 4) ] =>
      let v := eval vm_compute in (acceptRanges (Z.shiftr x 4)) in
      change (acceptRanges (Z.shiftr x 4)) with v
  | |- context [ Z.eqb ?a ?b ] =>
      let v := eval vm_compute in (Z.eqb a b) in change (Z.eqb a b) with v
  end;
  cbn [fst snd length Nat.ltb Nat.leb].

Lemma Encoding_decode w c rest :
  Encoding w c -> DecodeRune (w ++ rest) = (c, length w).
Proof.
  destruct 1 as [c0 H0|c0 c1 H0 H1|c0 c1 c2 H0 H1 H2|c0 c1 c2 c3 H0 H1 H2 H3];
    simpl app.
  - by apply DecodeRune_ascii.
  - decode_first c0; try lia.
    unfold locb, hicb. zcases_all; try lia. simpl. f_equal. apply decode2; lia.
  - unfold secondLo, secondHi in H1.
    decode_first c0; try lia; unfold locb, hicb; zcases_all; try lia; simpl;
      f_equal; apply decode3; lia.
  - unfold secondLo, secondHi in H1.
    decode_first c0; try lia; unfold locb, hicb; zcases_all; try lia; simpl;
      f_equal; apply decode4; lia.
Qed.

Lemma DecodeRune_cases c0 r0 :
  DecodeRune (c0 :: r0) = (RuneError, 1%nat) \/
  exists w rest c,
    c0 :: r0 = w ++ rest /\ Encoding w c /\ DecodeRune (c0 :: r0) = (c, length w).
Proof.
  cut (forall res, DecodeRune (c0 :: r0) = res ->
         res = (RuneError, 1%nat) \/
         exists w rest c, c0 :: r0 = w ++ rest /\ Encoding w c /\ res = (c, length w)).
  { intros H. destruct (H _ eq_refl) as [->|(w & rest & c & ? & ? & ->)]; eauto 10. }
  intros res.
  decode_first c0.
  - intros <-. right. exists [c0], r0, (b2z c0). split; [done|].
    split; [by constructor|done].
  - intros <-. by left.
  - destruct r0 as [|c1 r1]; cbn [length Nat.ltb Nat.leb]; [intros <-; by left|].
    unfold locb, hicb. zcases_all; simpl; intros <-; try (by left).
    right. exists [c0; c1], r1. eexists. split; [done|].
    split; [apply Encoding2; lia|]. simpl. f_equal. apply decode2; lia.
  - destruct r0 as [|c1 [|c2 r2]]; cbn [length Nat.ltb Nat.leb];
      try (intros <-; by left).
    unfold locb, hicb. zcases_all; simpl; intros <-; try (by left).
    right. exists [c0; c1; c2], r2. eexists. split; [done|].
    split; [apply Encoding3; unfold secondLo, secondHi; zcases_all; lia|].
    simpl. f_equal. apply decode3; lia.
  - destruct r0 as [|c1 [|c2 r2]]; cbn [length Nat.ltb Nat.leb];
      try (intros <-; by left).
    unfold locb, hicb. zcases_all; simpl; intros <-; try (by left).
    all: right; exists [c0; c1; c2], r2; eexists; (split; [done|]);
      (split; [apply Encoding3; unfold secondLo, secondHi; zcases_all; lia|]);
      simpl; f_equal; apply decode3; lia.
  - destruct r0 as [|c1 [|c2 r2]]; cbn [length Nat.ltb Nat.leb];
      try (intros <-; by left).
    unfold locb, hicb. zcases_all; simpl; intros <-; try (by left).
    right. exists [c0; c1; c2], r2. eexists. split; [done|].
    split; [apply Encoding3; unfold secondLo, secondHi; zcases_all; lia|].
    simpl. f_equal. apply decode3; lia.
  - destruct r0 as [|c1 [|c2 [|c3 r3]]]; cbn [length Nat.ltb Nat.leb];
      try (intros <-; by left).
    unfold locb, hicb. zcases_all; simpl; intros <-; try (by left).
    right. exists [c0; c1; c2; c3], r3. eexists. split; [done|].
    split; [apply Encoding4; unfold secondLo, secondHi; zcases_all; lia|].
    simpl. f_equal. apply decode4; lia.
  - destruct r0 as [|c1 [|c2 [|c3 r3]]]; cbn [length Nat.ltb Nat.leb];
      try (intros <-; by left).
    unfold locb, hicb. zcases_all; simpl; intros <-; try (by left).
    right. exists [c0; c1; c2; c3], r3. eexists. split; [done|].
    split; [apply Encoding4; unfold secondLo, secondHi; zcases_all; lia|].
    simpl. f_equal. apply decode4; lia.
  - destruct r0 as [|c1 [|c2 [|c3 r3]]]; cbn [length Nat.ltb Nat.leb];
      try (intros <-; by left).
    unfold locb, hicb. zcases_all; simpl; intros <-; try (by left).
    right. exists [c0; c1; c2; c3], r3. eexists. split; [done|].
    split; [apply Encoding4; unfold secondLo, secondHi; zcases_all; lia|].
    simpl. f_equal. apply decode4; lia.
Qed.

Lemma Encoding_range w c :
  Encoding w c ->
  0 <= c <= MaxRune /\ ~ (surrogateMin <= c <= surrogateMax) /\
  (1 <= length w <= 4)%nat /\
  ((length w = 1)%nat <-> c < RuneSelf) /\
  ((2 <= length w)%nat -> Forall (fun b => 0x80 <= b2z b) w).
Proof.
  unfold MaxRune, surrogateMin, surrogateMax, RuneSelf.
  destruct 1 as [c0 H0|c0 c1 H0 H1|c0 c1 c2 H0 H1 H2|c0 c1 c2 c3 H0 H1 H2 H3];
    unfold secondLo, secondHi in *; simpl length;
    pose proof (b2z_range c0).
  all: split; [zcases_all; lia|].
  all: split; [zcases_all; lia|].
  all: split; [lia|].
  all: split; [zcases_all; lia|].
  all: intros Hl.
  all: first [lia | repeat (apply List.Forall_cons; [simpl; zcases_all; lia|]); apply List.Forall_nil].
Qed.

Ltac lor_byte k :=
  apply z2b_eq; unfold tx, t2, t3, t4; unmask;
  rewrite (lor_add k) by
    (let p := eval vm_compute in (2 ^ k) in change (2 ^ k) with p; arith);
  arith.

Lemma Encoding_encode w c : Encoding w c -> EncodeRune c = w.
Proof.
  intros H. pose proof (Encoding_range w c H) as (Hc & Hs & _).
  unfold MaxRune, surrogateMin, surrogateMax in *.
  destruct H as [c0 H0|c0 c1 H0 H1|c0 c1 c2 H0 H1 H2|c0 c1 c2 c3 H0 H1 H2 H3];
    unfold secondLo, secondHi in *; unfold EncodeRune, encode3;
    unfold rune1Max, rune2Max, rune3Max, MaxRune, surrogateMin, surrogateMax.
  - destruct (Z.leb_spec (b2z c0) 127); [|lia]. by rewrite z2b_b2z.
  - zcases_all; try lia. f_equal; [lor_byte 6|f_equal; lor_byte 7].
  - zcases_all; try lia; simpl orb; cbv iota.
    all: f_equal; [lor_byte 5|f_equal; [lor_byte 7|f_equal; lor_byte 7]].
  - zcases_all; try lia; simpl orb; cbv iota.
    all: f_equal; [lor_byte 4|f_equal; [lor_byte 7|f_equal; [lor_byte 7|f_equal; lor_byte 7]]].
Qed.

End utf8_facts.

(** ** encoding/json *)

Module json_facts.
Import utf8 json utf8_facts.

Lemma StepRoundTrip_ascii b t : b2z b < 0x80 -> StepRoundTrip (b :: t).
Proof.
  intros Hb. unfold StepRoundTrip.
  destruct b as [[] [] [] [] [] [] [] []];
    try (exfalso; vm_compute in Hb; discriminate Hb).
  all: split; [reflexivity|]; split; [simpl; lia|]; split; [discriminate|].
  all: split; intros rest; [reflexivity|].
  all: cbn -[scanString]; unfold scanned; simpl; by destruct (scanString rest) as [[??]|].
Qed.

Lemma Encoding_not_invalid w c :
  Encoding w c -> (c =? RuneError) && (length w =? 1)%nat = false.
Proof.
  intros H. apply Encoding_range in H as (_ & _ & _ & Hl & _).
  unfold RuneError, RuneSelf in *.
  destruct (Z.eqb_spec c 65533); [|done].
  destruct (Nat.eqb_spec (length w) 1); [|done]. lia.
Qed.

Lemma DecodeRune_take4 s : DecodeRune (take UTFMax s) = DecodeRune s.
Proof.
  destruct s as [|c0 r0]; [done|].
  destruct (DecodeRune_cases c0 r0) as [Hinv|(w & rest & c & Hs & Henc & Hdec)].
  - rewrite Hinv. change (take UTFMax (c0 :: r0)) with (c0 :: take 3 r0).
    destruct (DecodeRune_cases c0 (take 3 r0))
      as [Hinv'|(w & rest & c & Hs & Henc & Hdec)]; [done|].
    exfalso.
    assert (c0 :: r0 = w ++ (rest ++ drop 3 r0)) as Hs'.
    { rewrite app_assoc, <- Hs. simpl. by rewrite take_drop. }
    rewrite Hs', (Encoding_decode _ _ _ Henc) in Hinv.
    pose proof (Encoding_not_invalid _ _ Henc) as Hn.
    injection Hinv as Hc Hl. rewrite Hc, Hl in Hn. done.
  - rewrite Hdec, Hs.
    pose proof (Encoding_range _ _ Henc) as (_ & _ & Hl & _).
    unfold UTFMax. rewrite take_app_ge by lia. by apply Encoding_decode.
Qed.

Lemma high_byte_tests c :
  0x80 <= b2z c ->
  (c =? dquote)%char = false /\ (c =? backslash)%char = false /\
  (b2z c <? 0x20) = false /\ (b2z c <? RuneSelf) = false.
Proof.
  intros Hc. unfold RuneSelf. repeat split; try (apply Z.ltb_ge; lia).
  all: apply Ascii.eqb_neq; intros ->; vm_compute in Hc; by apply Hc.
Qed.

Lemma scanString_high a r :
  Forall (fun b => 0x80 <= b2z b) a -> scanString (a ++ r) = scanned a (scanString r).
Proof.
  induction 1 as [|c a Hc Ha IH]; simpl app.
  - unfold scanned. by destruct (scanString r) as [[??]|].
  - destruct (high_byte_tests c Hc) as (H1 & H2 & H3 & _).
    cbn [scanString]. rewrite H1, H2, H3, IH.
    unfold scanned. by destruct (scanString r) as [[??]|].
Qed.

Lemma StepRoundTrip_multi b t : 0x80 <= b2z b -> StepRoundTrip (b :: t).
Proof.
  intros Hb. destruct (high_byte_tests b Hb) as (H1 & H2 & H3 & H4).
  unfold StepRoundTrip, appendStringStep, coerceStep.
  rewrite H4, DecodeRune_take4.
  destruct (DecodeRune_cases b t) as [Hinv|(w & rest & c & Hs & Henc & Hdec)].
  - rewrite Hinv. cbn [Z.eqb RuneError Pos.eqb Nat.eqb andb fst snd].
    split; [done|]. split; [simpl; lia|]. split; [done|].
    split; intros r; [reflexivity|].
    cbn -[scanString]. unfold scanned. simpl.
    by destruct (scanString r) as [[??]|].
  - rewrite Hdec, Hs, (Encoding_not_invalid _ _ Henc), take_app_length.
    pose proof (Encoding_range _ _ Henc) as (Hc & _ & Hl & Hl1 & Hhigh).
    pose proof (Encoding_encode _ _ Henc) as Hw.
    assert (2 <= length w)%nat as Hl2.
    { destruct w as [|b' [|? w']]; simpl in *; try lia.
      injection Hs as <- _. inversion Henc; subst. unfold RuneSelf in *. lia. }
    assert (length (w ++ rest) >= length w)%nat by (rewrite length_app; lia).
    destruct (Z.eqb_spec c 0x2028) as [->|Hn1];
      [|destruct (Z.eqb_spec c 0x2029) as [->|Hn2]]; cbn [orb fst snd].
    + split; [done|]. split; [lia|]. split; [done|].
      split; intros r; [by rewrite <- Hw|].
      cbn -[scanString]. unfold scanned. simpl.
      by destruct (scanString r) as [[??]|].
    + split; [done|]. split; [lia|]. split; [done|].
      split; intros r; [by rewrite <- Hw|].
      cbn -[scanString]. unfold scanned. simpl.
      by destruct (scanString r) as [[??]|].
    + split; [done|]. split; [lia|]. split; [destruct w; [simpl in Hl2; lia|done]|].
      split; intros r; [|by apply scanString_high, Hhigh].
      destruct w as [|b' w']; [simpl in *; lia|]. injection Hs as <- Hs.
      change ((b :: w') ++ r) with (b :: (w' ++ r)).
      unfold unquoteStep. rewrite H2, H1, H3, H4. cbn [orb].
      change (b :: (w' ++ r)) with ((b :: w') ++ r).
      by rewrite (Encoding_decode _ _ _ Henc), Hw.
Qed.

Lemma StepRoundTrip_all b t : StepRoundTrip (b :: t).
Proof.
  destruct (Z.lt_ge_cases (b2z b) 0x80);
    [by apply StepRoundTrip_ascii|by apply StepRoundTrip_multi].
Qed.

Lemma suffix_ind (P : bytes -> Prop) :
  P [] -> (forall b t, (forall k, P (drop k t)) -> P (b :: t)) -> forall s, P s.
Proof.
  intros Hnil Hcons s.
  cut (forall k, P (drop k s)); [intros H; apply (H 0%nat)|].
  induction s as [|b t IH]; intros k.
  - by rewrite drop_nil.
  - destruct k as [|k]; [|apply IH]. apply Hcons, IH.
Qed.

Lemma quoted_cons b t :
  quoted (b :: t) =
  (appendStringStep (b :: t)).1 ++
  quoted (drop (Nat.pred (appendStringStep (b :: t)).2) t).
Proof. unfold quoted. by rewrite chunks_cons. Qed.

Lemma coerced_cons b t :
  coerced (b :: t) =
  (coerceStep (b :: t)).1 ++ coerced (drop (Nat.pred (coerceStep (b :: t)).2) t).
Proof. unfold coerced. by rewrite chunks_cons. Qed.

Lemma scanString_quoted s rest :
  scanString (quoted s ++ dquote :: rest) = Some (quoted s, rest).
Proof.
  induction s as [|b t IH] using suffix_ind; [done|].
  destruct (StepRoundTrip_all b t) as (_ & _ & _ & _ & Hscan).
  rewrite quoted_cons, <- app_assoc, Hscan, IH. done.
Qed.

Lemma unquoteStep_quoted s :
  chunks unquoteStep 0 (quoted s) = map Some (chunks coerceStep 0 s).
Proof.
  induction s as [|b t IH] using suffix_ind; [done|].
  destruct (StepRoundTrip_all b t) as (Hn & _ & Hne & Hunq & _).
  rewrite quoted_cons, (chunks_app_step _ _ _ _ Hne (Hunq _)), IH.
  rewrite (chunks_cons coerceStep), Hn. done.
Qed.

Lemma mapM_id_Some {A} (l : list A) : mapM id (map Some l) = Some l.
Proof. induction l as [|x l IH]; [done|]. simpl. by rewrite IH. Qed.

Lemma unquote_quoted s : unquote (quoted s) = Some (string_of_bytes (coerced s)).
Proof. unfold unquote. by rewrite unquoteStep_quoted, mapM_id_Some. Qed.

Lemma parseString_appendString src rest :
  parseString (quoted (bytes_of_string src) ++ dquote :: rest) =
  Some (toValidUTF8 src, rest).
Proof.
  unfold parseString. rewrite scanString_quoted. simpl.
  by rewrite unquote_quoted.
Qed.

Lemma coerced_valid s :
  forallb negb (chunks (fun r => (invalidAt r, (DecodeRune r).2)) 0 s) = true ->
  coerced s = s.
Proof.
  induction s as [|b t IH] using suffix_ind; [done|].
  rewrite chunks_cons, coerced_cons. cbn [fst snd forallb].
  unfold coerceStep, invalidAt.
  destruct (DecodeRune_cases b t) as [Hinv|(w & rest & c & Hs & Henc & Hdec)].
  - rewrite Hinv. done.
  - rewrite Hdec, (Encoding_not_invalid _ _ Henc). cbn [negb andb fst snd].
    intros Hv. rewrite (IH _ Hv).
    pose proof (Encoding_range _ _ Henc) as (_ & _ & Hl & _).
    change (drop (Nat.pred (length w)) t) with (drop (S (Nat.pred (length w))) (b :: t)).
    replace (S (Nat.pred (length w))) with (length w) by lia.
    apply take_drop.
Qed.

Lemma toValidUTF8_valid s : ValidString s = true -> toValidUTF8 s = s.
Proof.
  intros Hv. unfold toValidUTF8.
  rewrite coerced_valid by done.
  apply string_of_list_ascii_of_string.
Qed.

Ltac pstep :=
  repeat (
    cbn -[parseString quoted toValidUTF8 appendString encodeFields isSpace];
    repeat match goal with
    | |- context [ isSpace ?c ] =>
        let v := eval vm_compute in (isSpace c) in
        progress change (isSpace c) with v
    end).

Lemma appendString_app src rest :
  appendString src ++ rest = dquote :: quoted (bytes_of_string src) ++ dquote :: rest.
Proof. unfold appendString, quoted. simpl. by rewrite <- app_assoc. Qed.

Lemma parseValue_appendString fuel depth src rest :
  parseValue (S fuel) depth (appendString src ++ rest) =
  Some (String (toValidUTF8 src), rest).
Proof.
  rewrite appendString_app. pstep.
  by rewrite parseString_appendString.
Qed.

Section members.
Context {T : Type} `{Struct T}.

Lemma parseMembers_encodeFields (v : T) depth fs : forall i fuel key val rest,
  (length (encodedMembers i fs v) < fuel)%nat ->
  parseMembers (S fuel) depth
    (appendString key ++ ":"%char :: appendString val ++
     encodeFields ","%char i fs v ++ rest) =
  Some ((toValidUTF8 key, String (toValidUTF8 val)) :: encodedMembers i fs v, rest).
Proof.
  induction fs as [|f fs IH]; intros i fuel key val rest Hfuel.
  - destruct fuel as [|fuel]; [simpl in Hfuel; lia|].
    rewrite !appendString_app. pstep.
    rewrite parseString_appendString. pstep.
    rewrite parseString_appendString. by pstep.
  - cbn [encodeFields encodedMembers] in *.
    destruct (omitEmpty f && String.eqb (getField i v) EmptyString);
      [by apply IH|].
    destruct fuel as [|fuel]; [simpl in Hfuel; lia|].
    specialize (IH (S i) fuel (name f) (getField i v) rest).
    remember (S fuel) as fuel' eqn:Hf.
    rewrite (appendString_app key). pstep.
    rewrite parseString_appendString. pstep.
    subst fuel'. rewrite <- ?app_assoc, <- ?app_comm_cons, <- ?app_assoc.
    rewrite parseValue_appendString.
    remember (S fuel) as fuel' eqn:Hf. pstep. subst fuel'.
    rewrite <- ?app_comm_cons.
    rewrite IH by (simpl in Hfuel; lia). done.
Qed.

Lemma parseValue_encodeFields (v : T) fs : forall i fuel rest,
  (length (encodedMembers i fs v) < fuel)%nat ->
  parseValue (S fuel) 0 (encodeFields "{"%char i fs v ++ rest) =
  Some (Object (encodedMembers i fs v), rest).
Proof.
  induction fs as [|f fs IH]; intros i fuel rest Hfuel; [done|].
  cbn [encodeFields encodedMembers] in *.
  destruct (omitEmpty f && String.eqb (getField i v) EmptyString);
    [by apply IH|].
  destruct fuel as [|fuel]; [simpl in Hfuel; lia|].
  pose proof (parseMembers_encodeFields v 1 fs (S i) fuel (name f)
                (getField i v) rest) as Hm.
  rewrite <- ?app_assoc, <- ?app_comm_cons, <- ?app_assoc.
  rewrite <- ?app_comm_cons.
  rewrite (appendString_app (name f)) in *.
  remember (S fuel) as fuel' eqn:Hf. pstep. subst fuel'.
  rewrite <- ?app_assoc. change (0 + 1) with 1.
  rewrite Hm by (simpl in Hfuel; lia). done.
Qed.

Lemma length_encodeFields (v : T) fs : forall next i,
  (length (encodedMembers i fs v) < length (encodeFields next i fs v))%nat.
Proof.
  induction fs as [|f fs IH]; intros next i.
  - simpl. destruct (next =? "{")%char; simpl; lia.
  - cbn [encodeFields encodedMembers].
    destruct (omitEmpty f && String.eqb (getField i v) EmptyString);
      [by apply IH|].
    simpl. rewrite !length_app. simpl. rewrite !length_app.
    specialize (IH ","%char (S i)). lia.
Qed.

Lemma parse_encodeFields (v : T) :
  parse (encodeFields "{"%char 0 (fields T) v) = Some (Object (encodedMembers 0 (fields T) v)).
Proof.
  unfold parse.
  rewrite <- (app_nil_r (encodeFields _ _ _ _)) at 2.
  rewrite parseValue_encodeFields; [done|].
  pose proof (length_encodeFields v (fields T) "{"%char 0%nat). lia.
Qed.
End members.

End json_facts.

(** ** The fuel of the parser *)

Module fuel_facts.
Import json.

Lemma skipSpace_length s : (length (skipSpace s) <= length s)%nat.
Proof.
  induction s as [|c t IH]; [done|]. simpl.
  destruct (isSpace c); simpl; lia.
Qed.

Lemma scanString_length s : forall body rest,
  scanString s = Some (body, rest) -> (length rest < length s)%nat.
Proof.
  induction s as [|c t IH] using json_facts.suffix_ind; intros body rest; [done|].
  cbn [scanString]. destruct (c =? dquote)%char.
  { intros [= _ <-]. simpl. lia. }
  destruct (c =? backslash)%char.
  - destruct t as [|e t']; [done|]. destruct (existsb _ _).
    + destruct (scanString t') as [[b r]|] eqn:Hs; [|done]. simpl.
      intros [= _ <-]. apply (IH 1%nat) in Hs. change (drop 1 (e :: t')) with t' in Hs. simpl. lia.
    + destruct (e =? "u")%char; [|done].
      destruct t' as [|h1 [|h2 [|h3 [|h4 t'']]]]; try done.
      destruct (forallb _ _); [|done].
      destruct (scanString t'') as [[b r]|] eqn:Hs; [|done]. simpl.
      intros [= _ <-]. apply (IH 5%nat) in Hs.
      change (drop 5 (e :: h1 :: h2 :: h3 :: h4 :: t'')) with t'' in Hs. simpl. lia.
  - destruct (b2z c <? 32); [done|].
    destruct (scanString t) as [[b r]|] eqn:Hs; [|done]. simpl.
    intros [= _ <-]. apply (IH 0%nat) in Hs. change (drop 0 t) with t in Hs.
    simpl. lia.
Qed.

Lemma parseString_length s str rest :
  parseString s = Some (str, rest) -> (length rest < length s)%nat.
Proof.
  unfold parseString. destruct (scanString s) as [[body rest']|] eqn:Hs; [|done].
  simpl. destruct (unquote body); [|done]. simpl. intros [= _ <-].
  by apply scanString_length in Hs.
Qed.

Lemma skipDigits_length s : (length (skipDigits s) <= length s)%nat.
Proof.
  induction s as [|c t IH]; [done|]. simpl.
  destruct (isDigit c); simpl; lia.
Qed.

Lemma scanDigits1_length s r :
  scanDigits1 s = Some r -> (length r < length s)%nat.
Proof.
  destruct s as [|c t]; [done|]. simpl. destruct (isDigit c); [|done].
  intros [= <-]. pose proof (skipDigits_length t). lia.
Qed.

Lemma scanNumber_length s r :
  scanNumber s = Some r -> (length r < length s)%nat.
Proof.
  unfold scanNumber.
  set (s0 := match s with [] => s | c :: t => if (c =? "-")%char then t else s end).
  assert (length s0 <= length s)%nat as H0.
  { subst s0. destruct s as [|c t]; [done|]. destruct (c =? "-")%char; simpl; lia. }
  destruct (match s0 with [] => None | c :: t => _ end) as [s1|] eqn:H1; [|done].
  assert (length s1 < length s0)%nat as Hl1.
  { destruct s0 as [|c t]; [done|]. destruct (c =? "0")%char.
    - injection H1 as <-. simpl. lia.
    - by apply scanDigits1_length in H1. }
  simpl.
  destruct (match s1 with [] => Some s1 | c :: t => _ end) as [s2|] eqn:H2; [|done].
  assert (length s2 <= length s1)%nat as Hl2.
  { destruct s1 as [|c t]; [by injection H2 as <-|]. destruct (c =? ".")%char.
    - apply scanDigits1_length in H2. simpl. lia.
    - by injection H2 as <-. }
  simpl. destruct s2 as [|c t]; [intros [= <-]; simpl in *; lia|].
  destruct ((c =? "e")%char || (c =? "E")%char).
  - destruct t as [|c' t']; [done|].
    destruct ((c' =? "+")%char || (c' =? "-")%char);
      intros Hr%scanDigits1_length; simpl in *; lia.
  - intros [= <-]. lia.
Qed.

Lemma parse_length fuel : forall depth s,
  (forall v rest, parseValue fuel depth s = Some (v, rest) ->
                  (length rest < length s)%nat) /\
  (forall ms rest, parseMembers fuel depth s = Some (ms, rest) ->
                   (length rest < length s)%nat) /\
  (forall vs rest, parseElements fuel depth s = Some (vs, rest) ->
                   (length rest < length s)%nat).
Proof.
  induction fuel as [|fuel IH]; intros depth s; [done|].
  pose proof (skipSpace_length s) as Hs. split; [|split].
  - intros v rest. cbn [parseValue].
    destruct (skipSpace s) as [|c t]; [done|]. simpl in Hs.
    pose proof (skipSpace_length t) as Ht.
    destruct (c =? "{")%char.
    { destruct (maxNestingDepth <? depth + 1); [done|].
      destruct (skipSpace t) as [|c' t']; [done|]. simpl in Ht.
      destruct (c' =? "}")%char; [intros [= _ <-]; lia|].
      destruct (parseMembers fuel (depth + 1) (c' :: t')) as [[ms r]|] eqn:Hm;
        [|done].
      simpl. intros [= _ <-]. apply (IH _ _) in Hm. simpl in Hm. lia. }
    destruct (c =? "[")%char.
    { destruct (maxNestingDepth <? depth + 1); [done|].
      destruct (skipSpace t) as [|c' t']; [done|]. simpl in Ht.
      destruct (c' =? "]")%char; [intros [= _ <-]; lia|].
      destruct (parseElements fuel (depth + 1) (c' :: t')) as [[vs r]|] eqn:Hm;
        [|done].
      simpl. intros [= _ <-]. apply (IH _ _) in Hm. simpl in Hm. lia. }
    destruct (c =? dquote)%char.
    { destruct (parseString t) as [[str r]|] eqn:Hp; [|done]. simpl.
      intros [= _ <-]. apply parseString_length in Hp. lia. }
    assert (forall lit r, scanLiteral lit t = Some r ->
                          (length r <= length t)%nat) as Hlit.
    { intros lit r. unfold scanLiteral. case_bool_decide; [|done].
      intros [= <-]. rewrite length_drop. lia. }
    destruct (c =? "t")%char.
    { destruct (scanLiteral _ t) as [r|] eqn:Hl; [|done]. simpl.
      intros [= _ <-]. apply Hlit in Hl. lia. }
    destruct (c =? "f")%char.
    { destruct (scanLiteral _ t) as [r|] eqn:Hl; [|done]. simpl.
      intros [= _ <-]. apply Hlit in Hl. lia. }
    destruct (c =? "n")%char.
    { destruct (scanLiteral _ t) as [r|] eqn:Hl; [|done]. simpl.
      intros [= _ <-]. apply Hlit in Hl. lia. }
    destruct ((c =? "-")%char || isDigit c) eqn:Hd; [|done].
    destruct (scanNumber (c :: t)) as [r|] eqn:Hn; [|done]. simpl.
    intros [= _ <-]. apply scanNumber_length in Hn. simpl in Hn. lia.
  - intros ms rest. cbn [parseMembers].
    destruct (skipSpace s) as [|c t]; [done|]. simpl in Hs.
    destruct (c =? dquote)%char; [|done].
    destruct (parseString t) as [[key t1]|] eqn:Hp; [|done]. simpl.
    apply parseString_length in Hp.
    pose proof (skipSpace_length t1) as Ht1.
    destruct (skipSpace t1) as [|c1 t2]; [done|]. simpl in Ht1.
    destruct (c1 =? ":")%char; [|done].
    destruct (parseValue fuel depth t2) as [[v t3]|] eqn:Hv; [|done]. simpl.
    apply (IH _ _) in Hv.
    pose proof (skipSpace_length t3) as Ht3.
    destruct (skipSpace t3) as [|c3 t4]; [done|]. simpl in Ht3.
    destruct (c3 =? ",")%char.
    + destruct (parseMembers fuel depth t4) as [[ms' r]|] eqn:Hm; [|done].
      simpl. intros [= _ <-]. apply (IH _ _) in Hm. lia.
    + destruct (c3 =? "}")%char; [|done]. intros [= _ <-]. lia.
  - intros vs rest. cbn [parseElements].
    destruct (parseValue fuel depth s) as [[v t1]|] eqn:Hv; [|done]. simpl.
    apply (IH _ _) in Hv.
    pose proof (skipSpace_length t1) as Ht1.
    destruct (skipSpace t1) as [|c t2]; [done|]. simpl in Ht1.
    destruct (c =? ",")%char.
    + destruct (parseElements fuel depth t2) as [[vs' r]|] eqn:Hm; [|done].
      simpl. intros [= _ <-]. apply (IH _ _) in Hm. lia.
    + destruct (c =? "]")%char; [|done]. intros [= _ <-]. lia.
Qed.

Lemma parse_fuel_indep fuel : forall fuel' depth s,
  ((2 * length s < fuel)%nat -> (2 * length s < fuel')%nat ->
   parseValue fuel depth s = parseValue fuel' depth s) /\
  ((2 * length s < fuel)%nat -> (2 * length s < fuel')%nat ->
   parseMembers fuel depth s = parseMembers fuel' depth s) /\
  ((2 * length s + 1 < fuel)%nat -> (2 * length s + 1 < fuel')%nat ->
   parseElements fuel depth s = parseElements fuel' depth s).
Proof.
  induction fuel as [|fuel IH]; intros [|fuel'] depth s;
    try (split; [|split]; intros; lia).
  pose proof (skipSpace_length s) as Hs. split; [|split]; intros Hf Hf'.
  - cbn [parseValue].
    destruct (skipSpace s) as [|c t]; [done|]. simpl in Hs.
    pose proof (skipSpace_length t) as Ht.
    destruct (c =? "{")%char.
    { destruct (maxNestingDepth <? depth + 1); [done|].
      destruct (skipSpace t) as [|c' t']; [done|]. simpl in Ht.
      destruct (c' =? "}")%char; [done|].
      rewrite (proj1 (proj2 (IH fuel' (depth + 1) (c' :: t'))));
        [done|simpl; lia..]. }
    destruct (c =? "[")%char.
    { destruct (maxNestingDepth <? depth + 1); [done|].
      destruct (skipSpace t) as [|c' t']; [done|]. simpl in Ht.
      destruct (c' =? "]")%char; [done|].
      rewrite (proj2 (proj2 (IH fuel' (depth + 1) (c' :: t'))));
        [done|simpl; lia..]. }
    done.
  - cbn [parseMembers].
    destruct (skipSpace s) as [|c t]; [done|]. simpl in Hs.
    destruct (c =? dquote)%char; [|done].
    destruct (parseString t) as [[key t1]|] eqn:Hp; [|done]. simpl.
    apply parseString_length in Hp.
    pose proof (skipSpace_length t1) as Ht1.
    destruct (skipSpace t1) as [|c1 t2]; [done|]. simpl in Ht1.
    destruct (c1 =? ":")%char; [|done].
    rewrite (proj1 (IH fuel' depth t2)) by lia.
    destruct (parseValue fuel' depth t2) as [[v t3]|] eqn:Hv; [|done]. simpl.
    apply (parse_length _ _ _) in Hv.
    pose proof (skipSpace_length t3) as Ht3.
    destruct (skipSpace t3) as [|c3 t4]; [done|]. simpl in Ht3.
    destruct (c3 =? ",")%char; [|done].
    by rewrite (proj1 (proj2 (IH fuel' depth t4))) by lia.
  - cbn [parseElements].
    rewrite (proj1 (IH fuel' depth s)) by lia.
    destruct (parseValue fuel' depth s) as [[v t1]|] eqn:Hv; [|done]. simpl.
    apply (parse_length _ _ _) in Hv.
    pose proof (skipSpace_length t1) as Ht1.
    destruct (skipSpace t1) as [|c t2]; [done|]. simpl in Ht1.
    destruct (c =? ",")%char; [|done].
    by rewrite (proj2 (proj2 (IH fuel' depth t2))) by lia.
Qed.

(** The parser gives with any more fuel what it gives with the fuel of
    [parse]: no input is rejected for want of fuel. *)
Lemma parse_fuel data fuel :
  (2 * length data < fuel)%nat ->
  parseValue fuel 0 data = parseValue (S (2 * length data)) 0 data.
Proof. intros Hf. apply parse_fuel_indep; lia. Qed.

End fuel_facts.

(** ** The two structs through Marshal and Unmarshal *)

Lemma Unmarshal_Marshal_Device (d : Device.t) :
  json.Unmarshal (json.encodeFields "{"%char 0 (json.fields Device.t) d) Device.zero =
  Ok (coerceDevice d).
Proof.
  unfold json.Unmarshal. rewrite json_facts.parse_encodeFields.
  destruct d as [id owner location status]. reflexivity.
Qed.

Lemma Unmarshal_Marshal_DataRecord (r : DataRecord.t) :
  json.Unmarshal (json.encodeFields "{"%char 0 (json.fields DataRecord.t) r) DataRecord.zero =
  Ok (coerceDataRecord r).
Proof.
  unfold json.Unmarshal. rewrite json_facts.parse_encodeFields.
  destruct r as [deviceID timestamp data status verifierID].
  cbn [json.encodedMembers json.fields DataRecord.struct json.omitEmpty
       json.getField json.name andb DataRecord.DeviceID DataRecord.Timestamp
       DataRecord.Data DataRecord.Status DataRecord.VerifierID].
  destruct (String.eqb_spec verifierID EmptyString) as [->|Hne]; reflexivity.
Qed.

(** ** Composite keys *)

Module shim_facts.
Import utf8 utf8_facts json_facts.


Lemma valid_no_NUL (s : bytes) :
  forallb negb (chunks (fun r => (invalidAt r, (DecodeRune r).2)) 0 s) = true ->
  existsb (fun r => (r =? shim.minUnicodeRuneValue) || (r =? shim.maxUnicodeRuneValue))
          (chunks DecodeRune 0 s) = false ->
  Forall (fun c => c <> NUL) s.
Proof.
  induction s as [|b t IH] using suffix_ind; [constructor|].
  rewrite !chunks_cons. cbn [fst snd forallb existsb]. unfold invalidAt.
  destruct (DecodeRune_cases b t) as [Hinv|(w & rest & c & Hs & Henc & Hdec)].
  - by rewrite Hinv.
  - rewrite Hdec, (Encoding_not_invalid _ _ Henc). cbn [negb andb fst snd].
    intros Hv [Hc Hr]%orb_false_elim.
    pose proof (Encoding_range _ _ Henc) as (_ & _ & Hl & Hl1 & Hhigh).
    specialize (IH _ Hv Hr).
    assert (rest = drop (Nat.pred (length w)) t) as Hrest.
    { change (drop (Nat.pred (length w)) t)
        with (drop (S (Nat.pred (length w))) (b :: t)).
      replace (S (Nat.pred (length w))) with (length w) by lia.
      by rewrite Hs, drop_app_length. }
    rewrite Hs. apply Forall_app. split; [|by rewrite Hrest].
    destruct (decide (length w = 1%nat)) as [H1|H1].
    + destruct w as [|b' [|??]]; try done. inversion Henc; subst.
      constructor; [|constructor]. intros ->.
      unfold shim.minUnicodeRuneValue in Hc. by vm_compute in Hc.
    + eapply Forall_impl; [apply Hhigh; lia|].
      intros x Hx ->. by vm_compute in Hx.
Qed.

Lemma validateCompositeKeyAttribute_no_NUL str :
  shim.validateCompositeKeyAttribute str = Ok tt ->
  ValidString str = true /\ Forall (fun c => c <> NUL) (bytes_of_string str).
Proof.
  unfold shim.validateCompositeKeyAttribute, ValidString, runes.
  destruct (forallb _ _) eqn:Hv; [|done]. cbn [negb].
  destruct (existsb _ _) eqn:Hr; [done|]. intros _.
  split; [done|]. by apply valid_no_NUL.
Qed.

Lemma String_app_cons (c : ascii) (s t : string) :
  String.String c s +:+ t = String.String c (s +:+ t).
Proof. reflexivity. Qed.

Lemma String_app_nil (t : string) : EmptyString +:+ t = t.
Proof. reflexivity. Qed.

Lemma String_app_assoc (a b c : string) : (a +:+ b) +:+ c = a +:+ (b +:+ c).
Proof.
  induction a as [|x a IH]; [done|]. by rewrite !String_app_cons, IH.
Qed.

Lemma app_NUL_inj (a a' r r' : string) :
  Forall (fun c => c <> NUL) (bytes_of_string a) ->
  Forall (fun c => c <> NUL) (bytes_of_string a') ->
  a +:+ String.String NUL r = a' +:+ String.String NUL r' ->
  a = a' /\ r = r'.
Proof.
  revert a'. induction a as [|x a IH]; intros [|x' a'] Ha Ha' Heq;
    rewrite ?String_app_cons, ?String_app_nil in Heq; simpl in Ha, Ha'.
  - by injection Heq as ->.
  - injection Heq as <- _. by inversion Ha'.
  - injection Heq as -> _. by inversion Ha.
  - injection Heq as -> Heq. inversion Ha; inversion Ha'; subst.
    destruct (IH a') as [-> ->]; done.
Qed.

Lemma dataKey_spec deviceID timestamp :
  match dataKey deviceID timestamp with
  | Ok k =>
      k = keyOf deviceID timestamp /\
      shim.validateCompositeKeyAttribute deviceID = Ok tt /\
      shim.validateCompositeKeyAttribute timestamp = Ok tt
  | Err e =>
      shim.validateCompositeKeyAttribute deviceID = Err e \/
      shim.validateCompositeKeyAttribute deviceID = Ok tt /\
      shim.validateCompositeKeyAttribute timestamp = Err e
  end.
Proof.
  unfold dataKey, shim.CreateCompositeKey.
  change (shim.validateCompositeKeyAttribute "DataRecord") with (Ok tt).
  cbn [shim.appendAttributes].
  destruct (shim.validateCompositeKeyAttribute deviceID) as [[]|e]; [|by left].
  destruct (shim.validateCompositeKeyAttribute timestamp) as [[]|e]; [|by right].
  split; [|done]. unfold keyOf.
  change (shim.string_of_rune shim.minUnicodeRuneValue)
    with (String.String NUL EmptyString).
  change shim.compositeKeyNamespace with (String.String NUL EmptyString).
  rewrite !String_app_assoc, ?String_app_cons, ?String_app_nil. reflexivity.
Qed.

Lemma dataKey_Ok deviceID timestamp :
  shim.validateCompositeKeyAttribute deviceID = Ok tt ->
  shim.validateCompositeKeyAttribute timestamp = Ok tt ->
  dataKey deviceID timestamp = Ok (keyOf deviceID timestamp).
Proof.
  intros Hd Ht. pose proof (dataKey_spec deviceID timestamp) as H.
  destruct (dataKey deviceID timestamp) as [k|e].
  - by destruct H as [-> _].
  - destruct H as [H|[_ H]]; congruence.
Qed.

Lemma dataKey_inv deviceID timestamp k :
  dataKey deviceID timestamp = Ok k ->
  k = keyOf deviceID timestamp /\
  shim.validateCompositeKeyAttribute deviceID = Ok tt /\
  shim.validateCompositeKeyAttribute timestamp = Ok tt.
Proof.
  intros H. pose proof (dataKey_spec deviceID timestamp) as Hs.
  by rewrite H in Hs.
Qed.

Lemma dataKey_inj d t d' t' k :
  dataKey d t = Ok k -> dataKey d' t' = Ok k -> d = d' /\ t = t'.
Proof.
  intros (-> & Hd & Ht)%dataKey_inv (Heq & Hd' & Ht')%dataKey_inv.
  apply validateCompositeKeyAttribute_no_NUL in Hd as [_ Hd], Ht as [_ Ht],
    Hd' as [_ Hd'], Ht' as [_ Ht'].
  unfold keyOf in Heq. injection Heq as Heq.
  destruct (app_NUL_inj _ _ _ _ Hd Hd' Heq) as [-> Heq'].
  destruct (app_NUL_inj _ _ _ _ Ht Ht' Heq') as [-> _]. done.
Qed.

Lemma keyOf_not_empty d t : String.eqb (keyOf d t) EmptyString = false.
Proof. reflexivity. Qed.

End shim_facts.

Import shim_facts.

(** ** What each transaction does *)

Lemma DeviceExists_eq deviceID (w : WorldState) :
  DeviceExists deviceID w =
  (Ok (bool_decide (w !! deviceID ≠ None)), w, [GetStateCall deviceID]).
Proof. reflexivity. Qed.

Lemma RegisterDevice_eq deviceID owner location (w : WorldState) :
  RegisterDevice deviceID owner location w =
  match w !! deviceID with
  | Some _ => (Err (DeviceAlreadyRegistered deviceID), w, [GetStateCall deviceID])
  | None =>
      if String.eqb deviceID EmptyString
      then (Err KeyMustNotBeEmpty, w, [GetStateCall deviceID])
      else (Ok tt, <[deviceID := marshalled (newDevice deviceID owner location)]> w,
            [GetStateCall deviceID;
             PutStateCall deviceID (marshalled (newDevice deviceID owner location))])
  end.
Proof.
  unfold RegisterDevice, DeviceExists, wrapError, raise, lift, shim.GetState,
    shim.PutState, mbind, Tx_bind, mret, Tx_ret.
  destruct (w !! deviceID) as [raw|]; [done|]. simpl.
  by destruct (String.eqb deviceID EmptyString).
Qed.

Lemma SubmitData_eq deviceID timestamp data (w : WorldState) :
  SubmitData deviceID timestamp data w =
  match w !! deviceID with
  | None => (Err (DeviceNotRegistered deviceID), w, [GetStateCall deviceID])
  | Some _ =>
      match dataKey deviceID timestamp with
      | Err e => (Err (FailedToCreateCompositeKey e), w, [GetStateCall deviceID])
      | Ok k =>
          (Ok tt, <[k := marshalled (newDataRecord deviceID timestamp data)]> w,
           [GetStateCall deviceID;
            PutStateCall k (marshalled (newDataRecord deviceID timestamp data))])
      end
  end.
Proof.
  unfold SubmitData, DeviceExists, wrapError, raise, lift, shim.GetState,
    shim.PutState, mbind, Tx_bind, mret, Tx_ret.
  destruct (w !! deviceID) as [raw|]; [|done]. simpl.
  fold (dataKey deviceID timestamp).
  destruct (dataKey deviceID timestamp) as [k|e] eqn:Hk; [|done]. simpl.
  apply dataKey_inv in Hk as [-> _]. by rewrite keyOf_not_empty.
Qed.

Lemma VerifyData_eq deviceID timestamp verifierID isValid (w : WorldState) :
  VerifyData deviceID timestamp verifierID isValid w =
  match dataKey deviceID timestamp with
  | Err e => (Err (FailedToCreateCompositeKey e), w, [])
  | Ok k =>
      match w !! k with
      | None => (Err (DataRecordDoesNotExist deviceID timestamp), w, [GetStateCall k])
      | Some raw =>
          match json.Unmarshal raw DataRecord.zero with
          | Err e => (Err (FailedToUnmarshalDataRecord e), w, [GetStateCall k])
          | Ok r =>
              (Ok tt, <[k := marshalled (verdict verifierID isValid r)]> w,
               [GetStateCall k;
                PutStateCall k (marshalled (verdict verifierID isValid r))])
          end
      end
  end.
Proof.
  unfold VerifyData, wrapError, raise, lift, shim.GetState,
    shim.PutState, mbind, Tx_bind, mret, Tx_ret.
  fold (dataKey deviceID timestamp).
  destruct (dataKey deviceID timestamp) as [k|e] eqn:Hk; [|done]. simpl.
  destruct (w !! k) as [raw|]; [|done].
  destruct (json.Unmarshal raw DataRecord.zero) as [r|e]; [|done]. simpl.
  apply dataKey_inv in Hk as [-> _]. rewrite keyOf_not_empty.
  by destruct isValid.
Qed.

Lemma GetDevice_eq deviceID (w : WorldState) :
  GetDevice deviceID w =
  match w !! deviceID with
  | None => (Err (DeviceDoesNotExist deviceID), w, [GetStateCall deviceID])
  | Some raw =>
      match json.Unmarshal raw Device.zero with
      | Err e => (Err (FailedToUnmarshalDeviceJSON e), w, [GetStateCall deviceID])
      | Ok d => (Ok d, w, [GetStateCall deviceID])
      end
  end.
Proof.
  unfold GetDevice, wrapError, raise, lift, shim.GetState, mbind, Tx_bind.
  destruct (w !! deviceID) as [raw|]; [|done]. simpl.
  by destruct (json.Unmarshal raw Device.zero).
Qed.

Lemma GetDataRecord_eq deviceID timestamp (w : WorldState) :
  GetDataRecord deviceID timestamp w =
  match dataKey deviceID timestamp with
  | Err e => (Err (FailedToCreateCompositeKey e), w, [])
  | Ok k =>
      match w !! k with
      | None => (Err DataRecordNotFound, w, [GetStateCall k])
      | Some raw =>
          match json.Unmarshal raw DataRecord.zero with
          | Err e => (Err (FailedToUnmarshalDataRecord e), w, [GetStateCall k])
          | Ok r => (Ok r, w, [GetStateCall k])
          end
      end
  end.
Proof.
  unfold GetDataRecord, wrapError, raise, lift, shim.GetState, mbind, Tx_bind.
  fold (dataKey deviceID timestamp).
  destruct (dataKey deviceID timestamp) as [k|e]; [|done]. simpl.
  destruct (w !! k) as [raw|]; [|done]. simpl.
  by destruct (json.Unmarshal raw DataRecord.zero).
Qed.

(** ** Sequences of invocations *)

Lemma bind_ret_eq {A B} (m : Tx A) (f : A -> B) (w : WorldState) :
  (a ← m; mret (f a)) w =
  (match (m w).1.1 with Ok a => Ok (f a) | Err e => Err e end,
   (m w).1.2, (m w).2).
Proof.
  unfold mbind, Tx_bind, mret, Tx_ret.
  destruct (m w) as [[[a|e] w'] cs]; simpl; [|done]. by rewrite app_nil_r.
Qed.

Lemma invoke_eq (w : WorldState) (i : Invocation) :
  invoke w i =
  match i with
  | InvokeRegisterDevice d o l => state (RegisterDevice d o l) w
  | InvokeSubmitData d t x => state (SubmitData d t x) w
  | InvokeVerifyData d t v b => state (VerifyData d t v b) w
  | _ => w
  end.
Proof.
  unfold invoke, state, perform. destruct i; rewrite bind_ret_eq; try done.
  - by rewrite GetDevice_eq; repeat case_match.
  - by rewrite GetDataRecord_eq; repeat case_match.
Qed.

(** A transaction leaves the world state as it is or puts one value. *)
Lemma invoke_cases (w : WorldState) (i : Invocation) :
  invoke w i = w \/
  exists k v, invoke w i = <[k := v]> w /\
    (w !! k = None \/ exists d t, dataKey d t = Ok k).
Proof.
  rewrite invoke_eq. unfold state. destruct i as [d o l|d|d t x|d t v b|d|d t];
    try (by left).
  - rewrite RegisterDevice_eq. destruct (w !! d) eqn:Hd; [by left|].
    destruct (String.eqb d EmptyString); [by left|]. right. eauto 10.
  - rewrite SubmitData_eq. destruct (w !! d); [|by left].
    destruct (dataKey d t) as [k|e] eqn:Hk; [|by left]. right. eauto 10.
  - rewrite VerifyData_eq. destruct (dataKey d t) as [k|e] eqn:Hk; [|by left].
    destruct (w !! k); [|by left].
    destruct (json.Unmarshal _ _); [|by left]. right. eauto 10.
Qed.

Lemma invoke_registered (w : WorldState) (i : Invocation) k :
  is_Some (w !! k) -> is_Some (invoke w i !! k).
Proof.
  intros Hk. destruct (invoke_cases w i) as [->|(k' & v & -> & _)]; [done|].
  destruct (decide (k' = k)) as [->|Hne].
  - rewrite lookup_insert_eq. eauto.
  - by rewrite lookup_insert_ne.
Qed.

Lemma run_registered invs : forall (w : WorldState) k,
  is_Some (w !! k) -> is_Some (run invs w !! k).
Proof.
  induction invs as [|i invs IH]; intros w k Hk; [done|].
  apply IH. by apply invoke_registered.
Qed.


(** A value under a plain key stays: only [RegisterDevice] writes plain
    keys, and only where there is no value yet. *)
Lemma invoke_plain_key (w : WorldState) (i : Invocation) k v :
  plainKey k -> w !! k = Some v -> invoke w i !! k = Some v.
Proof.
  intros Hplain Hk.
  destruct (invoke_cases w i) as [->|(k' & v' & -> & [Hnone|(d & t & Hd)])];
    [done|..].
  - rewrite lookup_insert_ne; [done|]. congruence.
  - rewrite lookup_insert_ne; [done|]. intros <-.
    apply dataKey_inv in Hd as [-> _]. by apply Hplain.
Qed.

Lemma run_plain_key invs : forall (w : WorldState) k v,
  plainKey k -> w !! k = Some v -> run invs w !! k = Some v.
Proof.
  induction invs as [|i invs IH]; intros w k v Hplain Hk; [done|].
  apply IH; [done|]. by apply invoke_plain_key.
Qed.

(** ** Registration *)

(** C1, as stated, fails: [json.Marshal] writes a byte that is not UTF-8 as
    the escape of U+FFFD, so a device registered with the owner [xFF] (the
    one byte 0xFF) is read back with the owner U+FFFD (three bytes). *)
Lemma RegisterDevice_GetDevice_not_verbatim :
  ~ (forall (w : WorldState) deviceID owner location,
       result (RegisterDevice deviceID owner location) w = Ok tt ->
       exists dev,
         result (GetDevice deviceID)
                (state (RegisterDevice deviceID owner location) w) = Ok dev /\
         Device.ID dev = deviceID /\ Device.Owner dev = owner /\
         Device.Location dev = location /\ Device.Status dev = "active").
Proof.
  intros H.
  destruct (H ∅ "dev-1" xFF "lab-A") as (dev & Hget & _ & Howner & _);
    [by vm_compute|].
  vm_compute in Hget. injection Hget as <-. discriminate Howner.
Qed.

(** C1, amended: if [RegisterDevice(deviceID, owner, location)] succeeds,
    [GetDevice(deviceID)] on the resulting state succeeds and returns a
    Device whose status is "active" and whose id, owner and location are the
    inputs coerced to valid UTF-8 (every invalid byte replaced by U+FFFD);
    they equal the inputs whenever those are valid UTF-8. *)
Theorem RegisterDevice_GetDevice (w : WorldState) deviceID owner location :
  result (RegisterDevice deviceID owner location) w = Ok tt ->
  exists dev,
    result (GetDevice deviceID)
           (state (RegisterDevice deviceID owner location) w) = Ok dev /\
    Device.Status dev = "active" /\
    Device.ID dev = json.toValidUTF8 deviceID /\
    Device.Owner dev = json.toValidUTF8 owner /\
    Device.Location dev = json.toValidUTF8 location /\
    (utf8.ValidString deviceID = true -> Device.ID dev = deviceID) /\
    (utf8.ValidString owner = true -> Device.Owner dev = owner) /\
    (utf8.ValidString location = true -> Device.Location dev = location).
Proof.
  unfold result, state. rewrite RegisterDevice_eq.
  destruct (w !! deviceID); [done|].
  destruct (String.eqb deviceID EmptyString); [done|]. intros _. simpl.
  rewrite GetDevice_eq, lookup_insert_eq. unfold marshalled.
  rewrite Unmarshal_Marshal_Device. eexists. split; [reflexivity|]. simpl.
  repeat split; try done; apply json_facts.toValidUTF8_valid.
Qed.

Lemma RegisterDevice_GetDevice_witness :
  result (RegisterDevice "dev-1" "alice" "lab-A") ∅ = Ok tt /\
  exists dev,
    result (GetDevice "dev-1")
           (state (RegisterDevice "dev-1" "alice" "lab-A") ∅) = Ok dev /\
    Device.Status dev = "active" /\
    Device.ID dev = json.toValidUTF8 "dev-1" /\
    Device.Owner dev = json.toValidUTF8 "alice" /\
    Device.Location dev = json.toValidUTF8 "lab-A" /\
    (utf8.ValidString "dev-1" = true -> Device.ID dev = "dev-1") /\
    (utf8.ValidString "alice" = true -> Device.Owner dev = "alice") /\
    (utf8.ValidString "lab-A" = true -> Device.Location dev = "lab-A").
Proof.
  split; [by vm_compute|].
  apply (RegisterDevice_GetDevice ∅ "dev-1" "alice" "lab-A"). by vm_compute.
Defined.

(** C2: after a successful [RegisterDevice(deviceID, _, _)], the value
    stored under [deviceID] is the marshalled device of that call; a second
    [RegisterDevice] with the same [deviceID] leaves that value there; and
    any later [RegisterDevice] with the same [deviceID], after any sequence
    of invocations, returns "already registered" (AlreadyExists) and leaves
    the world state, hence the stored value, as it found it. *)
Theorem RegisterDevice_twice (w : WorldState) deviceID owner location :
  result (RegisterDevice deviceID owner location) w = Ok tt ->
  let w1 := state (RegisterDevice deviceID owner location) w in
  w1 !! deviceID = Some (marshalled (newDevice deviceID owner location)) /\
  (forall owner' location',
     state (RegisterDevice deviceID owner' location') w1 !! deviceID =
     Some (marshalled (newDevice deviceID owner location))) /\
  (forall invs owner' location',
     let w2 := run invs w1 in
     result (RegisterDevice deviceID owner' location') w2 =
       Err (DeviceAlreadyRegistered deviceID) /\
     errorKind (DeviceAlreadyRegistered deviceID) = ErrorKind.AlreadyExists /\
     state (RegisterDevice deviceID owner' location') w2 = w2).
Proof.
  unfold result, state. rewrite RegisterDevice_eq.
  destruct (w !! deviceID) eqn:Hw; [done|].
  destruct (String.eqb deviceID EmptyString); [done|]. intros _. simpl.
  split; [apply lookup_insert_eq|]. split.
  - intros owner' location'. rewrite RegisterDevice_eq, lookup_insert_eq. simpl.
    apply lookup_insert_eq.
  - intros invs owner' location'. rewrite RegisterDevice_eq.
    destruct (run_registered invs
                (<[deviceID := marshalled (newDevice deviceID owner location)]> w)
                deviceID) as [raw ->]; [|done].
    rewrite lookup_insert_eq. eauto.
Qed.

(** More holds of a device whose id is a plain key (one that does not
    begin with U+0000): the value of its registration stays under its id
    whatever is invoked afterwards. A device registered under the composite
    key of a data record can be overwritten by [SubmitData] and
    [VerifyData] for that record. *)
Lemma registered_device_stays (w : WorldState) deviceID owner location invs :
  result (RegisterDevice deviceID owner location) w = Ok tt ->
  plainKey deviceID ->
  run invs (state (RegisterDevice deviceID owner location) w) !! deviceID =
  Some (marshalled (newDevice deviceID owner location)).
Proof.
  intros Hok Hplain. apply run_plain_key; [done|].
  revert Hok. unfold result, state. rewrite RegisterDevice_eq.
  destruct (w !! deviceID); [done|].
  destruct (String.eqb deviceID EmptyString); [done|]. intros _.
  apply lookup_insert_eq.
Qed.

Lemma RegisterDevice_twice_witness :
  result (RegisterDevice "dev-1" "alice" "lab-A") ∅ = Ok tt /\
  result (RegisterDevice "dev-1" "bob" "lab-B")
    (run [InvokeSubmitData "dev-1" "t0" "temp=21.5"]
         (state (RegisterDevice "dev-1" "alice" "lab-A") ∅)) =
  Err (DeviceAlreadyRegistered "dev-1").
Proof.
  split; [by vm_compute|].
  apply (RegisterDevice_twice ∅ "dev-1" "alice" "lab-A"). by vm_compute.
Defined.

(** ** Submission *)

(** C3, as stated, fails in its last part. With no device "dev-1" and a
    timestamp that is not UTF-8, [GetDataRecord] cannot build the key and
    returns that error, not NotFound; and in the state reached from the
    empty one by registering a device whose id is the key of ("d", "t"),
    no device "d" is registered, yet [GetDataRecord("d", "t")] finds a
    value and returns a record. *)
Lemma SubmitData_unregistered_not_NotFound :
  ~ (forall (w : WorldState) deviceID timestamp data,
       w !! deviceID = None ->
       (exists e, result (SubmitData deviceID timestamp data) w = Err e /\
                  errorKind e = ErrorKind.DeviceNotRegistered) /\
       state (SubmitData deviceID timestamp data) w = w /\
       (exists e, result (GetDataRecord deviceID timestamp)
                         (state (SubmitData deviceID timestamp data) w) = Err e /\
                  errorKind e = ErrorKind.NotFound)).
Proof.
  intros H.
  destruct (H ∅ "dev-1" xFF "temp=21.5") as (_ & _ & e & Hget & Hkind);
    [by vm_compute|].
  vm_compute in Hget. injection Hget as <-. discriminate Hkind.
Qed.

Example GetDataRecord_finds_a_device :
  let w := state (RegisterDevice (keyOf "d" "t") "o" "l") ∅ in
  result (RegisterDevice (keyOf "d" "t") "o" "l") ∅ = Ok tt /\
  w !! "d" = None /\
  result (SubmitData "d" "t" "x") w = Err (DeviceNotRegistered "d") /\
  exists r, result (GetDataRecord "d" "t") w = Ok r.
Proof. vm_compute. eauto 10. Qed.

(** C3, amended: if no device is registered under [deviceID],
    [SubmitData(deviceID, timestamp, data)] returns "not registered"
    (DeviceNotRegistered) and leaves the world state as it is, so it creates
    no record: [GetDataRecord(deviceID, timestamp)] returns after the call
    what it returned before, which is NotFound whenever the key of the pair
    can be built and held no value. *)
Theorem SubmitData_unregistered (w : WorldState) deviceID timestamp data :
  w !! deviceID = None ->
  result (SubmitData deviceID timestamp data) w = Err (DeviceNotRegistered deviceID) /\
  errorKind (DeviceNotRegistered deviceID) = ErrorKind.DeviceNotRegistered /\
  state (SubmitData deviceID timestamp data) w = w /\
  result (GetDataRecord deviceID timestamp)
         (state (SubmitData deviceID timestamp data) w) =
    result (GetDataRecord deviceID timestamp) w /\
  (forall k, dataKey deviceID timestamp = Ok k -> w !! k = None ->
     result (GetDataRecord deviceID timestamp)
            (state (SubmitData deviceID timestamp data) w) = Err DataRecordNotFound /\
     errorKind DataRecordNotFound = ErrorKind.NotFound).
Proof.
  intros Hw. unfold result, state. rewrite SubmitData_eq, Hw. simpl.
  do 4 (split; [done|]).
  intros k Hk Hnone. by rewrite GetDataRecord_eq, Hk, Hnone.
Qed.

Lemma SubmitData_unregistered_witness :
  (∅ : WorldState) !! "dev-1" = None /\
  result (SubmitData "dev-1" "t0" "temp=21.5") ∅ = Err (DeviceNotRegistered "dev-1") /\
  state (SubmitData "dev-1" "t0" "temp=21.5") ∅ = ∅.
Proof.
  split; [reflexivity|].
  destruct (SubmitData_unregistered ∅ "dev-1" "t0" "temp=21.5")
    as (H1 & _ & H2 & _); [reflexivity|]. by split.
Defined.

(** C4, as stated, fails: for a registered device and a timestamp that is
    not UTF-8, [SubmitData] cannot build the key and fails; and data that is
    not UTF-8 is stored coerced, so the record read back differs from the
    input. *)
Lemma SubmitData_not_for_every_input :
  ~ (forall (w : WorldState) deviceID timestamp data,
       is_Some (w !! deviceID) ->
       result (SubmitData deviceID timestamp data) w = Ok tt /\
       result (GetDataRecord deviceID timestamp)
              (state (SubmitData deviceID timestamp data) w) =
         Ok (newDataRecord deviceID timestamp data)).
Proof.
  intros H.
  destruct (H (state (RegisterDevice "dev-1" "alice" "lab-A") ∅)
              "dev-1" xFF "temp=21.5") as [Hsubmit _]; [vm_compute; eauto|].
  vm_compute in Hsubmit. discriminate Hsubmit.
Qed.

Example SubmitData_coerces_data :
  let w := state (RegisterDevice "dev-1" "alice" "lab-A") ∅ in
  result (SubmitData "dev-1" "t0" xFF) w = Ok tt /\
  result (GetDataRecord "dev-1" "t0") (state (SubmitData "dev-1" "t0" xFF) w) =
    Ok (newDataRecord "dev-1" "t0" (json.toValidUTF8 xFF)) /\
  json.toValidUTF8 xFF <> xFF.
Proof. by vm_compute. Qed.

(** C4, amended: for a registered device, and a [deviceID] and [timestamp]
    that the stub accepts as attributes of a composite key (valid UTF-8
    without U+0000 and U+10FFFF), [SubmitData] succeeds and
    [GetDataRecord(deviceID, timestamp)] on the resulting state returns a
    record with that [deviceID] and [timestamp], the data coerced to valid
    UTF-8 (the data itself when it is valid UTF-8), the status "pending"
    and an empty [verifierID]. *)
Theorem SubmitData_GetDataRecord (w : WorldState) deviceID timestamp data :
  is_Some (w !! deviceID) ->
  shim.validateCompositeKeyAttribute deviceID = Ok tt ->
  shim.validateCompositeKeyAttribute timestamp = Ok tt ->
  result (SubmitData deviceID timestamp data) w = Ok tt /\
  result (GetDataRecord deviceID timestamp)
         (state (SubmitData deviceID timestamp data) w) =
    Ok (newDataRecord deviceID timestamp (json.toValidUTF8 data)) /\
  (utf8.ValidString data = true ->
   result (GetDataRecord deviceID timestamp)
          (state (SubmitData deviceID timestamp data) w) =
     Ok (newDataRecord deviceID timestamp data)).
Proof.
  intros [raw Hw] Hd Ht. unfold result, state.
  rewrite SubmitData_eq, Hw, (dataKey_Ok _ _ Hd Ht). simpl.
  rewrite GetDataRecord_eq, (dataKey_Ok _ _ Hd Ht), lookup_insert_eq.
  unfold marshalled. rewrite Unmarshal_Marshal_DataRecord.
  apply validateCompositeKeyAttribute_no_NUL in Hd as [Hd _], Ht as [Ht _].
  unfold coerceDataRecord, newDataRecord. simpl.
  rewrite !json_facts.toValidUTF8_valid by done.
  do 2 (split; [done|]).
  intros Hx. by rewrite json_facts.toValidUTF8_valid.
Qed.

Lemma SubmitData_GetDataRecord_witness :
  let w := state (RegisterDevice "dev-1" "alice" "lab-A") ∅ in
  is_Some (w !! "dev-1") /\
  result (SubmitData "dev-1" "t0" "temp=21.5") w = Ok tt /\
  result (GetDataRecord "dev-1" "t0")
         (state (SubmitData "dev-1" "t0" "temp=21.5") w) =
    Ok (newDataRecord "dev-1" "t0" "temp=21.5").
Proof.
  intros w.
  assert (is_Some (w !! "dev-1")) as Hw by (vm_compute; eauto).
  split; [exact Hw|].
  destruct (SubmitData_GetDataRecord w "dev-1" "t0" "temp=21.5" Hw)
    as (H1 & _ & H2); [by vm_compute|by vm_compute|].
  split; [exact H1|]. apply H2. by vm_compute.
Defined.

(** ** Verification *)

(** C5, as stated, fails: a [verifierID] that is not UTF-8 is stored
    coerced, so the record read back has another verifier than the one
    supplied. *)
Lemma VerifyData_verifier_not_verbatim :
  ~ (forall (w : WorldState) deviceID timestamp verifierID isValid k raw r,
       dataKey deviceID timestamp = Ok k -> w !! k = Some raw ->
       json.Unmarshal raw DataRecord.zero = Ok r ->
       result (VerifyData deviceID timestamp verifierID isValid) w = Ok tt /\
       exists r',
         result (GetDataRecord deviceID timestamp)
                (state (VerifyData deviceID timestamp verifierID isValid) w) = Ok r' /\
         DataRecord.Status r' = (if isValid then "verified" else "rejected") /\
         DataRecord.VerifierID r' = verifierID).
Proof.
  intros H.
  pose (w := run [InvokeRegisterDevice "dev-1" "alice" "lab-A";
                  InvokeSubmitData "dev-1" "t0" "temp=21.5"] ∅).
  destruct (H w "dev-1" "t0" xFF true (keyOf "dev-1" "t0")
              (marshalled (newDataRecord "dev-1" "t0" "temp=21.5"))
              (newDataRecord "dev-1" "t0" "temp=21.5"))
    as (_ & r' & Hget & _ & Hver); [by vm_compute..|].
  vm_compute in Hget. injection Hget as <-. discriminate Hver.
Qed.

(** C5, amended: if the key of [(deviceID, timestamp)] holds a value that
    unmarshals as a DataRecord, whatever its status, [VerifyData] succeeds,
    and the record stored afterwards has the status "verified" if [isValid]
    and "rejected" if not, and as [verifierID] the supplied value coerced to
    valid UTF-8 (the value itself when it is valid UTF-8). *)
Theorem VerifyData_sets_status (w : WorldState)
    deviceID timestamp verifierID isValid k raw r :
  dataKey deviceID timestamp = Ok k -> w !! k = Some raw ->
  json.Unmarshal raw DataRecord.zero = Ok r ->
  result (VerifyData deviceID timestamp verifierID isValid) w = Ok tt /\
  exists r',
    result (GetDataRecord deviceID timestamp)
           (state (VerifyData deviceID timestamp verifierID isValid) w) = Ok r' /\
    DataRecord.Status r' = (if isValid then "verified" else "rejected") /\
    DataRecord.VerifierID r' = json.toValidUTF8 verifierID /\
    (utf8.ValidString verifierID = true -> DataRecord.VerifierID r' = verifierID).
Proof.
  intros Hk Hw Hr. unfold result, state.
  rewrite VerifyData_eq, Hk, Hw, Hr. simpl. split; [done|].
  rewrite GetDataRecord_eq, Hk, lookup_insert_eq. unfold marshalled.
  rewrite Unmarshal_Marshal_DataRecord. eexists. split; [reflexivity|].
  simpl. split; [by destruct isValid|]. split; [done|].
  apply json_facts.toValidUTF8_valid.
Qed.

Lemma VerifyData_sets_status_witness :
  let w := run [InvokeRegisterDevice "dev-1" "alice" "lab-A";
                InvokeSubmitData "dev-1" "t0" "temp=21.5";
                InvokeVerifyData "dev-1" "t0" "ver-1" true] ∅ in
  result (VerifyData "dev-1" "t0" "ver-2" false) w = Ok tt /\
  exists r',
    result (GetDataRecord "dev-1" "t0")
           (state (VerifyData "dev-1" "t0" "ver-2" false) w) = Ok r' /\
    DataRecord.Status r' = "rejected" /\
    DataRecord.VerifierID r' = json.toValidUTF8 "ver-2" /\
    (utf8.ValidString "ver-2" = true -> DataRecord.VerifierID r' = "ver-2").
Proof.
  intros w.
  apply (VerifyData_sets_status w "dev-1" "t0" "ver-2" false (keyOf "dev-1" "t0")
           (marshalled (verdict "ver-1" true (newDataRecord "dev-1" "t0" "temp=21.5")))
           (verdict "ver-1" true (newDataRecord "dev-1" "t0" "temp=21.5")));
    by vm_compute.
Defined.

(** ** Serialization *)

Lemma coerceDevice_valid d : validDevice d -> coerceDevice d = d.
Proof.
  destruct d. intros (? & ? & ? & ?). unfold coerceDevice. simpl in *.
  by rewrite !json_facts.toValidUTF8_valid.
Qed.

Lemma coerceDataRecord_valid r : validDataRecord r -> coerceDataRecord r = r.
Proof.
  destruct r. intros (? & ? & ? & ? & ?). unfold coerceDataRecord. simpl in *.
  by rewrite !json_facts.toValidUTF8_valid.
Qed.

(** C8, as stated, fails: a Device whose id is the byte 0xFF is marshalled
    with the id U+FFFD and unmarshals to a different value. *)
Lemma roundtrip_not_for_every_value :
  ~ ((forall d : Device.t, exists data,
        json.Marshal d = Ok data /\ json.Unmarshal data Device.zero = Ok d) /\
     (forall r : DataRecord.t, exists data,
        json.Marshal r = Ok data /\ json.Unmarshal data DataRecord.zero = Ok r)).
Proof.
  intros [H _]. destruct (H (newDevice xFF "alice" "lab-A")) as (data & Hm & Hu).
  vm_compute in Hm. injection Hm as <-. vm_compute in Hu. discriminate Hu.
Qed.

(** C8, amended: marshalling a Device or a DataRecord and unmarshalling the
    bytes yields the value with every field coerced to valid UTF-8; hence
    the value itself when all its fields are valid UTF-8, also for a
    DataRecord with an empty [verifierID], whose marshalled form leaves
    that field out. *)
Theorem Marshal_Unmarshal_roundtrip :
  (forall d : Device.t, exists data,
     json.Marshal d = Ok data /\
     json.Unmarshal data Device.zero = Ok (coerceDevice d) /\
     (validDevice d -> json.Unmarshal data Device.zero = Ok d)) /\
  (forall r : DataRecord.t, exists data,
     json.Marshal r = Ok data /\
     json.Unmarshal data DataRecord.zero = Ok (coerceDataRecord r) /\
     (validDataRecord r -> json.Unmarshal data DataRecord.zero = Ok r)).
Proof.
  split.
  - intros d. eexists. split; [reflexivity|].
    rewrite Unmarshal_Marshal_Device. split; [done|].
    intros Hv. by rewrite coerceDevice_valid.
  - intros r. eexists. split; [reflexivity|].
    rewrite Unmarshal_Marshal_DataRecord. split; [done|].
    intros Hv. by rewrite coerceDataRecord_valid.
Qed.

Lemma Marshal_Unmarshal_roundtrip_witness :
  validDataRecord (newDataRecord "dev-1" "t0" "temp=21.5") /\
  exists data,
    json.Marshal (newDataRecord "dev-1" "t0" "temp=21.5") = Ok data /\
    json.Unmarshal data DataRecord.zero = Ok (newDataRecord "dev-1" "t0" "temp=21.5").
Proof.
  assert (validDataRecord (newDataRecord "dev-1" "t0" "temp=21.5")) as Hv
    by (by vm_compute).
  split; [exact Hv|].
  destruct (proj2 Marshal_Unmarshal_roundtrip (newDataRecord "dev-1" "t0" "temp=21.5"))
    as (data & Hm & _ & Hu).
  exists data. split; [exact Hm|]. exact (Hu Hv).
Defined.

(** ** Atomicity *)

(** C9: every transaction makes at most one write to the ledger; the write
    is its last call, after all its reads, and is made only when the
    transaction succeeds, so when every check has passed; and whenever a
    transaction returns an error (AlreadyExists, DeviceNotRegistered,
    NotFound, DeserializationError or any other), it has made no write and
    the world state is as before the call. *)
Theorem transactions_atomic (i : Invocation) (w : WorldState) :
  (length (filter (fun c => isPutState c = true) (calls (perform i) w)) <= 1)%nat /\
  (Forall (fun c => isGetState c = true) (calls (perform i) w) /\
   state (perform i) w = w
   \/
   exists reads k v,
     calls (perform i) w = reads ++ [PutStateCall k v] /\
     Forall (fun c => isGetState c = true) reads /\
     (exists a, result (perform i) w = Ok a) /\
     state (perform i) w = <[k := v]> w) /\
  (forall e, result (perform i) w = Err e ->
     state (perform i) w = w /\
     Forall (fun c => isGetState c = true) (calls (perform i) w)).
Proof.
  unfold calls, state, result, perform.
  destruct i as [d o l|d|d t x|d t v b|d|d t]; rewrite bind_ret_eq; cbn [fst snd].
  - rewrite RegisterDevice_eq. destruct (w !! d).
    { split; [simpl; lia|]. split; [left|]; repeat constructor. }
    destruct (String.eqb d EmptyString).
    { split; [simpl; lia|]. split; [left|]; repeat constructor. }
    split; [simpl; lia|]. split; [|done]. right.
    exists [GetStateCall d]. repeat eexists. by repeat constructor.
  - rewrite DeviceExists_eq.
    split; [simpl; lia|]. split; [left|]; repeat constructor.
  - rewrite SubmitData_eq. destruct (w !! d).
    2:{ split; [simpl; lia|]. split; [left|]; repeat constructor. }
    destruct (dataKey d t) as [k|e].
    2:{ split; [simpl; lia|]. split; [left|]; repeat constructor. }
    split; [simpl; lia|]. split; [|done]. right.
    exists [GetStateCall d]. repeat eexists. by repeat constructor.
  - rewrite VerifyData_eq. destruct (dataKey d t) as [k|e].
    2:{ split; [simpl; lia|]. split; [left|]; repeat constructor. }
    destruct (w !! k) as [raw|].
    2:{ split; [simpl; lia|]. split; [left|]; repeat constructor. }
    destruct (json.Unmarshal raw DataRecord.zero) as [r|e].
    2:{ split; [simpl; lia|]. split; [left|]; repeat constructor. }
    split; [simpl; lia|]. split; [|done]. right.
    exists [GetStateCall k]. repeat eexists. by repeat constructor.
  - rewrite GetDevice_eq. destruct (w !! d) as [raw|].
    2:{ split; [simpl; lia|]. split; [left|]; repeat constructor. }
    destruct (json.Unmarshal raw Device.zero) as [r|e];
      (split; [simpl; lia|]); (split; [left|]); repeat constructor.
  - rewrite GetDataRecord_eq. destruct (dataKey d t) as [k|e].
    2:{ split; [simpl; lia|]. split; [left|]; repeat constructor. }
    destruct (w !! k) as [raw|].
    2:{ split; [simpl; lia|]. split; [left|]; repeat constructor. }
    destruct (json.Unmarshal raw DataRecord.zero) as [r|e];
      (split; [simpl; lia|]); (split; [left|]); repeat constructor.
Qed.

Lemma transactions_atomic_witness :
  result (perform (InvokeRegisterDevice "dev-1" "bob" "lab-B"))
         (state (RegisterDevice "dev-1" "alice" "lab-A") ∅) =
    Err (DeviceAlreadyRegistered "dev-1") /\
  state (perform (InvokeRegisterDevice "dev-1" "bob" "lab-B"))
        (state (RegisterDevice "dev-1" "alice" "lab-A") ∅) =
    state (RegisterDevice "dev-1" "alice" "lab-A") ∅.
Proof.
  assert (result (perform (InvokeRegisterDevice "dev-1" "bob" "lab-B"))
            (state (RegisterDevice "dev-1" "alice" "lab-A") ∅) =
          Err (DeviceAlreadyRegistered "dev-1")) as He by (by vm_compute).
  split; [exact He|].
  exact (proj1 (proj2 (proj2 (transactions_atomic
    (InvokeRegisterDevice "dev-1" "bob" "lab-B")
    (state (RegisterDevice "dev-1" "alice" "lab-A") ∅))) _ He)).
Defined.

(** ** The life of a data record *)

(** What [GetDataRecord] returns depends on the value under the key only. *)
Lemma GetDataRecord_lookup (w w' : WorldState) deviceID timestamp k :
  dataKey deviceID timestamp = Ok k -> w' !! k = w !! k ->
  result (GetDataRecord deviceID timestamp) w' =
  result (GetDataRecord deviceID timestamp) w.
Proof.
  intros Hk Hw. unfold result. rewrite !GetDataRecord_eq, Hk, Hw.
  by repeat case_match.
Qed.

Lemma GetDataRecord_Ok_inv (w : WorldState) deviceID timestamp r :
  result (GetDataRecord deviceID timestamp) w = Ok r ->
  exists k raw, dataKey deviceID timestamp = Ok k /\ w !! k = Some raw /\
                json.Unmarshal raw DataRecord.zero = Ok r.
Proof.
  unfold result. rewrite GetDataRecord_eq.
  destruct (dataKey deviceID timestamp) as [k|e]; [|done].
  destruct (w !! k) as [raw|] eqn:Hw; [|done].
  destruct (json.Unmarshal raw DataRecord.zero) as [r'|e] eqn:Hr; [|done].
  simpl. intros [= ->]. eauto.
Qed.

Lemma terminal_step (w : WorldState) deviceID timestamp i r :
  result (GetDataRecord deviceID timestamp) w = Ok r -> terminal r ->
  (forall data, i = InvokeSubmitData deviceID timestamp data ->
                result (SubmitData deviceID timestamp data) w <> Ok tt) ->
  exists r', result (GetDataRecord deviceID timestamp) (invoke w i) = Ok r' /\
             terminal r'.
Proof.
  intros Hget Hterm Hno.
  destruct (GetDataRecord_Ok_inv _ _ _ _ Hget) as (k & raw & Hk & Hw & Hr).
  assert (forall k' v, k' <> k ->
            exists r', result (GetDataRecord deviceID timestamp)
                              (<[k' := v]> w) = Ok r' /\ terminal r') as Hother.
  { intros k' v Hne. exists r. split; [|done]. rewrite <- Hget.
    apply (GetDataRecord_lookup _ _ _ _ k Hk). by rewrite lookup_insert_ne. }
  rewrite invoke_eq. unfold state.
  destruct i as [d o l|d|d t x|d t v b|d|d t]; eauto.
  - rewrite RegisterDevice_eq. destruct (w !! d) eqn:Hd; [eauto|].
    destruct (String.eqb d EmptyString); [eauto|]. simpl.
    apply Hother. congruence.
  - rewrite SubmitData_eq. destruct (w !! d) eqn:Hd; [|eauto].
    destruct (dataKey d t) as [k'|e] eqn:Hk'; [|eauto]. simpl.
    destruct (decide (k' = k)) as [->|Hne]; [|by apply Hother].
    destruct (dataKey_inj _ _ _ _ _ Hk' Hk) as [-> ->].
    exfalso. apply (Hno x eq_refl). unfold result.
    by rewrite SubmitData_eq, Hd, Hk.
  - rewrite VerifyData_eq. destruct (dataKey d t) as [k'|e] eqn:Hk'; [|eauto].
    destruct (w !! k') as [raw'|] eqn:Hw'; [|eauto].
    destruct (json.Unmarshal raw' DataRecord.zero) as [r0|e]; [|eauto]. simpl.
    destruct (decide (k' = k)) as [->|Hne]; [|by apply Hother].
    unfold result. rewrite GetDataRecord_eq, Hk, lookup_insert_eq.
    unfold marshalled. rewrite Unmarshal_Marshal_DataRecord.
    eexists. split; [reflexivity|]. unfold terminal. simpl.
    destruct b; [left|right]; reflexivity.
Qed.

(** C6, as stated, fails: [SubmitData] makes no check for an existing
    record, so submitting again for the same device and timestamp replaces
    a verified record by a pending one. *)
Lemma terminal_record_resubmitted :
  ~ (forall (w : WorldState) deviceID timestamp r,
       reachable w ->
       result (GetDataRecord deviceID timestamp) w = Ok r -> terminal r ->
       forall invs r',
         result (GetDataRecord deviceID timestamp) (run invs w) = Ok r' ->
         DataRecord.Status r' <> "pending").
Proof.
  intros H.
  pose (invs := [InvokeRegisterDevice "dev-1" "alice" "lab-A";
                 InvokeSubmitData "dev-1" "t0" "temp=21.5";
                 InvokeVerifyData "dev-1" "t0" "ver-1" true]).
  apply (H (run invs ∅) "dev-1" "t0"
           (verdict "ver-1" true (newDataRecord "dev-1" "t0" "temp=21.5"))
           (ex_intro _ invs eq_refl)
           ltac:(by vm_compute) ltac:(by left)
           [InvokeSubmitData "dev-1" "t0" "temp=22.0"]
           (newDataRecord "dev-1" "t0" "temp=22.0")); by vm_compute.
Qed.

(** C6, amended: once the record stored for [(deviceID, timestamp)] is
    verified or rejected, it stays verified or rejected (and is never
    pending) in every state reached by invocations among which no
    [SubmitData] for that same pair succeeds. No other transaction leads
    back to pending; a successful [SubmitData] for the pair replaces the
    record by a new pending one. *)
Theorem terminal_until_resubmitted (w : WorldState) deviceID timestamp r invs :
  result (GetDataRecord deviceID timestamp) w = Ok r -> terminal r ->
  notResubmitted deviceID timestamp invs w ->
  exists r',
    result (GetDataRecord deviceID timestamp) (run invs w) = Ok r' /\
    terminal r' /\ DataRecord.Status r' <> "pending".
Proof.
  revert w r. induction invs as [|i invs IH]; intros w r Hget Hterm Hno.
  - exists r. split; [done|]. split; [done|]. by destruct Hterm as [-> | ->].
  - destruct Hno as [Hi Hno].
    destruct (terminal_step w deviceID timestamp i r Hget Hterm Hi)
      as (r1 & Hget1 & Hterm1).
    apply (IH _ _ Hget1 Hterm1 Hno).
Qed.

Lemma terminal_until_resubmitted_witness :
  let w := run [InvokeRegisterDevice "dev-1" "alice" "lab-A";
                InvokeSubmitData "dev-1" "t0" "temp=21.5";
                InvokeVerifyData "dev-1" "t0" "ver-1" true] ∅ in
  let invs := [InvokeSubmitData "dev-1" "t1" "temp=22.0";
               InvokeVerifyData "dev-1" "t0" "ver-2" false;
               InvokeRegisterDevice (keyOf "dev-1" "t0") "mallory" "lab-M"] in
  exists r',
    result (GetDataRecord "dev-1" "t0") (run invs w) = Ok r' /\
    terminal r' /\ DataRecord.Status r' <> "pending".
Proof.
  intros w invs.
  apply (terminal_until_resubmitted w "dev-1" "t0"
           (verdict "ver-1" true (newDataRecord "dev-1" "t0" "temp=21.5")) invs).
  - by vm_compute.
  - by left.
  - simpl. repeat split; intros data Heq; discriminate Heq.
Defined.

(** ** Referential integrity *)

(** C7 fails on the code. [RegisterDevice] writes the device under its id
    as it is, and the id may be the composite key of a data record: from the
    empty state, registering a device whose id is the key of ("d", "t")
    leads to a state where [GetDataRecord("d", "t")] returns a record
    although neither "d" nor the device the record names is registered. *)
Theorem referential_integrity_broken :
  let w := run [InvokeRegisterDevice (keyOf "d" "t") "o" "l"] ∅ in
  reachable w /\
  exists r,
    result (GetDataRecord "d" "t") w = Ok r /\
    ~ registered w "d" /\
    ~ registered w (DataRecord.DeviceID r).
Proof.
  intros w. split; [by eexists|].
  eexists. split; [by vm_compute|].
  split; vm_compute; by intros [? [=]].
Qed.

Lemma keyOf_not_plain d t : ~ plainKey (keyOf d t).
Proof. intros H. by apply H. Qed.

Lemma registered_insert (w : WorldState) k v d :
  registered w d -> registered (<[k := v]> w) d.
Proof.
  unfold registered. intros Hd. destruct (decide (k = d)) as [->|Hne].
  - rewrite lookup_insert_eq. eauto.
  - by rewrite lookup_insert_ne.
Qed.

Lemma recordsRefer_insert_plain (w : WorldState) k v :
  plainKey k -> recordsRefer w -> recordsRefer (<[k := v]> w).
Proof.
  intros Hk Hw k' raw Hraw Hnp.
  destruct (decide (k = k')) as [->|Hne]; [done|].
  rewrite lookup_insert_ne in Hraw by done.
  destruct (Hw k' raw Hraw Hnp) as (d & t & r & ? & ? & ? & ? & ?).
  exists d, t, r. eauto 10 using registered_insert.
Qed.

Lemma recordsRefer_insert_record (w : WorldState) d t k (r : DataRecord.t) :
  dataKey d t = Ok k -> registered w d ->
  DataRecord.DeviceID r = d -> DataRecord.Timestamp r = t ->
  recordsRefer w -> recordsRefer (<[k := marshalled r]> w).
Proof.
  intros Hk Hd Hrd Hrt Hw k' raw Hraw Hnp.
  destruct (decide (k = k')) as [<-|Hne].
  - rewrite lookup_insert_eq in Hraw. injection Hraw as <-.
    exists d, t, (coerceDataRecord r). split; [done|].
    unfold marshalled. rewrite Unmarshal_Marshal_DataRecord. split; [done|].
    apply dataKey_inv in Hk as (_ & Hvd & Hvt).
    apply validateCompositeKeyAttribute_no_NUL in Hvd as [Hvd _], Hvt as [Hvt _].
    simpl. rewrite Hrd, Hrt, !json_facts.toValidUTF8_valid by done.
    eauto using registered_insert.
  - rewrite lookup_insert_ne in Hraw by done.
    destruct (Hw k' raw Hraw Hnp) as (d' & t' & r' & ? & ? & ? & ? & ?).
    exists d', t', r'. eauto 10 using registered_insert.
Qed.

Lemma recordsRefer_invoke (w : WorldState) i :
  (forall d o l, i = InvokeRegisterDevice d o l -> plainKey d) ->
  recordsRefer w -> recordsRefer (invoke w i).
Proof.
  intros Hplain Hw. rewrite invoke_eq. unfold state.
  destruct i as [d o l|d|d t x|d t v b|d|d t]; try done.
  - rewrite RegisterDevice_eq. destruct (w !! d); [done|].
    destruct (String.eqb d EmptyString); [done|]. simpl.
    apply recordsRefer_insert_plain; eauto.
  - rewrite SubmitData_eq. destruct (w !! d) eqn:Hd; [|done].
    destruct (dataKey d t) as [k|e] eqn:Hk; [|done]. simpl.
    apply (recordsRefer_insert_record w d t); try done.
    unfold registered. rewrite Hd. eauto.
  - rewrite VerifyData_eq. destruct (dataKey d t) as [k|e] eqn:Hk; [|done].
    destruct (w !! k) as [raw|] eqn:Hraw; [|done].
    destruct (json.Unmarshal raw DataRecord.zero) as [r|e] eqn:Hr; [|done].
    simpl.
    destruct (Hw k raw Hraw) as (d' & t' & r' & Hk' & Hr' & Hd' & Ht' & Hreg).
    { pose proof (dataKey_inv _ _ _ Hk) as [-> _]. apply keyOf_not_plain. }
    destruct (dataKey_inj _ _ _ _ _ Hk' Hk) as [-> ->].
    assert (r' = r) as -> by congruence.
    apply (recordsRefer_insert_record w d t); done.
Qed.

Lemma recordsRefer_run invs : forall w : WorldState,
  registersPlainKeys invs -> recordsRefer w -> recordsRefer (run invs w).
Proof.
  induction invs as [|i invs IH]; intros w Hplain Hw; [done|].
  assert (registersPlainKeys invs) as Hplain'.
  { intros d o l Hin. apply (Hplain d o l). by right. }
  assert (recordsRefer (invoke w i)) as Hw'.
  { apply recordsRefer_invoke; [|done].
    intros d o l ->. apply (Hplain d o l). by left. }
  exact (IH _ Hplain' Hw').
Qed.

(** What holds of C7: in every state reached from the empty one by
    invocations that register devices under plain keys only (ids that do not
    begin with U+0000), every record [GetDataRecord] returns names the
    device it was asked for, and that device is registered. *)
Lemma referential_integrity_plain_keys invs deviceID timestamp r :
  registersPlainKeys invs ->
  result (GetDataRecord deviceID timestamp) (run invs ∅) = Ok r ->
  DataRecord.DeviceID r = deviceID /\ registered (run invs ∅) deviceID.
Proof.
  intros Hplain (k & raw & Hk & Hraw & Hr)%GetDataRecord_Ok_inv.
  assert (recordsRefer ∅) as Hempty.
  { intros k' raw' Hl. by rewrite lookup_empty in Hl. }
  destruct (recordsRefer_run invs ∅ Hplain Hempty k raw Hraw)
    as (d' & t' & r' & Hk' & Hr' & Hd' & Ht' & Hreg).
  { pose proof (dataKey_inv _ _ _ Hk) as [-> _]. apply keyOf_not_plain. }
  destruct (dataKey_inj _ _ _ _ _ Hk' Hk) as [-> ->].
  assert (r' = r) as -> by congruence. done.
Qed.

(** ** What Unmarshal returns is valid UTF-8 *)

Module valid_facts.
Import utf8 json utf8_facts json_facts.

Lemma byte_lor (k t y : Z) :
  0 <= k -> t mod 2 ^ k = 0 -> 0 <= y < 2 ^ k -> 0 <= t -> t + y < 256 ->
  b2z (z2b (Z.lor t y)) = t + y.
Proof.
  intros Hk Ht Hy Ht0 Hlt. rewrite (lor_add k) by done. apply b2z_z2b. lia.
Qed.

Ltac byte_val k :=
  unfold tx, t2, t3, t4; unmask; rewrite (byte_lor k);
  [reflexivity|lia
  |let p := eval vm_compute in (2 ^ k) in change (2 ^ k) with p; arith
  |let p := eval vm_compute in (2 ^ k) in change (2 ^ k) with p; arith
  |lia|arith].

Lemma EncodeRune_Encoding r : 0 <= r -> exists c, Encoding (EncodeRune r) c.
Proof.
  intros Hr. unfold EncodeRune, encode3.
  unfold rune1Max, rune2Max, rune3Max, MaxRune, surrogateMin, surrogateMax.
  destruct (Z.leb_spec r 127).
  { eexists. apply Encoding1. rewrite b2z_z2b; lia. }
  destruct (Z.leb_spec r 2047).
  { assert (b2z (z2b (Z.lor t2 (Z.shiftr r 6))) = 0xC0 + r / 64) as Hb0
      by byte_val 6.
    assert (b2z (z2b (Z.lor tx (Z.land r maskx))) = 0x80 + r mod 64) as Hb1
      by byte_val 7.
    eexists. apply Encoding2; rewrite ?Hb0, ?Hb1; arith. }
  destruct (Z.ltb_spec 1114111 r); cbn [orb].
  { exists RuneError. by vm_compute; apply Encoding3. }
  destruct (Z.leb_spec 55296 r); cbn [andb].
  { destruct (Z.leb_spec r 57343); cbn [andb].
    { exists RuneError. by vm_compute; apply Encoding3. }
    destruct (Z.leb_spec r 65535).
    - assert (b2z (z2b (Z.lor t3 (Z.shiftr r 12))) = 0xE0 + r / 4096) as Hb0
        by byte_val 5.
      assert (b2z (z2b (Z.lor tx (Z.land (Z.shiftr r 6) maskx))) =
              0x80 + (r / 64) mod 64) as Hb1 by byte_val 7.
      assert (b2z (z2b (Z.lor tx (Z.land r maskx))) = 0x80 + r mod 64) as Hb2
        by byte_val 7.
      eexists. apply Encoding3; rewrite ?Hb0, ?Hb1, ?Hb2;
        unfold secondLo, secondHi; zcases_all; arith.
    - assert (b2z (z2b (Z.lor t4 (Z.shiftr r 18))) = 0xF0 + r / 262144) as Hb0
        by byte_val 4.
      assert (b2z (z2b (Z.lor tx (Z.land (Z.shiftr r 12) maskx))) =
              0x80 + (r / 4096) mod 64) as Hb1 by byte_val 7.
      assert (b2z (z2b (Z.lor tx (Z.land (Z.shiftr r 6) maskx))) =
              0x80 + (r / 64) mod 64) as Hb2 by byte_val 7.
      assert (b2z (z2b (Z.lor tx (Z.land r maskx))) = 0x80 + r mod 64) as Hb3
        by byte_val 7.
      eexists. apply Encoding4; rewrite ?Hb0, ?Hb1, ?Hb2, ?Hb3;
        unfold secondLo, secondHi; zcases_all; arith. }
  destruct (Z.leb_spec r 65535); [|lia].
  assert (b2z (z2b (Z.lor t3 (Z.shiftr r 12))) = 0xE0 + r / 4096) as Hb0
    by byte_val 5.
  assert (b2z (z2b (Z.lor tx (Z.land (Z.shiftr r 6) maskx))) =
          0x80 + (r / 64) mod 64) as Hb1 by byte_val 7.
  assert (b2z (z2b (Z.lor tx (Z.land r maskx))) = 0x80 + r mod 64) as Hb2
    by byte_val 7.
  eexists. apply Encoding3; rewrite ?Hb0, ?Hb1, ?Hb2;
    unfold secondLo, secondHi; zcases_all; arith.
Qed.


Lemma validBytes_app_Encoding w c rest :
  Encoding w c -> validBytes rest -> validBytes (w ++ rest).
Proof.
  intros Henc Hrest. unfold validBytes.
  pose proof (Encoding_range _ _ Henc) as (_ & _ & Hl & _).
  rewrite (chunks_app_step _ w rest false).
  - done.
  - destruct w; [simpl in Hl; lia|done].
  - unfold invalidAt. rewrite (Encoding_decode _ _ _ Henc).
    by rewrite (Encoding_not_invalid _ _ Henc).
Qed.

Lemma validBytes_concat (outs : list bytes) :
  Forall (fun out => exists c, Encoding out c) outs -> validBytes (concat outs).
Proof.
  induction 1 as [|out outs [c Hc] _ IH]; [done|].
  simpl. by apply (validBytes_app_Encoding _ c).
Qed.

Lemma Forall_chunks {A} (P : A -> Prop) (step : bytes -> A * nat) :
  (forall s, s <> [] -> P (step s).1) ->
  forall s k, Forall P (chunks step k s).
Proof.
  intros Hstep. induction s as [|b t IH]; intros k; [constructor|].
  destruct k as [|k]; simpl; [|apply IH].
  pose proof (Hstep (b :: t) ltac:(done)) as Hb.
  destruct (step (b :: t)) as [a n]. constructor; [done|apply IH].
Qed.

Lemma ascii_Encoding (c : ascii) : b2z c < 0x80 -> exists r, Encoding [c] r.
Proof. intros Hc. eexists. by apply Encoding1. Qed.

Lemma DecodeRune_nonneg s : 0 <= (DecodeRune s).1.
Proof.
  destruct s as [|b t]; [done|].
  destruct (DecodeRune_cases b t) as [->|(w & rest & c & _ & Henc & ->)]; [done|].
  by apply Encoding_range in Henc as [[? _] _].
Qed.

Lemma utf16DecodeRune_nonneg r1 r2 : 0 <= utf16DecodeRune r1 r2.
Proof.
  unfold utf16DecodeRune. destruct (_ && _) eqn:Hs; [|done].
  apply andb_prop in Hs as [[[H1 H2]%andb_prop H3]%andb_prop H4].
  apply Z.leb_le in H1, H3. apply Z.ltb_lt in H2, H4.
  pose proof (Z.lor_nonneg (Z.shiftl (r1 - 55296) 10) (r2 - 56320)) as Hl.
  rewrite Z.shiftl_nonneg in Hl. lia.
Qed.

Lemma unquoteStep_Encoding s out :
  (unquoteStep s).1 = Some out -> exists c, Encoding out c.
Proof.
  unfold unquoteStep. destruct s as [|c t]; [done|].
  destruct (c =? backslash)%char.
  - destruct t as [|e t']; [done|].
    destruct (existsb _ _) eqn:He.
    { intros [= <-]. apply ascii_Encoding.
      simpl in He. repeat (apply orb_prop in He as [He|He]); try done;
        apply Ascii.eqb_eq in He as ->; by vm_compute. }
    do 5 (match goal with
          | |- context [ (e =? ?x)%char ] => destruct (e =? x)%char
          end; [intros [= <-]; apply ascii_Encoding; by vm_compute|]).
    destruct (e =? "u")%char; [|done]. cbn [fst].
    destruct (Z.ltb_spec (getu4 (c :: e :: t')) 0); [done|].
    destruct (IsSurrogate _).
    + destruct (negb _); intros [= <-]; apply EncodeRune_Encoding.
      * apply utf16DecodeRune_nonneg.
      * done.
    + intros [= <-]. by apply EncodeRune_Encoding.
  - destruct ((c =? dquote)%char || (b2z c <? 32)); [done|].
    destruct (Z.ltb_spec (b2z c) RuneSelf).
    + intros [= <-]. by apply ascii_Encoding.
    + pose proof (DecodeRune_nonneg (c :: t)) as Hn.
      destruct (DecodeRune (c :: t)) as [rr size]. intros [= <-].
      by apply EncodeRune_Encoding.
Qed.

Lemma mapM_id_inv {A} (l : list (option A)) (outs : list A) :
  mapM id l = Some outs -> l = map Some outs.
Proof.
  revert outs. induction l as [|[x|] l IH]; intros outs; simpl.
  - by intros [= <-].
  - destruct (mapM id l) as [outs'|]; [|done]. simpl. intros [= <-].
    by rewrite (IH outs').
  - done.
Qed.

Lemma bytes_of_string_of_bytes (l : bytes) : bytes_of_string (string_of_bytes l) = l.
Proof. apply list_ascii_of_string_of_list_ascii. Qed.

Lemma unquote_valid body str : unquote body = Some str -> ValidString str = true.
Proof.
  unfold unquote. destruct (mapM id _) as [outs|] eqn:Hm; [|done].
  simpl. intros [= <-]. unfold ValidString.
  rewrite bytes_of_string_of_bytes. apply validBytes_concat.
  apply mapM_id_inv in Hm.
  pose proof (Forall_chunks
    (fun o => forall out, o = Some out -> exists c, Encoding out c) unquoteStep
    (fun s _ out => unquoteStep_Encoding s out) body 0%nat) as Hall.
  rewrite Hm in Hall. apply Forall_map in Hall.
  eapply Forall_impl; [exact Hall|]. simpl. eauto.
Qed.

Lemma parseString_valid s str rest :
  parseString s = Some (str, rest) -> ValidString str = true.
Proof.
  unfold parseString. destruct (scanString s) as [[body rest']|]; [|done].
  simpl. destruct (unquote body) as [str'|] eqn:Hu; [|done].
  simpl. intros [= <- _]. by apply unquote_valid in Hu.
Qed.


Lemma parse_valid fuel : forall depth s,
  (forall v rest, parseValue fuel depth s = Some (v, rest) -> validValue v) /\
  (forall ms rest, parseMembers fuel depth s = Some (ms, rest) ->
                   Forall validMember ms).
Proof.
  induction fuel as [|fuel IH]; intros depth s; [done|]. split.
  - intros v rest. cbn [parseValue].
    destruct (skipSpace s) as [|c t]; [done|].
    repeat match goal with
    | |- context [ if ?b then _ else _ ] => destruct b
    end; try done.
    + destruct (skipSpace t) as [|c' t']; [done|].
      destruct (c' =? "}")%char; [by intros [= <- _]; constructor|].
      destruct (parseMembers fuel (depth + 1) (c' :: t')) as [[ms rest']|] eqn:Hm;
        [|done].
      simpl. intros [= <- _]. by apply (proj2 (IH _ _)) in Hm.
    + destruct (skipSpace t) as [|c' t']; [done|].
      destruct (c' =? "]")%char; [by intros [= <- _]|].
      destruct (parseElements fuel (depth + 1) (c' :: t')) as [[vs rest']|];
        [|done].
      simpl. by intros [= <- _].
    + destruct (parseString t) as [[str rest']|] eqn:Hs; [|done].
      simpl. intros [= <- _]. by apply parseString_valid in Hs.
    + destruct (scanLiteral _ _); simpl; [|done]. by intros [= <- _].
    + destruct (scanLiteral _ _); simpl; [|done]. by intros [= <- _].
    + destruct (scanLiteral _ _); simpl; [|done]. by intros [= <- _].
    + destruct (scanNumber _); simpl; [|done]. by intros [= <- _].
  - intros ms rest. cbn [parseMembers].
    destruct (skipSpace s) as [|c t]; [done|].
    destruct (c =? dquote)%char; [|done].
    destruct (parseString t) as [[key t1]|]; [|done]. simpl.
    destruct (skipSpace t1) as [|c1 t2]; [done|].
    destruct (c1 =? ":")%char; [|done].
    destruct (parseValue fuel depth t2) as [[v t3]|] eqn:Hv; [|done]. simpl.
    apply (proj1 (IH _ _)) in Hv.
    assert (validMember (key, v)) as Hkv.
    { unfold validMember. simpl. by destruct v. }
    destruct (skipSpace t3) as [|c3 t4]; [done|].
    destruct (c3 =? ",")%char.
    + destruct (parseMembers fuel depth t4) as [[ms' rest']|] eqn:Hm; [|done].
      simpl. intros [= <- _]. apply (proj2 (IH _ _)) in Hm. by constructor.
    + destruct (c3 =? "}")%char; [|done]. intros [= <- _].
      by repeat constructor.
Qed.

Lemma parse_Object_valid data ms :
  parse data = Some (Object ms) -> Forall validMember ms.
Proof.
  unfold parse.
  destruct (parseValue _ 0 data) as [[v rest]|] eqn:Hv; [|done]. simpl.
  destruct (skipSpace rest); [|done]. intros [= ->].
  by apply (proj1 (parse_valid _ _ _)) in Hv.
Qed.

End valid_facts.

Lemma validDataRecord_setField i s r :
  utf8.ValidString s = true -> validDataRecord r ->
  validDataRecord (json.setField i s r).
Proof.
  intros Hs (H1 & H2 & H3 & H4 & H5). unfold validDataRecord.
  destruct i as [|[|[|[|i]]]]; simpl; done.
Qed.

Lemma validDevice_setField i s d :
  utf8.ValidString s = true -> validDevice d -> validDevice (json.setField i s d).
Proof.
  intros Hs (H1 & H2 & H3 & H4). unfold validDevice.
  destruct i as [|[|[|i]]]; simpl; done.
Qed.

Lemma object_valid_DataRecord ms : forall r,
  Forall json.validMember ms -> validDataRecord r ->
  validDataRecord (json.object ms r).1.
Proof.
  induction ms as [|[key v] ms IH]; intros r Hms Hr; [done|].
  inversion Hms as [|? ? Hv Hms']; subst. cbn [json.object].
  destruct (json.findField _ key) as [i|]; [|by apply IH].
  destruct v; try (by apply IH);
    try (specialize (IH r Hms' Hr); by destruct (json.object ms r)).
  apply IH; [done|]. by apply validDataRecord_setField.
Qed.

Lemma object_valid_Device ms : forall d,
  Forall json.validMember ms -> validDevice d ->
  validDevice (json.object ms d).1.
Proof.
  induction ms as [|[key v] ms IH]; intros d Hms Hd; [done|].
  inversion Hms as [|? ? Hv Hms']; subst. cbn [json.object].
  destruct (json.findField _ key) as [i|]; [|by apply IH].
  destruct v; try (by apply IH);
    try (specialize (IH d Hms' Hd); by destruct (json.object ms d)).
  apply IH; [done|]. by apply validDevice_setField.
Qed.

(** Whatever bytes [json.Unmarshal] accepts, the record it returns has
    fields that are valid UTF-8. *)
Lemma Unmarshal_valid_DataRecord raw r :
  json.Unmarshal raw DataRecord.zero = Ok r -> validDataRecord r.
Proof.
  unfold json.Unmarshal.
  destruct (json.parse raw) as [[| | | |?|ms]|] eqn:Hp; try done.
  - intros [= <-]. by vm_compute.
  - pose proof (object_valid_DataRecord ms DataRecord.zero
                  (valid_facts.parse_Object_valid _ _ Hp) ltac:(by vm_compute)) as Hv.
    destruct (json.object ms DataRecord.zero) as [v' []]; [|done].
    by intros [= <-].
Qed.

Lemma Unmarshal_valid_Device raw d :
  json.Unmarshal raw Device.zero = Ok d -> validDevice d.
Proof.
  unfold json.Unmarshal.
  destruct (json.parse raw) as [[| | | |?|ms]|] eqn:Hp; try done.
  - intros [= <-]. by vm_compute.
  - pose proof (object_valid_Device ms Device.zero
                  (valid_facts.parse_Object_valid _ _ Hp) ltac:(by vm_compute)) as Hv.
    destruct (json.object ms Device.zero) as [v' []]; [|done].
    by intros [= <-].
Qed.

(** ** The frame of VerifyData *)

(** C10: if the key of [(deviceID, timestamp)] holds a value that
    unmarshals as a DataRecord [r], [VerifyData] succeeds, writes that key
    and no other (every other key holds what it held), and the record
    stored afterwards has the [deviceID], [timestamp] and [data] of [r]:
    only the status and the verifier change. *)
Theorem VerifyData_frame (w : WorldState)
    deviceID timestamp verifierID isValid k raw r :
  dataKey deviceID timestamp = Ok k -> w !! k = Some raw ->
  json.Unmarshal raw DataRecord.zero = Ok r ->
  let w' := state (VerifyData deviceID timestamp verifierID isValid) w in
  result (VerifyData deviceID timestamp verifierID isValid) w = Ok tt /\
  (forall k', k' <> k -> w' !! k' = w !! k') /\
  (forall k' v, In (PutStateCall k' v)
                   (calls (VerifyData deviceID timestamp verifierID isValid) w) ->
                k' = k) /\
  exists raw' r',
    w' !! k = Some raw' /\
    json.Unmarshal raw' DataRecord.zero = Ok r' /\
    result (GetDataRecord deviceID timestamp) w' = Ok r' /\
    DataRecord.DeviceID r' = DataRecord.DeviceID r /\
    DataRecord.Timestamp r' = DataRecord.Timestamp r /\
    DataRecord.Data r' = DataRecord.Data r.
Proof.
  intros Hk Hw Hr. unfold result, state, calls.
  rewrite VerifyData_eq, Hk, Hw, Hr. cbn [fst snd].
  split; [done|]. split; [intros k' Hne; by rewrite lookup_insert_ne|].
  split.
  { intros k' v [H|[H|[]]]; [done|]. by injection H as <- _. }
  rewrite GetDataRecord_eq, Hk, lookup_insert_eq. unfold marshalled.
  rewrite Unmarshal_Marshal_DataRecord.
  eexists _, _. split; [reflexivity|]. split; [apply Unmarshal_Marshal_DataRecord|].
  split; [reflexivity|].
  destruct (Unmarshal_valid_DataRecord _ _ Hr) as (H1 & H2 & H3 & _).
  simpl. by rewrite !json_facts.toValidUTF8_valid.
Qed.

Lemma VerifyData_frame_witness :
  let w := run [InvokeRegisterDevice "dev-1" "alice" "lab-A";
                InvokeSubmitData "dev-1" "t0" "temp=21.5";
                InvokeSubmitData "dev-1" "t1" "temp=22.0"] ∅ in
  let w' := state (VerifyData "dev-1" "t0" "ver-1" true) w in
  result (VerifyData "dev-1" "t0" "ver-1" true) w = Ok tt /\
  w' !! keyOf "dev-1" "t1" = w !! keyOf "dev-1" "t1" /\
  exists r',
    result (GetDataRecord "dev-1" "t0") w' = Ok r' /\
    DataRecord.Data r' = "temp=21.5".
Proof.
  intros w w'.
  destruct (VerifyData_frame w "dev-1" "t0" "ver-1" true (keyOf "dev-1" "t0")
              (marshalled (newDataRecord "dev-1" "t0" "temp=21.5"))
              (newDataRecord "dev-1" "t0" "temp=21.5"))
    as (Hres & Hother & _ & raw' & r' & _ & _ & Hget & _ & _ & Hdata);
    [by vm_compute..|].
  split; [exact Hres|]. split; [by apply Hother|].
  exists r'. split; [exact Hget|exact Hdata].
Defined.

(** ** The model on concrete inputs *)

(** The euro sign, U+20AC, is the three bytes E2 82 AC. *)
Example DecodeRune_euro :
  utf8.DecodeRune (map z2b [0xE2; 0x82; 0xAC; 0x41]) = (0x20AC, 3%nat) /\
  utf8.EncodeRune 0x20AC = map z2b [0xE2; 0x82; 0xAC].
Proof. by vm_compute. Qed.

(** Overlong forms, surrogates and truncated sequences are invalid. *)
Example DecodeRune_invalid :
  utf8.DecodeRune (map z2b [0xC0; 0x80]) = (utf8.RuneError, 1%nat) /\
  utf8.DecodeRune (map z2b [0xED; 0xA0; 0x80]) = (utf8.RuneError, 1%nat) /\
  utf8.DecodeRune (map z2b [0xE2; 0x82]) = (utf8.RuneError, 1%nat) /\
  utf8.DecodeRune (map z2b [0xF4; 0x90; 0x80; 0x80]) = (utf8.RuneError, 1%nat).
Proof. by vm_compute. Qed.

(** [appendString] escapes the quote, control characters and the
    characters of HTML, and writes a byte that is not UTF-8 as U+FFFD. *)
Example appendString_escapes :
  json.appendString (string_of_bytes (map z2b [0x61; 0x22; 0x0A; 0x3C])) =
    [json.dquote; "a"; json.backslash; json.dquote; json.backslash; "n";
     json.backslash; "u"; "0"; "0"; "3"; "c"; json.dquote]%char /\
  json.appendString xFF =
    [json.dquote; json.backslash; "u"; "f"; "f"; "f"; "d"; json.dquote]%char.
Proof. by vm_compute. Qed.

(** A device is marshalled with its four fields in order; a record with an
    empty verifier is marshalled without that field. *)
Example Marshal_examples :
  json.Marshal (newDevice "d" "o" "l") =
    Ok ("{"%char :: json.appendString "id" ++ ":"%char :: json.appendString "d" ++
        ","%char :: json.appendString "owner" ++ ":"%char :: json.appendString "o" ++
        ","%char :: json.appendString "location" ++ ":"%char :: json.appendString "l" ++
        ","%char :: json.appendString "status" ++ ":"%char :: json.appendString "active" ++
        ["}"%char]) /\
  json.Marshal (newDataRecord "d" "t" "x") =
    Ok ("{"%char :: json.appendString "deviceID" ++ ":"%char :: json.appendString "d" ++
        ","%char :: json.appendString "timestamp" ++ ":"%char :: json.appendString "t" ++
        ","%char :: json.appendString "data" ++ ":"%char :: json.appendString "x" ++
        ","%char :: json.appendString "status" ++ ":"%char :: json.appendString "pending" ++
        ["}"%char]).
Proof. by vm_compute. Qed.

(** [Unmarshal] takes the members it knows, in any letter case, skips the
    others, and refuses a member of the wrong type and text that is no
    JSON. *)
Example Unmarshal_examples :
  let q := json.appendString in
  json.Unmarshal ("{"%char :: q "STATUS" ++ ":"%char :: q "verified" ++
                  ","%char :: q "extra" ++ bytes_of_string ":[1,{}]" ++
                  ","%char :: q "data" ++ bytes_of_string ": null }")
                 DataRecord.zero =
    Ok (DataRecord.setStatus "verified" DataRecord.zero) /\
  json.Unmarshal ("{"%char :: q "status" ++ bytes_of_string ":1}") DataRecord.zero =
    Err UnmarshalTypeError /\
  json.Unmarshal ("{"%char :: q "status" ++ bytes_of_string ":}") DataRecord.zero =
    Err SyntaxError /\
  json.Unmarshal (bytes_of_string "null") DataRecord.zero = Ok DataRecord.zero.
Proof. by vm_compute. Qed.

(** Composite keys: the key of a pair, and the attributes the stub
    refuses. *)
Example dataKey_examples :
  dataKey "dev-1" "t0" = Ok (keyOf "dev-1" "t0") /\
  dataKey "dev-1" xFF = Err (NotValidUTF8 xFF) /\
  dataKey (String.String NUL EmptyString) "t0" = Err (ForbiddenRune (String.String NUL EmptyString)).
Proof. by vm_compute. Qed.

(** The scenario of the specification: register, submit, verify, read. *)
Example scenario :
  let w := run [InvokeRegisterDevice "dev-1" "alice" "lab-A";
                InvokeSubmitData "dev-1" "2024-01-01T00:00:00Z" "temp=21.5";
                InvokeVerifyData "dev-1" "2024-01-01T00:00:00Z" "ver-1" true] ∅ in
  result (GetDataRecord "dev-1" "2024-01-01T00:00:00Z") w =
  Ok {| DataRecord.DeviceID := "dev-1";
        DataRecord.Timestamp := "2024-01-01T00:00:00Z";
        DataRecord.Data := "temp=21.5";
        DataRecord.Status := "verified";
        DataRecord.VerifierID := "ver-1" |}.
Proof. by vm_compute. Qed.

(** [VerifyData] on a pair that has no record returns NotFound. *)
Example VerifyData_not_found :
  result (VerifyData "dev-1" "t0" "ver-1" true) ∅ =
    Err (DataRecordDoesNotExist "dev-1" "t0") /\
  errorKind (DataRecordDoesNotExist "dev-1" "t0") = ErrorKind.NotFound.
Proof. by vm_compute. Qed.

(** The empty device id cannot be registered: the stub refuses the key. *)
Example RegisterDevice_empty_id :
  result (RegisterDevice EmptyString "alice" "lab-A") ∅ = Err KeyMustNotBeEmpty /\
  state (RegisterDevice EmptyString "alice" "lab-A") ∅ = ∅.
Proof. by vm_compute. Qed.

(** * Further properties of the transactions *)

(** ** Errors and edge cases *)

(** X1: [VerifyData] for a pair whose key holds no value returns "data
    record ... does not exist" (NotFound), after one read and no write,
    and leaves the world state as it found it. *)
Theorem VerifyData_missing_record (w : WorldState)
    deviceID timestamp verifierID isValid k :
  dataKey deviceID timestamp = Ok k -> w !! k = None ->
  result (VerifyData deviceID timestamp verifierID isValid) w =
    Err (DataRecordDoesNotExist deviceID timestamp) /\
  errorKind (DataRecordDoesNotExist deviceID timestamp) = ErrorKind.NotFound /\
  state (VerifyData deviceID timestamp verifierID isValid) w = w /\
  calls (VerifyData deviceID timestamp verifierID isValid) w = [GetStateCall k].
Proof.
  intros Hk Hnone. unfold result, state, calls.
  by rewrite VerifyData_eq, Hk, Hnone.
Qed.

Lemma VerifyData_missing_record_witness :
  let w := run [InvokeRegisterDevice "dev-1" "alice" "lab-A";
                InvokeSubmitData "dev-1" "t0" "temp=21.5"] ∅ in
  dataKey "dev-1" "t1" = Ok (keyOf "dev-1" "t1") /\
  w !! keyOf "dev-1" "t1" = None /\
  result (VerifyData "dev-1" "t1" "ver-1" true) w =
    Err (DataRecordDoesNotExist "dev-1" "t1") /\
  state (VerifyData "dev-1" "t1" "ver-1" true) w = w.
Proof.
  intros w. split; [by vm_compute|]. split; [by vm_compute|].
  destruct (VerifyData_missing_record w "dev-1" "t1" "ver-1" true
              (keyOf "dev-1" "t1")) as (H1 & _ & H2 & _); [by vm_compute..|].
  by split.
Defined.

(** X2: [GetDevice] and [DeviceExists] agree. [GetDevice] returns "device
    ... does not exist" exactly when [DeviceExists] returns false; when
    [DeviceExists] returns true, [GetDevice] returns a device or fails to
    unmarshal the stored value. Both read the key once and write nothing. *)
Theorem GetDevice_agrees_with_DeviceExists (w : WorldState) deviceID :
  (result (GetDevice deviceID) w = Err (DeviceDoesNotExist deviceID) <->
   result (DeviceExists deviceID) w = Ok false) /\
  ((exists d, result (GetDevice deviceID) w = Ok d) \/
   (exists e, result (GetDevice deviceID) w = Err (FailedToUnmarshalDeviceJSON e)) <->
   result (DeviceExists deviceID) w = Ok true) /\
  state (GetDevice deviceID) w = w /\
  state (DeviceExists deviceID) w = w /\
  calls (GetDevice deviceID) w = [GetStateCall deviceID] /\
  calls (DeviceExists deviceID) w = [GetStateCall deviceID].
Proof.
  unfold result, state, calls. rewrite GetDevice_eq, DeviceExists_eq.
  destruct (w !! deviceID) as [raw|] eqn:Hraw; simpl.
  - destruct (json.Unmarshal raw Device.zero) as [d|e]; simpl;
      (split; [split; intros; congruence|]);
      (split; [|done]); (split; [done|]); intros _; eauto.
  - split; [done|]. split; [|done].
    split; [|done]. by intros [[d Hd]|[e He]].
Qed.

(** X3: [RegisterDevice] succeeds exactly when the key [deviceID] holds no
    value and [deviceID] is not the empty string. On success it puts the
    marshalled device under [deviceID]; where the key holds a value it
    returns "already registered"; for the empty id, which the stub refuses
    as a key, it returns the stub's error. In both failures the world
    state is left as it was. *)
Theorem RegisterDevice_succeeds_iff (w : WorldState) deviceID owner location :
  (result (RegisterDevice deviceID owner location) w = Ok tt <->
   ~ registered w deviceID /\ deviceID <> EmptyString) /\
  match result (RegisterDevice deviceID owner location) w with
  | Ok _ =>
      state (RegisterDevice deviceID owner location) w =
      <[deviceID := marshalled (newDevice deviceID owner location)]> w
  | Err e =>
      state (RegisterDevice deviceID owner location) w = w /\
      (e = DeviceAlreadyRegistered deviceID /\ registered w deviceID \/
       e = KeyMustNotBeEmpty /\ deviceID = EmptyString)
  end.
Proof.
  unfold result, state, registered. rewrite RegisterDevice_eq.
  destruct (w !! deviceID) as [raw|] eqn:Hraw; simpl.
  - split; [|by eauto]. split; [done|]. intros [[] _]. eauto.
  - destruct (String.eqb_spec deviceID EmptyString) as [->|Hne]; simpl.
    + split; [|by eauto]. split; [done|]. by intros [_ []].
    + split; [|done]. split; [|done]. intros _. split; [|done].
      by intros [? ?].
Qed.

(** X4: [SubmitData] succeeds exactly when the key [deviceID] holds a value
    and [deviceID] and [timestamp] are attributes the stub accepts for a
    composite key (valid UTF-8 without U+0000 and U+10FFFF). The composite
    key is never empty, so [PutState] never refuses it. On success the
    pending record is under the composite key; on failure nothing is
    written. *)
Theorem SubmitData_succeeds_iff (w : WorldState) deviceID timestamp data :
  (result (SubmitData deviceID timestamp data) w = Ok tt <->
   registered w deviceID /\
   shim.validateCompositeKeyAttribute deviceID = Ok tt /\
   shim.validateCompositeKeyAttribute timestamp = Ok tt) /\
  match result (SubmitData deviceID timestamp data) w with
  | Ok _ =>
      state (SubmitData deviceID timestamp data) w =
      <[keyOf deviceID timestamp :=
          marshalled (newDataRecord deviceID timestamp data)]> w
  | Err e =>
      state (SubmitData deviceID timestamp data) w = w /\
      (e = DeviceNotRegistered deviceID /\ ~ registered w deviceID \/
       exists e', e = FailedToCreateCompositeKey e' /\
                  dataKey deviceID timestamp = Err e')
  end.
Proof.
  unfold result, state, registered. rewrite SubmitData_eq.
  pose proof (dataKey_spec deviceID timestamp) as Hspec.
  destruct (w !! deviceID) as [raw|] eqn:Hraw; simpl.
  - destruct (dataKey deviceID timestamp) as [k|e]; simpl.
    + destruct Hspec as (-> & Hd & Ht). split; [|done].
      split; [|done]. intros _. eauto.
    + split; [|by eauto]. split; [done|]. intros (_ & Hd & Ht).
      destruct Hspec as [H|[_ H]]; congruence.
  - split.
    + split; [done|]. by intros [[] _].
    + split; [done|]. left. split; [done|]. by intros [].
Qed.

(** X5: [VerifyData] succeeds exactly when [GetDataRecord] for the same
    pair does, and otherwise fails the way [GetDataRecord] does: on the
    composite key, on a key that holds no value, or on a value that does
    not unmarshal. Whether the device is registered is not looked at. *)
Theorem VerifyData_fails_as_GetDataRecord (w : WorldState)
    deviceID timestamp verifierID isValid :
  match result (GetDataRecord deviceID timestamp) w with
  | Ok r =>
      result (VerifyData deviceID timestamp verifierID isValid) w = Ok tt
  | Err DataRecordNotFound =>
      result (VerifyData deviceID timestamp verifierID isValid) w =
      Err (DataRecordDoesNotExist deviceID timestamp)
  | Err e =>
      result (VerifyData deviceID timestamp verifierID isValid) w = Err e
  end.
Proof.
  unfold result. rewrite GetDataRecord_eq, VerifyData_eq.
  destruct (dataKey deviceID timestamp) as [k|e]; [|done]. simpl.
  destruct (w !! k) as [raw|]; [|done].
  by destruct (json.Unmarshal raw DataRecord.zero).
Qed.

(** X6: no transaction deletes. A key that holds a value holds one after
    any sequence of invocations: [DeviceExists] stays true, and [GetDevice]
    and [GetDataRecord] do not go back to "does not exist" and "not
    found". *)
Theorem nothing_is_deleted invs (w : WorldState) :
  (forall deviceID,
     result (DeviceExists deviceID) w = Ok true ->
     result (DeviceExists deviceID) (run invs w) = Ok true) /\
  (forall deviceID,
     result (GetDevice deviceID) (run invs w) = Err (DeviceDoesNotExist deviceID) ->
     result (GetDevice deviceID) w = Err (DeviceDoesNotExist deviceID)) /\
  (forall deviceID timestamp,
     result (GetDataRecord deviceID timestamp) (run invs w) = Err DataRecordNotFound ->
     result (GetDataRecord deviceID timestamp) w = Err DataRecordNotFound).
Proof.
  assert (forall k, (run invs w) !! k = None -> w !! k = None) as Hkeep.
  { intros k Hk. destruct (w !! k) as [v|] eqn:Hv; [|done].
    destruct (run_registered invs w k) as [v' Hv']; [by eauto|]. congruence. }
  unfold result. split; [|split].
  - intros d. rewrite !DeviceExists_eq. simpl. intros [= Hd].
    apply bool_decide_eq_true in Hd. f_equal. apply bool_decide_eq_true.
    intros Hnone. by apply Hd, Hkeep.
  - intros d. rewrite !GetDevice_eq.
    destruct (run invs w !! d) as [raw|] eqn:Hraw.
    + by destruct (json.Unmarshal raw Device.zero).
    + by rewrite (Hkeep _ Hraw).
  - intros d t. rewrite !GetDataRecord_eq.
    destruct (dataKey d t) as [k|e]; [|done].
    destruct (run invs w !! k) as [raw|] eqn:Hraw.
    + by destruct (json.Unmarshal raw DataRecord.zero).
    + by rewrite (Hkeep _ Hraw).
Qed.

(** ** How the transactions compose *)

(** An attribute the stub accepts is no composite key: it has no U+0000,
    and a composite key begins with one. *)
Lemma attribute_not_key deviceID timestamp k att :
  dataKey deviceID timestamp = Ok k ->
  shim.validateCompositeKeyAttribute att = Ok tt -> att <> k.
Proof.
  intros (-> & _)%dataKey_inv [_ Hatt]%validateCompositeKeyAttribute_no_NUL ->.
  by inversion Hatt.
Qed.

(** A verdict on a record read back keeps nothing of the verdict before. *)
Lemma verdict_verdict (r : DataRecord.t) verifierID isValid verifierID' isValid' :
  validDataRecord r ->
  verdict verifierID' isValid' (coerceDataRecord (verdict verifierID isValid r)) =
  verdict verifierID' isValid' r.
Proof.
  intros (H1 & H2 & H3 & _).
  unfold verdict, DataRecord.setVerifierID, DataRecord.setStatus, coerceDataRecord.
  cbn [DataRecord.DeviceID DataRecord.Timestamp DataRecord.Data
       DataRecord.Status DataRecord.VerifierID].
  by rewrite !json_facts.toValidUTF8_valid.
Qed.

(** X7: the last submission wins. Two [SubmitData] for the same pair leave
    the world state that the second alone leaves, and the second returns
    what it returns alone; nothing of the first record is kept. *)
Theorem SubmitData_last_wins (w : WorldState) deviceID timestamp data data' :
  state (SubmitData deviceID timestamp data')
        (state (SubmitData deviceID timestamp data) w) =
    state (SubmitData deviceID timestamp data') w /\
  result (SubmitData deviceID timestamp data')
         (state (SubmitData deviceID timestamp data) w) =
    result (SubmitData deviceID timestamp data') w.
Proof.
  unfold state, result. rewrite (SubmitData_eq _ _ data w).
  destruct (w !! deviceID) as [raw|] eqn:Hraw.
  - destruct (dataKey deviceID timestamp) as [k|e] eqn:Hk; simpl.
    + rewrite !SubmitData_eq, Hk, Hraw.
      assert (is_Some (<[k := marshalled (newDataRecord deviceID timestamp data)]> w
                       !! deviceID)) as [raw' ->].
      { apply registered_insert. by eexists. }
      simpl. by rewrite insert_insert_eq.
    + done.
  - done.
Qed.

(** X8: the last verdict wins. [VerifyData] does not look at the status it
    finds: two verifications of the same pair leave the world state that
    the second alone leaves, so a verified record can be rejected
    afterwards, and the verifier of the first verdict is forgotten. *)
Theorem VerifyData_last_wins (w : WorldState)
    deviceID timestamp verifierID isValid verifierID' isValid' :
  state (VerifyData deviceID timestamp verifierID' isValid')
        (state (VerifyData deviceID timestamp verifierID isValid) w) =
    state (VerifyData deviceID timestamp verifierID' isValid') w /\
  result (VerifyData deviceID timestamp verifierID' isValid')
         (state (VerifyData deviceID timestamp verifierID isValid) w) =
    result (VerifyData deviceID timestamp verifierID' isValid') w.
Proof.
  unfold state, result. rewrite (VerifyData_eq _ _ verifierID isValid w).
  destruct (dataKey deviceID timestamp) as [k|e] eqn:Hk; [|done].
  destruct (w !! k) as [raw|] eqn:Hraw; [|done].
  destruct (json.Unmarshal raw DataRecord.zero) as [r|e] eqn:Hr; [|done].
  cbn [fst snd]. rewrite !VerifyData_eq, Hk, Hraw, Hr, lookup_insert_eq.
  pose proof (Unmarshal_Marshal_DataRecord (verdict verifierID isValid r)) as Hu.
  fold (marshalled (verdict verifierID isValid r)) in Hu.
  cbn [fst snd]. rewrite !Hu. cbn [fst snd]. rewrite insert_insert_eq.
  split; [|done].
  do 2 f_equal. apply verdict_verdict.
  by eapply Unmarshal_valid_DataRecord.
Qed.

(** X9: records of different pairs do not meet. The composite key is
    injective, so [SubmitData] and [VerifyData] for one pair change nothing
    of what [GetDataRecord] returns for another pair. *)
Theorem records_independent (w : WorldState) d t d' t' :
  (d, t) <> (d', t') ->
  (forall data,
     result (GetDataRecord d t) (state (SubmitData d' t' data) w) =
     result (GetDataRecord d t) w) /\
  (forall verifierID isValid,
     result (GetDataRecord d t) (state (VerifyData d' t' verifierID isValid) w) =
     result (GetDataRecord d t) w).
Proof.
  intros Hne.
  assert (forall k k' v, dataKey d t = Ok k -> dataKey d' t' = Ok k' ->
            <[k' := v]> w !! k = w !! k) as Hother.
  { intros k k' v Hk Hk'. rewrite lookup_insert_ne; [done|]. intros ->.
    destruct (dataKey_inj _ _ _ _ _ Hk Hk') as [-> ->]. done. }
  assert (forall w' : WorldState,
            (forall k, dataKey d t = Ok k -> w' !! k = w !! k) ->
            result (GetDataRecord d t) w' = result (GetDataRecord d t) w) as Hget.
  { intros w' Hw'. unfold result. rewrite !GetDataRecord_eq.
    destruct (dataKey d t) as [k|e] eqn:Hk; [|done]. rewrite (Hw' k) by done.
    by repeat case_match. }
  split.
  - intros data. apply Hget. intros k Hk. unfold state. rewrite SubmitData_eq.
    destruct (w !! d'); [|done].
    destruct (dataKey d' t') as [k'|e] eqn:Hk'; [|done]. by eapply Hother.
  - intros v b. apply Hget. intros k Hk. unfold state. rewrite VerifyData_eq.
    destruct (dataKey d' t') as [k'|e] eqn:Hk'; [|done].
    destruct (w !! k') as [raw|]; [|done].
    destruct (json.Unmarshal raw DataRecord.zero); [|done]. by eapply Hother.
Qed.

Lemma records_independent_witness :
  let w := run [InvokeRegisterDevice "dev-1" "alice" "lab-A";
                InvokeSubmitData "dev-1" "t0" "temp=21.5";
                InvokeSubmitData "dev-1" "t1" "temp=22.0"] ∅ in
  ("dev-1", "t0") <> ("dev-1", "t1") /\
  result (GetDataRecord "dev-1" "t0") (state (SubmitData "dev-1" "t1" "temp=23.0") w) =
    result (GetDataRecord "dev-1" "t0") w /\
  result (GetDataRecord "dev-1" "t0")
         (state (VerifyData "dev-1" "t1" "ver-1" false) w) =
    result (GetDataRecord "dev-1" "t0") w.
Proof.
  intros w. split; [done|].
  destruct (records_independent w "dev-1" "t0" "dev-1" "t1") as [H1 H2]; [done|].
  split; [apply H1|apply H2].
Defined.

(** X10: registrations of different devices commute. In either order the
    two calls return what each returns alone, and they leave the same
    world state. *)
Theorem RegisterDevice_commute (w : WorldState) d1 o1 l1 d2 o2 l2 :
  d1 <> d2 ->
  state (RegisterDevice d2 o2 l2) (state (RegisterDevice d1 o1 l1) w) =
    state (RegisterDevice d1 o1 l1) (state (RegisterDevice d2 o2 l2) w) /\
  result (RegisterDevice d2 o2 l2) (state (RegisterDevice d1 o1 l1) w) =
    result (RegisterDevice d2 o2 l2) w /\
  result (RegisterDevice d1 o1 l1) (state (RegisterDevice d2 o2 l2) w) =
    result (RegisterDevice d1 o1 l1) w.
Proof.
  intros Hne. unfold state, result.
  rewrite (RegisterDevice_eq d1 o1 l1 w), (RegisterDevice_eq d2 o2 l2 w).
  destruct (w !! d1) as [raw1|] eqn:H1; destruct (w !! d2) as [raw2|] eqn:H2;
    destruct (String.eqb d1 EmptyString) eqn:E1;
    destruct (String.eqb d2 EmptyString) eqn:E2; simpl;
    rewrite ?RegisterDevice_eq, ?lookup_insert_ne, ?H1, ?H2, ?E1, ?E2 by done;
    simpl; try done.
  split; [|done]. by apply insert_insert_ne.
Qed.

Lemma RegisterDevice_commute_witness :
  "dev-1" <> "dev-2" /\
  state (RegisterDevice "dev-2" "bob" "lab-B")
        (state (RegisterDevice "dev-1" "alice" "lab-A") ∅) =
  state (RegisterDevice "dev-1" "alice" "lab-A")
        (state (RegisterDevice "dev-2" "bob" "lab-B") ∅).
Proof.
  split; [done|].
  by destruct (RegisterDevice_commute ∅ "dev-1" "alice" "lab-A"
                 "dev-2" "bob" "lab-B") as [H _].
Defined.

Lemma validDataRecord_new d t x :
  shim.validateCompositeKeyAttribute d = Ok tt ->
  shim.validateCompositeKeyAttribute t = Ok tt ->
  utf8.ValidString x = true ->
  validDataRecord (newDataRecord d t x).
Proof.
  intros [Hd _]%validateCompositeKeyAttribute_no_NUL
         [Ht _]%validateCompositeKeyAttribute_no_NUL Hx.
  by do 4 (split; [done|]).
Qed.

Lemma validDataRecord_verdict v b r :
  utf8.ValidString v = true -> validDataRecord r ->
  validDataRecord (verdict v b r).
Proof.
  intros Hv (H1 & H2 & H3 & _).
  do 3 (split; [done|]). split; [by destruct b|done].
Qed.

(** X11: the whole life of a record. From a state where [deviceID] is not
    registered, with a [deviceID] and a [timestamp] the stub accepts as
    attributes and [data] and [verifierID] that are valid UTF-8,
    [RegisterDevice], [SubmitData] and [VerifyData] in that order leave a
    record that [GetDataRecord] returns with exactly these strings, the
    status of the verdict and the verifier; and [GetDevice] returns the
    device. *)
Theorem register_submit_verify (w : WorldState)
    deviceID owner location timestamp data verifierID isValid :
  ~ registered w deviceID -> deviceID <> EmptyString ->
  shim.validateCompositeKeyAttribute deviceID = Ok tt ->
  shim.validateCompositeKeyAttribute timestamp = Ok tt ->
  utf8.ValidString data = true -> utf8.ValidString verifierID = true ->
  let w' := run [InvokeRegisterDevice deviceID owner location;
                 InvokeSubmitData deviceID timestamp data;
                 InvokeVerifyData deviceID timestamp verifierID isValid] w in
  result (GetDataRecord deviceID timestamp) w' =
    Ok {| DataRecord.DeviceID := deviceID;
          DataRecord.Timestamp := timestamp;
          DataRecord.Data := data;
          DataRecord.Status := if isValid then "verified" else "rejected";
          DataRecord.VerifierID := verifierID |} /\
  result (GetDevice deviceID) w' =
    Ok (coerceDevice (newDevice deviceID owner location)).
Proof.
  intros Hreg Hne Hd Ht Hx Hv w'. subst w'.
  pose proof (dataKey_Ok _ _ Hd Ht) as Hk.
  assert (deviceID <> keyOf deviceID timestamp) as Hdk
    by (eapply attribute_not_key; eauto).
  assert (w !! deviceID = None) as Hnone by (by apply eq_None_not_Some).
  pose proof (validDataRecord_new _ _ _ Hd Ht Hx) as Hnew.
  pose proof (Unmarshal_Marshal_DataRecord
                (newDataRecord deviceID timestamp data)) as Hu1.
  rewrite (coerceDataRecord_valid _ Hnew) in Hu1.
  pose proof (Unmarshal_Marshal_DataRecord
    (verdict verifierID isValid (newDataRecord deviceID timestamp data))) as Hu2.
  rewrite (coerceDataRecord_valid _ (validDataRecord_verdict _ isValid _ Hv Hnew))
    in Hu2.
  fold (marshalled (newDataRecord deviceID timestamp data)) in Hu1.
  fold (marshalled (verdict verifierID isValid
                      (newDataRecord deviceID timestamp data))) in Hu2.
  unfold run. cbn [fold_left]. rewrite !invoke_eq. unfold state.
  rewrite RegisterDevice_eq, Hnone.
  destruct (String.eqb_spec deviceID EmptyString) as [|_]; [done|].
  cbn [fst snd]. rewrite SubmitData_eq, lookup_insert_eq, Hk. cbn [fst snd].
  rewrite VerifyData_eq, Hk, lookup_insert_eq, Hu1. cbn [fst snd].
  rewrite insert_insert_eq. unfold result. split.
  - rewrite GetDataRecord_eq, Hk, lookup_insert_eq, Hu2. by destruct isValid.
  - rewrite GetDevice_eq, lookup_insert_ne, lookup_insert_eq by done.
    unfold marshalled. by rewrite Unmarshal_Marshal_Device.
Qed.

Lemma register_submit_verify_witness :
  ~ registered ∅ "dev-1" /\
  result (GetDataRecord "dev-1" "t0")
    (run [InvokeRegisterDevice "dev-1" "alice" "lab-A";
          InvokeSubmitData "dev-1" "t0" "temp=21.5";
          InvokeVerifyData "dev-1" "t0" "ver-1" true] ∅) =
  Ok {| DataRecord.DeviceID := "dev-1"; DataRecord.Timestamp := "t0";
        DataRecord.Data := "temp=21.5"; DataRecord.Status := "verified";
        DataRecord.VerifierID := "ver-1" |}.
Proof.
  assert (~ registered ∅ "dev-1") as Hreg.
  { intros [v Hv]. by rewrite lookup_empty in Hv. }
  split; [exact Hreg|].
  by destruct (register_submit_verify ∅ "dev-1" "alice" "lab-A" "t0" "temp=21.5"
                 "ver-1" true Hreg ltac:(done) ltac:(by vm_compute)
                 ltac:(by vm_compute) ltac:(by vm_compute) ltac:(by vm_compute))
    as [H _].
Defined.

(** ** Invariants of the reachable states *)

Lemma devicesWellFormed_invoke (w : WorldState) i :
  devicesWellFormed w -> devicesWellFormed (invoke w i).
Proof.
  intros Hw.
  assert (forall d t k v, dataKey d t = Ok k -> devicesWellFormed (<[k := v]> w))
    as Hkey.
  { intros d t k v Hk k' raw Hraw Hplain.
    rewrite lookup_insert_ne in Hraw; [by apply Hw|]. intros ->.
    apply dataKey_inv in Hk as [-> _]. by apply (keyOf_not_plain d t). }
  rewrite invoke_eq. unfold state.
  destruct i as [d o l|d|d t x|d t v b|d|d t]; try done.
  - rewrite RegisterDevice_eq. destruct (w !! d); [done|].
    destruct (String.eqb d EmptyString); [done|]. cbn [fst snd].
    intros k raw Hraw Hplain. destruct (decide (d = k)) as [->|Hne].
    + rewrite lookup_insert_eq in Hraw. injection Hraw as <-. eauto.
    + rewrite lookup_insert_ne in Hraw by done. by apply Hw.
  - rewrite SubmitData_eq. destruct (w !! d); [|done].
    destruct (dataKey d t) as [k|e] eqn:Hk; [|done]. by eapply Hkey.
  - rewrite VerifyData_eq. destruct (dataKey d t) as [k|e] eqn:Hk; [|done].
    destruct (w !! k); [|done].
    destruct (json.Unmarshal _ _); [|done]. by eapply Hkey.
Qed.

Lemma devicesWellFormed_run invs : forall w : WorldState,
  devicesWellFormed w -> devicesWellFormed (run invs w).
Proof.
  induction invs as [|i invs IH]; intros w Hw; [done|].
  apply IH. by apply devicesWellFormed_invoke.
Qed.

(** X12: in every reachable state, whatever was invoked, a plain key (one
    that does not begin with U+0000) holds either nothing or a device that
    [RegisterDevice] wrote for that key: [GetDevice] returns "does not
    exist", or a device with that id (coerced to valid UTF-8) and the
    status "active". It never fails to unmarshal. *)
Theorem reachable_devices (w : WorldState) deviceID :
  reachable w -> plainKey deviceID ->
  result (GetDevice deviceID) w = Err (DeviceDoesNotExist deviceID) \/
  exists dev,
    result (GetDevice deviceID) w = Ok dev /\
    Device.ID dev = json.toValidUTF8 deviceID /\
    Device.Status dev = "active".
Proof.
  intros [invs ->] Hplain.
  assert (devicesWellFormed (run invs ∅)) as Hw.
  { apply devicesWellFormed_run. intros k raw Hl. by rewrite lookup_empty in Hl. }
  unfold result. rewrite GetDevice_eq.
  destruct (run invs ∅ !! deviceID) as [raw|] eqn:Hraw; [|by left].
  destruct (Hw _ _ Hraw Hplain) as (o & l & ->). right.
  unfold marshalled. rewrite Unmarshal_Marshal_Device. eauto.
Qed.

Lemma reachable_devices_witness :
  let w := run [InvokeRegisterDevice "dev-1" "alice" "lab-A";
                InvokeSubmitData "dev-1" "t0" "temp=21.5";
                InvokeRegisterDevice "dev-1" "bob" "lab-B"] ∅ in
  reachable w /\ plainKey "dev-1" /\
  (result (GetDevice "dev-1") w = Err (DeviceDoesNotExist "dev-1") \/
   exists dev,
     result (GetDevice "dev-1") w = Ok dev /\
     Device.ID dev = json.toValidUTF8 "dev-1" /\
     Device.Status dev = "active").
Proof.
  intros w.
  assert (reachable w) as Hreach by (by eexists).
  assert (plainKey "dev-1") as Hplain by done.
  split; [exact Hreach|]. split; [exact Hplain|].
  exact (reachable_devices w "dev-1" Hreach Hplain).
Defined.

(** X13: a device registered under a plain key is never changed. After a
    successful [RegisterDevice], whatever is invoked afterwards,
    [GetDevice] returns the device of that registration: no transaction
    updates the owner, the location or the status of a device. *)
Theorem GetDevice_stable (w : WorldState) deviceID owner location invs :
  result (RegisterDevice deviceID owner location) w = Ok tt ->
  plainKey deviceID ->
  result (GetDevice deviceID)
         (run invs (state (RegisterDevice deviceID owner location) w)) =
  Ok (coerceDevice (newDevice deviceID owner location)).
Proof.
  unfold result, state. rewrite RegisterDevice_eq.
  destruct (w !! deviceID); [done|].
  destruct (String.eqb deviceID EmptyString); [done|]. cbn [fst snd].
  intros _ Hplain. rewrite GetDevice_eq.
  rewrite (run_plain_key invs _ deviceID
             (marshalled (newDevice deviceID owner location)) Hplain)
    by apply lookup_insert_eq.
  unfold marshalled. by rewrite Unmarshal_Marshal_Device.
Qed.

Lemma GetDevice_stable_witness :
  result (RegisterDevice "dev-1" "alice" "lab-A") ∅ = Ok tt /\
  plainKey "dev-1" /\
  result (GetDevice "dev-1")
    (run [InvokeRegisterDevice "dev-1" "bob" "lab-B";
          InvokeSubmitData "dev-1" "t0" "temp=21.5";
          InvokeVerifyData "dev-1" "t0" "ver-1" true]
       (state (RegisterDevice "dev-1" "alice" "lab-A") ∅)) =
  Ok (coerceDevice (newDevice "dev-1" "alice" "lab-A")).
Proof.
  split; [by vm_compute|]. split; [done|].
  apply (GetDevice_stable ∅ "dev-1" "alice" "lab-A"); [by vm_compute|done].
Defined.

Lemma recordsWellFormed_insert_plain (w : WorldState) k v :
  plainKey k -> recordsWellFormed w -> recordsWellFormed (<[k := v]> w).
Proof.
  intros Hk Hw k' raw Hraw Hnp.
  destruct (decide (k = k')) as [->|Hne]; [done|].
  rewrite lookup_insert_ne in Hraw by done. exact (Hw _ _ Hraw Hnp).
Qed.

Lemma recordsWellFormed_insert_record (w : WorldState) k (r : DataRecord.t) :
  wellFormedStatus (coerceDataRecord r) -> recordsWellFormed w ->
  recordsWellFormed (<[k := marshalled r]> w).
Proof.
  intros Hr Hw k' raw Hraw Hnp.
  destruct (decide (k = k')) as [<-|Hne].
  - rewrite lookup_insert_eq in Hraw. injection Hraw as <-.
    exists (coerceDataRecord r). split; [|done].
    unfold marshalled. by rewrite Unmarshal_Marshal_DataRecord.
  - rewrite lookup_insert_ne in Hraw by done. exact (Hw _ _ Hraw Hnp).
Qed.

Lemma recordsWellFormed_invoke (w : WorldState) i :
  (forall d o l, i = InvokeRegisterDevice d o l -> plainKey d) ->
  recordsWellFormed w -> recordsWellFormed (invoke w i).
Proof.
  intros Hplain Hw. rewrite invoke_eq. unfold state.
  destruct i as [d o l|d|d t x|d t v b|d|d t]; try done.
  - rewrite RegisterDevice_eq. destruct (w !! d); [done|].
    destruct (String.eqb d EmptyString); [done|]. cbn [fst snd].
    apply recordsWellFormed_insert_plain; eauto.
  - rewrite SubmitData_eq. destruct (w !! d); [|done].
    destruct (dataKey d t) as [k|e]; [|done]. cbn [fst snd].
    apply recordsWellFormed_insert_record; [|done]. by left.
  - rewrite VerifyData_eq. destruct (dataKey d t) as [k|e]; [|done].
    destruct (w !! k) as [raw|]; [|done].
    destruct (json.Unmarshal raw DataRecord.zero) as [r|e]; [|done].
    cbn [fst snd]. apply recordsWellFormed_insert_record; [|done].
    right. destruct b; [by left|by right].
Qed.

Lemma recordsWellFormed_run invs : forall w : WorldState,
  registersPlainKeys invs -> recordsWellFormed w ->
  recordsWellFormed (run invs w).
Proof.
  induction invs as [|i invs IH]; intros w Hplain Hw; [done|].
  assert (registersPlainKeys invs) as Hplain'.
  { intros d o l Hin. apply (Hplain d o l). by right. }
  assert (recordsWellFormed (invoke w i)) as Hw'.
  { apply recordsWellFormed_invoke; [|done].
    intros d o l ->. apply (Hplain d o l). by left. }
  exact (IH _ Hplain' Hw').
Qed.

(** X14: in every state reached from the empty one by invocations that
    register devices under plain keys only, a record that [GetDataRecord]
    returns for a pair has the [deviceID] and the [timestamp] of the pair,
    its device is registered, and its status is "pending" with no
    verifier, "verified" or "rejected". *)
Theorem reachable_records invs deviceID timestamp r :
  registersPlainKeys invs ->
  result (GetDataRecord deviceID timestamp) (run invs ∅) = Ok r ->
  DataRecord.DeviceID r = deviceID /\
  DataRecord.Timestamp r = timestamp /\
  registered (run invs ∅) deviceID /\
  (DataRecord.Status r = "pending" /\ DataRecord.VerifierID r = EmptyString \/
   DataRecord.Status r = "verified" \/ DataRecord.Status r = "rejected").
Proof.
  intros Hplain (k & raw & Hk & Hraw & Hr)%GetDataRecord_Ok_inv.
  assert (~ plainKey k) as Hnp.
  { pose proof (dataKey_inv _ _ _ Hk) as [-> _]. apply keyOf_not_plain. }
  assert (recordsRefer ∅) as Hrefer.
  { intros k' raw' Hl. by rewrite lookup_empty in Hl. }
  assert (recordsWellFormed ∅) as Hformed.
  { intros k' raw' Hl. by rewrite lookup_empty in Hl. }
  destruct (recordsRefer_run invs ∅ Hplain Hrefer k raw Hraw Hnp)
    as (d' & t' & r' & Hk' & Hr' & Hd' & Ht' & Hreg).
  destruct (recordsWellFormed_run invs ∅ Hplain Hformed k raw Hraw Hnp)
    as (r'' & Hr'' & Hstatus).
  destruct (dataKey_inj _ _ _ _ _ Hk' Hk) as [-> ->].
  assert (r' = r) as -> by congruence.
  assert (r'' = r) as -> by congruence. done.
Qed.

Lemma reachable_records_witness :
  let invs := [InvokeRegisterDevice "dev-1" "alice" "lab-A";
               InvokeSubmitData "dev-1" "t0" "temp=21.5";
               InvokeVerifyData "dev-1" "t0" "ver-1" false] in
  let r := {| DataRecord.DeviceID := "dev-1"; DataRecord.Timestamp := "t0";
              DataRecord.Data := "temp=21.5"; DataRecord.Status := "rejected";
              DataRecord.VerifierID := "ver-1" |} in
  registersPlainKeys invs /\
  result (GetDataRecord "dev-1" "t0") (run invs ∅) = Ok r /\
  registered (run invs ∅) "dev-1".
Proof.
  intros invs r.
  assert (registersPlainKeys invs) as Hplain.
  { intros d o l [H|[H|[H|[]]]]; [|done..]. by injection H as <- _ _. }
  assert (result (GetDataRecord "dev-1" "t0") (run invs ∅) = Ok r) as Hr
    by (by vm_compute).
  split; [exact Hplain|]. split; [exact Hr|].
  by destruct (reachable_records invs "dev-1" "t0" r Hplain Hr) as (_ & _ & H & _).
Defined.

(** X15: what is read is stable. Whatever the world state holds, a device
    or a record that [GetDevice] or [GetDataRecord] returns has fields that
    are valid UTF-8, and marshalled again it unmarshals to itself: the
    coercion of [json.Marshal] changes nothing that was read from the
    ledger. *)
Theorem results_round_trip (w : WorldState) :
  (forall deviceID dev,
     result (GetDevice deviceID) w = Ok dev ->
     validDevice dev /\
     exists data, json.Marshal dev = Ok data /\
                  json.Unmarshal data Device.zero = Ok dev) /\
  (forall deviceID timestamp r,
     result (GetDataRecord deviceID timestamp) w = Ok r ->
     validDataRecord r /\
     exists data, json.Marshal r = Ok data /\
                  json.Unmarshal data DataRecord.zero = Ok r).
Proof.
  split.
  - intros d dev. unfold result. rewrite GetDevice_eq.
    destruct (w !! d) as [raw|]; [|done].
    destruct (json.Unmarshal raw Device.zero) as [dev'|e] eqn:Hdev; [|done].
    intros [= ->]. pose proof (Unmarshal_valid_Device _ _ Hdev) as Hv.
    split; [done|]. eexists. split; [reflexivity|].
    by rewrite Unmarshal_Marshal_Device, coerceDevice_valid.
  - intros d t r (k & raw & _ & _ & Hr)%GetDataRecord_Ok_inv.
    pose proof (Unmarshal_valid_DataRecord _ _ Hr) as Hv.
    split; [done|]. eexists. split; [reflexivity|].
    by rewrite Unmarshal_Marshal_DataRecord, coerceDataRecord_valid.
Qed.

(** X16: the queries do nothing. [DeviceExists], [GetDevice] and
    [GetDataRecord] leave the world state as it is, so a sequence of
    invocations leaves the world state that it leaves without its
    queries. *)
Theorem queries_change_nothing invs : forall w : WorldState,
  run (filter (fun i => isQuery i = false) invs) w = run invs w.
Proof.
  induction invs as [|i invs IH]; intros w; [done|].
  rewrite filter_cons. destruct (decide (isQuery i = false)) as [Hq|Hq].
  - apply IH.
  - rewrite IH. unfold run at 2. cbn [fold_left]. rewrite invoke_eq.
    by destruct i.
Qed.

(** X17: a pair that makes no composite key. When the stub refuses
    [deviceID] or [timestamp] as an attribute of a composite key (not
    valid UTF-8, or with U+0000 or U+10FFFF), [VerifyData] and
    [GetDataRecord] fail before any access to the ledger, and [SubmitData]
    fails after its one read of the device; none of them writes. *)
Theorem no_composite_key (w : WorldState) deviceID timestamp e :
  dataKey deviceID timestamp = Err e ->
  (forall verifierID isValid,
     VerifyData deviceID timestamp verifierID isValid w =
     (Err (FailedToCreateCompositeKey e), w, [])) /\
  GetDataRecord deviceID timestamp w =
    (Err (FailedToCreateCompositeKey e), w, []) /\
  (forall data,
     registered w deviceID ->
     SubmitData deviceID timestamp data w =
     (Err (FailedToCreateCompositeKey e), w, [GetStateCall deviceID])) /\
  errorKind (FailedToCreateCompositeKey e) = ErrorKind.LedgerIOError.
Proof.
  intros Hk. split; [|split; [|split; [|done]]].
  - intros v b. by rewrite VerifyData_eq, Hk.
  - by rewrite GetDataRecord_eq, Hk.
  - intros x [raw Hraw]. by rewrite SubmitData_eq, Hraw, Hk.
Qed.

Lemma no_composite_key_witness :
  let w := run [InvokeRegisterDevice "dev-1" "alice" "lab-A"] ∅ in
  dataKey "dev-1" xFF = Err (NotValidUTF8 xFF) /\
  dataKey "dev-1" (String.String NUL "t0") =
    Err (ForbiddenRune (String.String NUL "t0")) /\
  GetDataRecord "dev-1" xFF w =
    (Err (FailedToCreateCompositeKey (NotValidUTF8 xFF)), w, []).
Proof.
  intros w. split; [by vm_compute|]. split; [by vm_compute|].
  by destruct (no_composite_key w "dev-1" xFF (NotValidUTF8 xFF)
                 ltac:(by vm_compute)) as (_ & H & _).
Defined.

Lemma invoke_empty_key (w : WorldState) i :
  w !! EmptyString = None -> invoke w i !! EmptyString = None.
Proof.
  intros Hw.
  assert (forall d t k v, dataKey d t = Ok k ->
            <[k := v]> w !! EmptyString = None) as Hkey.
  { intros d t k v Hk. rewrite lookup_insert_ne; [done|].
    by apply dataKey_inv in Hk as [-> _]. }
  rewrite invoke_eq. unfold state.
  destruct i as [d o l|d|d t x|d t v b|d|d t]; try done.
  - rewrite RegisterDevice_eq. destruct (w !! d); [done|].
    destruct (String.eqb_spec d EmptyString) as [|Hne]; [done|].
    cbn [fst snd]. by rewrite lookup_insert_ne.
  - rewrite SubmitData_eq. destruct (w !! d); [|done].
    destruct (dataKey d t) as [k|e] eqn:Hk; [|done]. by eapply Hkey.
  - rewrite VerifyData_eq. destruct (dataKey d t) as [k|e] eqn:Hk; [|done].
    destruct (w !! k); [|done].
    destruct (json.Unmarshal _ _); [|done]. by eapply Hkey.
Qed.

(** X18: there is no device with the empty id. The stub refuses the empty
    key, so in every reachable state [RegisterDevice] with the empty id
    fails with the stub's error and writes nothing, [DeviceExists] returns
    false for it, [GetDevice] returns "does not exist" and [SubmitData]
    returns "not registered". *)
Theorem empty_id_never_registered (w : WorldState) :
  reachable w ->
  ~ registered w EmptyString /\
  (forall owner location,
     RegisterDevice EmptyString owner location w =
     (Err KeyMustNotBeEmpty, w, [GetStateCall EmptyString])) /\
  result (DeviceExists EmptyString) w = Ok false /\
  result (GetDevice EmptyString) w = Err (DeviceDoesNotExist EmptyString) /\
  (forall timestamp data,
     result (SubmitData EmptyString timestamp data) w =
     Err (DeviceNotRegistered EmptyString)).
Proof.
  intros [invs ->].
  assert (forall w : WorldState, w !! EmptyString = None ->
            run invs w !! EmptyString = None) as Hrun.
  { induction invs as [|i invs IH]; intros w Hw; [done|].
    apply IH. by apply invoke_empty_key. }
  specialize (Hrun ∅ (lookup_empty _)). unfold registered, result.
  split; [by rewrite Hrun; intros [? ?]|].
  split; [intros o l; by rewrite RegisterDevice_eq, Hrun|].
  split; [by rewrite DeviceExists_eq, Hrun|].
  split; [by rewrite GetDevice_eq, Hrun|].
  intros t x. by rewrite SubmitData_eq, Hrun.
Qed.

Lemma empty_id_never_registered_witness :
  let w := run [InvokeRegisterDevice EmptyString "alice" "lab-A";
                InvokeRegisterDevice "dev-1" "alice" "lab-A";
                InvokeSubmitData "dev-1" EmptyString "temp=21.5"] ∅ in
  reachable w /\ ~ registered w EmptyString /\
  result (GetDataRecord "dev-1" EmptyString) w =
    Ok (newDataRecord "dev-1" EmptyString "temp=21.5").
Proof.
  intros w. assert (reachable w) as Hreach by (by eexists).
  split; [exact Hreach|]. split; [|by vm_compute].
  by destruct (empty_id_never_registered w Hreach) as [H _].
Defined.

(** X19: a data record is seen as a device. Devices and records share the
    keys of the world state and the payloads carry no type: after a
    successful [SubmitData], [DeviceExists] returns true for the composite
    key of the record, [GetDevice] returns for it a device that has the
    status of the record and no id, owner or location, and
    [RegisterDevice] refuses it as already registered. *)
Theorem record_seen_as_device (w : WorldState) deviceID timestamp data :
  result (SubmitData deviceID timestamp data) w = Ok tt ->
  let w' := state (SubmitData deviceID timestamp data) w in
  let key := keyOf deviceID timestamp in
  result (DeviceExists key) w' = Ok true /\
  result (GetDevice key) w' =
    Ok {| Device.ID := EmptyString; Device.Owner := EmptyString;
          Device.Location := EmptyString; Device.Status := "pending" |} /\
  (forall owner location,
     result (RegisterDevice key owner location) w' =
     Err (DeviceAlreadyRegistered key)).
Proof.
  unfold result, state. rewrite SubmitData_eq.
  destruct (w !! deviceID); [|done].
  destruct (dataKey deviceID timestamp) as [k|e] eqn:Hk; [|done].
  apply dataKey_inv in Hk as [-> _]. cbn [fst snd]. intros _.
  split; [|split].
  - rewrite DeviceExists_eq, lookup_insert_eq. done.
  - rewrite GetDevice_eq, lookup_insert_eq. unfold marshalled, json.Unmarshal.
    rewrite json_facts.parse_encodeFields. reflexivity.
  - intros owner location. by rewrite RegisterDevice_eq, lookup_insert_eq.
Qed.

Lemma record_seen_as_device_witness :
  let w := run [InvokeRegisterDevice "dev-1" "alice" "lab-A"] ∅ in
  result (SubmitData "dev-1" "t0" "temp=21.5") w = Ok tt /\
  result (GetDevice (keyOf "dev-1" "t0"))
         (state (SubmitData "dev-1" "t0" "temp=21.5") w) =
    Ok {| Device.ID := EmptyString; Device.Owner := EmptyString;
          Device.Location := EmptyString; Device.Status := "pending" |}.
Proof.
  intros w. split; [by vm_compute|].
  by destruct (record_seen_as_device w "dev-1" "t0" "temp=21.5"
                 ltac:(by vm_compute)) as (_ & H & _).
Defined.

(** ** What a transaction leaves alone *)

Lemma SubmitData_state (w : WorldState) d t x :
  state (SubmitData d t x) w =
  match w !! d, dataKey d t with
  | Some _, Ok k => <[k := marshalled (newDataRecord d t x)]> w
  | _, _ => w
  end.
Proof.
  unfold state. rewrite SubmitData_eq.
  destruct (w !! d); [|done]. by destruct (dataKey d t).
Qed.

(** [SubmitData] in a state that has one more value under a composite
    key: the device it looks for is no composite key. *)
Lemma SubmitData_after_record (w : WorldState) d t x d0 t0 k0 v0 :
  dataKey d0 t0 = Ok k0 ->
  state (SubmitData d t x) (<[k0 := v0]> w) =
  match w !! d, dataKey d t with
  | Some _, Ok k => <[k := marshalled (newDataRecord d t x)]> (<[k0 := v0]> w)
  | _, _ => <[k0 := v0]> w
  end.
Proof.
  intros Hk0. rewrite SubmitData_state.
  destruct (dataKey d t) as [k|e] eqn:Hk.
  - pose proof (dataKey_inv _ _ _ Hk) as (_ & Hd & _).
    rewrite lookup_insert_ne; [done|]. intros Heq.
    apply (attribute_not_key d0 t0 k0 d Hk0 Hd). by rewrite Heq.
  - destruct (<[k0 := v0]> w !! d); by destruct (w !! d).
Qed.

(** X20: submissions for different pairs commute: in either order two
    [SubmitData] leave the same world state. *)
Theorem SubmitData_commute (w : WorldState) d t x d' t' x' :
  (d, t) <> (d', t') ->
  state (SubmitData d' t' x') (state (SubmitData d t x) w) =
  state (SubmitData d t x) (state (SubmitData d' t' x') w).
Proof.
  intros Hne.
  assert (forall k k', dataKey d t = Ok k -> dataKey d' t' = Ok k' -> k <> k')
    as Hkeys.
  { intros k k' Hk Hk' ->.
    by destruct (dataKey_inj _ _ _ _ _ Hk Hk') as [-> ->]. }
  rewrite (SubmitData_state w d t x), (SubmitData_state w d' t' x').
  destruct (w !! d) as [raw|] eqn:Hd;
    destruct (dataKey d t) as [k|e] eqn:Hk;
    destruct (w !! d') as [raw'|] eqn:Hd';
    destruct (dataKey d' t') as [k'|e'] eqn:Hk';
    try rewrite (SubmitData_after_record _ _ _ _ _ _ _ _ Hk);
    try rewrite (SubmitData_after_record _ _ _ _ _ _ _ _ Hk');
    rewrite ?SubmitData_state, ?Hd, ?Hd', ?Hk, ?Hk'; try done.
  apply insert_insert_ne. intros ->. by eapply Hkeys.
Qed.

Lemma SubmitData_commute_witness :
  let w := run [InvokeRegisterDevice "dev-1" "alice" "lab-A"] ∅ in
  ("dev-1", "t0") <> ("dev-1", "t1") /\
  state (SubmitData "dev-1" "t1" "temp=22.0")
        (state (SubmitData "dev-1" "t0" "temp=21.5") w) =
  state (SubmitData "dev-1" "t0" "temp=21.5")
        (state (SubmitData "dev-1" "t1" "temp=22.0") w).
Proof.
  intros w. split; [done|].
  by apply (SubmitData_commute w "dev-1" "t0" "temp=21.5" "dev-1" "t1" "temp=22.0").
Defined.

(** X21: [RegisterDevice] never overwrites. Every key that holds a value
    holds the same value after a [RegisterDevice], whatever its
    [deviceID]; so every device and every record that could be read before
    is read the same afterwards. *)
Theorem RegisterDevice_never_overwrites (w : WorldState) deviceID owner location :
  let w' := state (RegisterDevice deviceID owner location) w in
  (forall k v, w !! k = Some v -> w' !! k = Some v) /\
  (forall d dev, result (GetDevice d) w = Ok dev ->
                 result (GetDevice d) w' = Ok dev) /\
  (forall d t r, result (GetDataRecord d t) w = Ok r ->
                 result (GetDataRecord d t) w' = Ok r).
Proof.
  intros w'.
  assert (forall k v, w !! k = Some v -> w' !! k = Some v) as Hkeep.
  { intros k v Hk. subst w'. unfold state. rewrite RegisterDevice_eq.
    destruct (w !! deviceID) eqn:Hd; [done|].
    destruct (String.eqb deviceID EmptyString); [done|]. cbn [fst snd].
    rewrite lookup_insert_ne; [done|]. congruence. }
  split; [done|]. split.
  - intros d dev. unfold result. rewrite !GetDevice_eq.
    destruct (w !! d) as [raw|] eqn:Hraw; [|done].
    rewrite (Hkeep _ _ Hraw). by repeat case_match.
  - intros d t r Hget.
    destruct (GetDataRecord_Ok_inv _ _ _ _ Hget) as (k & raw & Hk & Hraw & _).
    rewrite <- Hget. apply (GetDataRecord_lookup _ _ _ _ k Hk).
    by rewrite Hraw, (Hkeep _ _ Hraw).
Qed.

Lemma data_kept_step (w : WorldState) deviceID timestamp i r :
  result (GetDataRecord deviceID timestamp) w = Ok r ->
  (forall data, i = InvokeSubmitData deviceID timestamp data ->
                result (SubmitData deviceID timestamp data) w <> Ok tt) ->
  exists r', result (GetDataRecord deviceID timestamp) (invoke w i) = Ok r' /\
             DataRecord.DeviceID r' = DataRecord.DeviceID r /\
             DataRecord.Timestamp r' = DataRecord.Timestamp r /\
             DataRecord.Data r' = DataRecord.Data r.
Proof.
  intros Hget Hno.
  destruct (GetDataRecord_Ok_inv _ _ _ _ Hget) as (k & raw & Hk & Hw & Hr).
  assert (forall k' v, k' <> k ->
            exists r', result (GetDataRecord deviceID timestamp)
                              (<[k' := v]> w) = Ok r' /\
                       DataRecord.DeviceID r' = DataRecord.DeviceID r /\
                       DataRecord.Timestamp r' = DataRecord.Timestamp r /\
                       DataRecord.Data r' = DataRecord.Data r) as Hother.
  { intros k' v Hne. exists r. split; [|done]. rewrite <- Hget.
    apply (GetDataRecord_lookup _ _ _ _ k Hk). by rewrite lookup_insert_ne. }
  rewrite invoke_eq. unfold state.
  destruct i as [d o l|d|d t x|d t v b|d|d t]; eauto.
  - rewrite RegisterDevice_eq. destruct (w !! d) eqn:Hd; [eauto|].
    destruct (String.eqb d EmptyString); [eauto|]. cbn [fst snd].
    apply Hother. congruence.
  - rewrite SubmitData_eq. destruct (w !! d) eqn:Hd; [|eauto].
    destruct (dataKey d t) as [k'|e] eqn:Hk'; [|eauto]. cbn [fst snd].
    destruct (decide (k' = k)) as [->|Hne]; [|by apply Hother].
    destruct (dataKey_inj _ _ _ _ _ Hk' Hk) as [-> ->].
    exfalso. apply (Hno x eq_refl). unfold result.
    by rewrite SubmitData_eq, Hd, Hk.
  - rewrite VerifyData_eq. destruct (dataKey d t) as [k'|e] eqn:Hk'; [|eauto].
    destruct (w !! k') as [raw'|] eqn:Hw'; [|eauto].
    destruct (json.Unmarshal raw' DataRecord.zero) as [r0|e] eqn:Hr0; [|eauto].
    cbn [fst snd].
    destruct (decide (k' = k)) as [->|Hne]; [|by apply Hother].
    assert (r0 = r) as -> by congruence.
    unfold result. rewrite GetDataRecord_eq, Hk, lookup_insert_eq.
    unfold marshalled. rewrite Unmarshal_Marshal_DataRecord.
    eexists. split; [reflexivity|].
    destruct (Unmarshal_valid_DataRecord _ _ Hr) as (H1 & H2 & H3 & _).
    cbn [coerceDataRecord verdict DataRecord.setVerifierID DataRecord.setStatus
         DataRecord.DeviceID DataRecord.Timestamp DataRecord.Data].
    by rewrite !json_facts.toValidUTF8_valid.
Qed.

(** X22: submitted data is kept. The [deviceID], the [timestamp] and the
    [data] of a stored record are what [GetDataRecord] returns in every
    state reached by invocations among which no [SubmitData] for the same
    pair succeeds: [VerifyData] changes the status and the verifier only,
    and no other transaction writes the record. *)
Theorem data_kept_until_resubmitted (w : WorldState) deviceID timestamp r invs :
  result (GetDataRecord deviceID timestamp) w = Ok r ->
  notResubmitted deviceID timestamp invs w ->
  exists r',
    result (GetDataRecord deviceID timestamp) (run invs w) = Ok r' /\
    DataRecord.DeviceID r' = DataRecord.DeviceID r /\
    DataRecord.Timestamp r' = DataRecord.Timestamp r /\
    DataRecord.Data r' = DataRecord.Data r.
Proof.
  revert w r. induction invs as [|i invs IH]; intros w r Hget Hno.
  - by exists r.
  - destruct Hno as [Hi Hno].
    destruct (data_kept_step w deviceID timestamp i r Hget Hi)
      as (r1 & Hget1 & Hd1 & Ht1 & Hx1).
    destruct (IH _ _ Hget1 Hno) as (r' & Hget' & Hd' & Ht' & Hx').
    exists r'. split; [done|]. by rewrite Hd', Ht', Hx'.
Qed.

Lemma data_kept_until_resubmitted_witness :
  let w := run [InvokeRegisterDevice "dev-1" "alice" "lab-A";
                InvokeSubmitData "dev-1" "t0" "temp=21.5"] ∅ in
  let invs := [InvokeVerifyData "dev-1" "t0" "ver-1" true;
               InvokeSubmitData "dev-1" "t1" "temp=22.0";
               InvokeRegisterDevice (keyOf "dev-1" "t0") "mallory" "lab-M";
               InvokeVerifyData "dev-1" "t0" "ver-2" false] in
  result (GetDataRecord "dev-1" "t0") w =
    Ok (newDataRecord "dev-1" "t0" "temp=21.5") /\
  notResubmitted "dev-1" "t0" invs w /\
  exists r',
    result (GetDataRecord "dev-1" "t0") (run invs w) = Ok r' /\
    DataRecord.Data r' = "temp=21.5".
Proof.
  intros w invs.
  assert (result (GetDataRecord "dev-1" "t0") w =
          Ok (newDataRecord "dev-1" "t0" "temp=21.5")) as Hget by (by vm_compute).
  assert (notResubmitted "dev-1" "t0" invs w) as Hno.
  { simpl. repeat split; intros data Heq; discriminate Heq. }
  split; [exact Hget|]. split; [exact Hno|].
  destruct (data_kept_until_resubmitted w "dev-1" "t0" _ invs Hget Hno)
    as (r' & H1 & _ & _ & H2).
  exists r'. by split.
Defined.
